(** * SHEIKE: facial metrics scoring and image/face quality validation

    A shallow embedding of
    - the MediaPipe module [@/lib/mediapipe] (landmark index registry and
      geometry kernel),
    - the facial metrics module (class [FacialMetricsCalculator]),
    - [src/lib/quality.ts] (class [QualityValidator]),
    - the class [MediaPipeFaceLandmarker] of the MediaPipe module,
      [processImage] of the capture component, and the target size and the
      EXIF orientation of [@/utils/imageProcessing],
    followed by the properties of the specification that concern them and
    by further properties of the code.

    Numbers.  A JavaScript [number] is modelled by [num]: a rational, or
    one of the three special values +Infinity, -Infinity and NaN.  Two
    arithmetics are given on it.  [JsNum] computes on finite values
    exactly and keeps results in lowest terms, so that equal results are
    equal terms; it carries the properties that do not depend on how a
    result is rounded: which landmarks are read, which checks run and what
    they report, which guard returns first, counts and comparisons.
    [Binary64] rounds every result to the nearest binary64 value, ties to
    even, with gradual underflow, and overflows to the infinities, as the
    program does; the scoring functions of the facial metrics module, whose
    results the rounding and the overflow decide, are given over it in
    [Scoring64].  Zero is unsigned: a zero divisor counts as +0, which is
    the only zero the divisors of this program can take (results of
    [Math.sqrt], of a loop counter, of [max - min]).  Inputs of the program
    (landmark coordinates, pixel bytes, image sizes, configuration) are
    finite.

    Exceptions.  A function that may throw returns a [result]; a rejected
    promise is a thrown exception.

    The browser.  The validator and the capture component read pixels
    through a canvas each.  What the document and the canvases answer is
    part of the input: whether a 2-D context is available, and the bytes
    that [getImageData] hands out or the exception it throws.  So is what
    the callback [onCapture] of the component does: return or throw. *)

From Stdlib Require Import ZArith QArith Qabs Qminmax Qround Qpower List Bool.
From Stdlib Require Import String DecimalString Lia Lqa.
From Stdlib Require PrimFloat FloatOps SpecFloat.
Import ListNotations.

Set Implicit Arguments.
Set Warnings "-register-all,-notation-overridden,-inexact-float".

(* ================================================================== *)
(** ** JavaScript numbers                                              *)
(* ================================================================== *)

Module JsNum.

Inductive num : Type :=
| Fin (q : Q)
| PInf
| NInf
| NaN.

(** A finite result, in lowest terms. *)
Definition fin (q : Q) : num := Fin (Qred q).

Definition Qpos_b (q : Q) : bool := negb (Qle_bool q 0).
Definition Qneg_b (q : Q) : bool := negb (Qle_bool 0 q).
Definition Qzero_b (q : Q) : bool := Qle_bool q 0 && Qle_bool 0 q.

(** The sign of a number as the product and quotient rules see it. *)
Inductive sign := Pos | Zero | Neg.

Definition Qsign (q : Q) : sign :=
  if Qpos_b q then Pos else if Qneg_b q then Neg else Zero.

Definition inf_of (s : sign) : num :=
  match s with Pos => PInf | Neg => NInf | Zero => NaN end.

Definition sign_opp (s : sign) : sign :=
  match s with Pos => Neg | Neg => Pos | Zero => Zero end.

Definition neg (a : num) : num :=
  match a with
  | Fin x => Fin (- x)
  | PInf => NInf
  | NInf => PInf
  | NaN => NaN
  end.

(** [a + b] *)
Definition add (a b : num) : num :=
  match a, b with
  | NaN, _ | _, NaN => NaN
  | Fin x, Fin y => fin (x + y)
  | PInf, NInf | NInf, PInf => NaN
  | PInf, _ | _, PInf => PInf
  | NInf, _ | _, NInf => NInf
  end.

(** [a - b] *)
Definition sub (a b : num) : num := add a (neg b).

(** [a * b] *)
Definition mul (a b : num) : num :=
  match a, b with
  | NaN, _ | _, NaN => NaN
  | Fin x, Fin y => fin (x * y)
  | Fin x, PInf | PInf, Fin x => inf_of (Qsign x)
  | Fin x, NInf | NInf, Fin x => inf_of (sign_opp (Qsign x))
  | PInf, PInf | NInf, NInf => PInf
  | PInf, NInf | NInf, PInf => NInf
  end.

(** [a / b]; a finite non-zero value over zero is an infinity, 0/0 is NaN. *)
Definition div (a b : num) : num :=
  match a, b with
  | NaN, _ | _, NaN => NaN
  | Fin x, Fin y => if Qzero_b y then inf_of (Qsign x) else fin (x / y)
  | Fin _, (PInf | NInf) => Fin 0
  | PInf, Fin y => if Qneg_b y then NInf else PInf
  | NInf, Fin y => if Qneg_b y then PInf else NInf
  | (PInf | NInf), (PInf | NInf) => NaN
  end.

(** [Math.abs] *)
Definition abs (a : num) : num :=
  match a with
  | Fin x => Fin (Qabs x)
  | PInf | NInf => PInf
  | NaN => NaN
  end.

(** [a <= b]; every comparison with NaN is false. *)
Definition leb (a b : num) : bool :=
  match a, b with
  | NaN, _ | _, NaN => false
  | Fin x, Fin y => Qle_bool x y
  | NInf, _ | _, PInf => true
  | _, _ => false
  end.

(** [a < b] *)
Definition ltb (a b : num) : bool :=
  match a, b with
  | NaN, _ | _, NaN => false
  | Fin x, Fin y => negb (Qle_bool y x)
  | PInf, _ | _, NInf => false
  | _, _ => true
  end.

(** [a >= b] and [a > b] *)
Definition geb (a b : num) : bool := leb b a.
Definition gtb (a b : num) : bool := ltb b a.

(** [a === b] on numbers *)
Definition eqb (a b : num) : bool :=
  match a, b with
  | Fin x, Fin y => Qeq_bool x y
  | PInf, PInf | NInf, NInf => true
  | _, _ => false
  end.

(** [Math.min(a, b)]: NaN when either argument is NaN. *)
Definition min (a b : num) : num :=
  match a, b with
  | NaN, _ | _, NaN => NaN
  | _, _ => if leb a b then a else b
  end.

(** [Math.max(a, b)] *)
Definition max (a b : num) : num :=
  match a, b with
  | NaN, _ | _, NaN => NaN
  | _, _ => if leb a b then b else a
  end.

(** [Math.round]: the nearest integer, halves towards +Infinity. *)
Definition round (a : num) : num :=
  match a with
  | Fin x => Fin (inject_Z (Qfloor (x + (1 # 2))))
  | _ => a
  end.

(** [Math.pow(a, 2)] *)
Definition pow2 (a : num) : num := mul a a.

Definition of_Z (z : Z) : num := Fin (inject_Z z).
Definition of_nat (n : nat) : num := Fin (inject_Z (Z.of_nat n)).

(** [a ?? 0] on an optional number *)
Definition or_zero (o : option Q) : num :=
  match o with Some q => Fin q | None => Fin 0 end.

(** Equality of numbers up to the representation of a rational. *)
Definition num_eq (a b : num) : Prop :=
  match a, b with
  | Fin x, Fin y => x == y
  | PInf, PInf | NInf, NInf | NaN, NaN => True
  | _, _ => False
  end.

Definition is_nan (a : num) : bool :=
  match a with NaN => true | _ => false end.

End JsNum.

Import JsNum.

Declare Scope num_scope.
Delimit Scope num_scope with num.
Bind Scope num_scope with num.
Infix "+" := add : num_scope.
Infix "-" := sub : num_scope.
Infix "*" := mul : num_scope.
Infix "/" := div : num_scope.
Infix "<=?" := leb : num_scope.
Infix "<?" := ltb : num_scope.
Infix ">=?" := geb (at level 70) : num_scope.
Infix ">?" := gtb (at level 70) : num_scope.
Infix "==" := num_eq : num_scope.

(** The functions of [Math] that have no rational closed form.  On finite
    arguments in their domain they return a finite number; the only law
    the program's properties rest on is that the square root of zero is
    zero. *)
Class MathLib : Type := {
  sqrtQ : Q -> Q;              (* Math.sqrt on a finite x >= 0 *)
  atan2Q : Q -> Q -> Q;        (* Math.atan2(y, x) *)
  acosQ : Q -> Q;              (* Math.acos on [-1, 1] *)
  piQ : Q;                     (* Math.PI *)
  sqrtQ_zero : forall q, q == 0 -> sqrtQ q == 0
}.

Section MathOnNum.
Context {M : MathLib}.

(** [Math.sqrt] *)
Definition sqrt (a : num) : num :=
  match a with
  | Fin x => if Qneg_b x then NaN else fin (sqrtQ x)
  | PInf => PInf
  | NInf | NaN => NaN
  end.

(** [Math.atan2(y, x)]; the program applies it to finite differences. *)
Definition atan2 (y x : num) : num :=
  match y, x with
  | Fin b, Fin a => fin (atan2Q b a)
  | NaN, _ | _, NaN => NaN
  | Fin b, PInf => Fin 0
  | Fin b, NInf => if Qneg_b b then fin (- piQ) else fin piQ
  | PInf, Fin _ => fin (piQ / 2)
  | NInf, Fin _ => fin (- (piQ / 2))
  | PInf, PInf => fin (piQ / 4)
  | PInf, NInf => fin (3 * piQ / 4)
  | NInf, PInf => fin (- (piQ / 4))
  | NInf, NInf => fin (- (3 * piQ / 4))
  end.

(** [Math.acos]: NaN outside [-1, 1]. *)
Definition acos (a : num) : num :=
  match a with
  | Fin x => if Qle_bool (-1) x && Qle_bool x 1 then fin (acosQ x) else NaN
  | _ => NaN
  end.

End MathOnNum.

(* ================================================================== *)
(** ** Exceptions                                                      *)
(* ================================================================== *)

Module Js.

Inductive MetricsCode := INSUFFICIENT_LANDMARKS | CALCULATION_ERROR | INVALID_INPUT.
Inductive MetricsFeature := feature_eyes | feature_nose | feature_jaw | feature_general.
Inductive QualityCode := ANALYSIS_FAILED | INVALID_IMAGE | PROCESSING_ERROR.

(** What the program throws: [Error] instances, the two object literals
    typed [MetricsCalculationError] and [QualityValidationError], and
    whatever the canvas throws. *)
Inductive exn : Type :=
| Error (message : string)
| MetricsCalculationError (message : string) (code : MetricsCode)
    (feature : MetricsFeature) (details : option exn)
| QualityValidationError (message : string) (code : QualityCode) (details : exn)
| DOMException (name message : string).

(** [String(error)] *)
Definition String_of (e : exn) : string :=
  match e with
  | Error m => "Error: " ++ m
  | DOMException n m => n ++ ": " ++ m
  | MetricsCalculationError _ _ _ _ | QualityValidationError _ _ _ => "[object Object]"
  end.

(** A computation that returns or throws. *)
Inductive result (A : Type) : Type :=
| Ok (a : A)
| Throw (e : exn).

Arguments Ok {A} a.
Arguments Throw {A} e.

Definition bind {A B : Type} (c : result A) (k : A -> result B) : result B :=
  match c with
  | Ok a => k a
  | Throw e => Throw e
  end.

(** [try { c } catch (error) { throw h(error) }] *)
Definition rethrow {A : Type} (c : result A) (h : exn -> exn) : result A :=
  match c with
  | Ok a => Ok a
  | Throw e => Throw (h e)
  end.

(** [if (o === undefined) throw new Error(msg)] *)
Definition defined {A : Type} (o : option A) (msg : string) : result A :=
  match o with
  | Some a => Ok a
  | None => Throw (Error msg)
  end.

(** Template literal [${n}] for a non-negative integer. *)
Definition show_nat (n : nat) : string := NilEmpty.string_of_uint (Nat.to_uint n).

End Js.

Import Js.

Notation "x <- c ;; k" := (bind c (fun x => k))
  (at level 61, c at next level, right associativity).

(* ================================================================== *)
(** ** lib/mediapipe: index registry and geometry kernel               *)
(* ================================================================== *)

Module MediaPipe.

Record NormalizedLandmark : Type := {
  x : Q;
  y : Q;
  z : option Q;
  visibility : option Q;
  presence : option Q
}.

(** A point with computed coordinates: what the geometry kernel reads of a
    landmark, and what the centroid functions return. *)
Record Point : Type := { px : num; py : num; pz : option num }.

Definition xy (l : NormalizedLandmark) : Point :=
  {| px := Fin l.(x); py := Fin l.(y); pz := option_map Fin l.(z) |}.

Module LANDMARK_INDICES.
Definition LEFT_EYE : list nat :=
  [33; 7; 163; 144; 145; 153; 154; 155; 133; 173; 157; 158; 159; 160; 161; 246]%nat.
Definition RIGHT_EYE : list nat :=
  [362; 382; 381; 380; 374; 373; 390; 249; 263; 466; 388; 387; 386; 385; 384; 398]%nat.
Definition NOSE_TIP : list nat :=
  [1; 2; 5; 4; 6; 19; 20; 94; 125; 141; 235; 236; 237; 238; 239; 240; 241; 242]%nat.
Definition NOSE_BRIDGE : list nat :=
  [6; 9; 10; 151; 195; 197; 196; 3; 51; 48; 115; 131; 134; 102; 49; 220]%nat.
Definition NOSTRIL_LEFT : list nat :=
  [235; 31; 228; 229; 230; 231; 232; 233; 244; 245; 122; 6; 202; 214; 234]%nat.
Definition NOSTRIL_RIGHT : list nat :=
  [455; 462; 459; 458; 457; 456; 448; 449; 451; 452; 453; 464; 435; 410; 454]%nat.
Definition JAW_LEFT : list nat :=
  [172; 136; 150; 149; 176; 148; 152; 377; 400; 378; 379; 365; 397; 288; 361; 323]%nat.
Definition JAW_RIGHT : list nat :=
  [397; 365; 379; 378; 400; 377; 152; 148; 176; 149; 150; 136; 172; 58; 132; 93]%nat.
Definition CHIN : list nat :=
  [18; 175; 199; 200; 9; 10; 151; 175; 18; 175; 199; 200; 9; 10; 151]%nat.
Definition FACE_OUTLINE : list nat :=
  [10; 338; 297; 332; 284; 251; 389; 356; 454; 323; 361; 288; 397; 365; 379;
   378; 400; 377; 152; 148; 176; 149; 150; 136; 172; 58; 132; 93; 234; 127;
   162; 21; 54; 103; 67; 109]%nat.
End LANDMARK_INDICES.

(** [indices.map(index => landmarks[index] ?? throw)] *)
Fixpoint extractLandmarksByIndices (landmarks : list NormalizedLandmark)
    (indices : list nat) : result (list NormalizedLandmark) :=
  match indices with
  | [] => Ok []
  | index :: rest =>
      landmark <- defined (nth_error landmarks index)
                    ("Landmark at index " ++ show_nat index ++ " not found") ;;
      tail <- extractLandmarksByIndices landmarks rest ;;
      Ok (landmark :: tail)
  end.

Section Geometry.
Context {M : MathLib}.

Definition calculateDistance (point1 point2 : Point) : num :=
  let dx := (point1.(px) - point2.(px))%num in
  let dy := (point1.(py) - point2.(py))%num in
  sqrt (dx * dx + dy * dy)%num.

Definition calculateAngle (point1 center point2 : Point) : num :=
  let v1x := (point1.(px) - center.(px))%num in
  let v1y := (point1.(py) - center.(py))%num in
  let v2x := (point2.(px) - center.(px))%num in
  let v2y := (point2.(py) - center.(py))%num in
  let dot := (v1x * v2x + v1y * v2y)%num in
  let mag1 := sqrt (v1x * v1x + v1y * v1y)%num in
  let mag2 := sqrt (v2x * v2x + v2y * v2y)%num in
  if eqb mag1 (Fin 0) || eqb mag2 (Fin 0) then Fin 0
  else
    let cosAngle := (dot / (mag1 * mag2))%num in
    (acos (max (Fin (-1)) (min (Fin 1) cosAngle)) * (Fin 180 / Fin piQ))%num.

End Geometry.

End MediaPipe.

Import MediaPipe.

(* ================================================================== *)
(** ** lib/metrics: FacialMetricsCalculator                            *)
(* ================================================================== *)

Module Metrics.

Record SingleEyeMetrics : Type := {
  eye_width : num;
  eye_height : num;
  aspectRatio : num;
  tilt : num;
  eye_landmarks : list NormalizedLandmark
}.

Record EyeMetrics : Type := {
  leftEye : SingleEyeMetrics;
  rightEye : SingleEyeMetrics;
  interPupillaryDistance : num;
  eyeSymmetry : num
}.

Record NoseMetrics : Type := {
  nose_width : num;
  nose_length : num;
  tipProjection : num;
  bridgeWidth : num;
  nostrilSymmetry : num;
  nose_landmarks : list NormalizedLandmark
}.

Record JawMetrics : Type := {
  jaw_width : num;
  jaw_angle : num;
  chinProjection : num;
  lowerFaceRatio : num;
  jaw_asymmetry : num;
  jaw_landmarks : list NormalizedLandmark
}.

Record FacialFeatures : Type := {
  eyes : EyeMetrics;
  nose : NoseMetrics;
  jaw : JawMetrics
}.

Record QualityScores : Type := {
  score_eyes : num;
  score_nose : num;
  score_jaw : num;
  overall : num
}.

Definition Range : Type := (Q * Q)%type.

Record EyeRanges := { r_aspectRatio : Range; r_eye_symmetry : Range; r_tilt : Range }.
Record NoseRanges := { r_widthRatio : Range; r_projection : Range; r_nose_symmetry : Range }.
Record JawRanges := { r_angle : Range; r_chinRatio : Range; r_asymmetry : Range }.
Record BaselineRanges : Type := {
  b_eyes : EyeRanges;
  b_nose : NoseRanges;
  b_jaw : JawRanges
}.

Record EyeWeights := { w_aspectRatio : Q; w_eye_symmetry : Q; w_tilt : Q }.
Record NoseWeights := { w_width : Q; w_nose_projection : Q; w_nose_symmetry : Q }.
Record JawWeights := { w_angle : Q; w_jaw_projection : Q; w_asymmetry : Q }.
Record WeightingFactors : Type := {
  f_eyes : EyeWeights;
  f_nose : NoseWeights;
  f_jaw : JawWeights
}.

Definition GOLDEN_RATIO : Q := 1.618.

Definition DEFAULT_BASELINE_RANGES : BaselineRanges := {|
  b_eyes := {| r_aspectRatio := (2.8, 3.2);
               r_eye_symmetry := (0.9, 1.1);
               r_tilt := (-5, 5) |};
  b_nose := {| r_widthRatio := (0.75, 0.85);
               r_projection := (0.67, 0.75);
               r_nose_symmetry := (0.9, 1.1) |};
  b_jaw := {| r_angle := (120, 130);
              r_chinRatio := (0.85, 0.95);
              r_asymmetry := (0.95, 1.05) |}
|}.

Definition DEFAULT_WEIGHTING_FACTORS : WeightingFactors := {|
  f_eyes := {| w_aspectRatio := 0.4; w_eye_symmetry := 0.35; w_tilt := 0.25 |};
  f_nose := {| w_width := 0.4; w_nose_projection := 0.35; w_nose_symmetry := 0.25 |};
  f_jaw := {| w_angle := 0.45; w_jaw_projection := 0.3; w_asymmetry := 0.25 |}
|}.

(** The object: its two read-only configuration fields. *)
Record FacialMetricsCalculator : Type := {
  baselineRanges : BaselineRanges;
  weightingFactors : WeightingFactors
}.

(** [new FacialMetricsCalculator()] *)
Definition default_calculator : FacialMetricsCalculator :=
  {| baselineRanges := DEFAULT_BASELINE_RANGES;
     weightingFactors := DEFAULT_WEIGHTING_FACTORS |}.

(** [if (a === undefined || b === undefined) throw new Error(msg)] *)
Definition defined2 {A : Type} (a b : option A) (msg : string) : result (A * A) :=
  match a, b with
  | Some u, Some v => Ok (u, v)
  | _, _ => Throw (Error msg)
  end.

Section Features.
Context {M : MathLib}.

Definition calculateSingleEyeMetrics (eyeLandmarks : list NormalizedLandmark)
    : result SingleEyeMetrics :=
  corners <- defined2 (nth_error eyeLandmarks 0) (nth_error eyeLandmarks 8)
               "Missing eye corner landmarks" ;;
  let '(leftCorner, rightCorner) := corners in
  let width := calculateDistance (xy leftCorner) (xy rightCorner) in
  vertical <- defined2 (nth_error eyeLandmarks 4) (nth_error eyeLandmarks 12)
                "Missing eye vertical landmarks" ;;
  let '(topPoint, bottomPoint) := vertical in
  let height := calculateDistance (xy topPoint) (xy bottomPoint) in
  let aspectRatio := (width / height)%num in
  let tilt := (atan2 (Fin rightCorner.(y) - Fin leftCorner.(y))
                     (Fin rightCorner.(x) - Fin leftCorner.(x))
               * (Fin 180 / Fin piQ))%num in
  Ok {| eye_width := width;
        eye_height := height;
        aspectRatio := aspectRatio;
        tilt := tilt;
        eye_landmarks := eyeLandmarks |}.

Definition calculateCentroid (landmarks : list NormalizedLandmark) : Point :=
  let sum :=
    fold_left
      (fun acc landmark =>
         let '(ax, ay, az) := acc in
         ((ax + Fin landmark.(x))%num,
          (ay + Fin landmark.(y))%num,
          (az + or_zero landmark.(z))%num))
      landmarks (Fin 0, Fin 0, Fin 0) in
  let '(sx, sy, sz) := sum in
  let n := of_nat (List.length landmarks) in
  {| px := (sx / n)%num; py := (sy / n)%num; pz := Some (sz / n)%num |}.

Definition calculateEyeMetrics (landmarks : list NormalizedLandmark)
    : result EyeMetrics :=
  leftEyeLandmarks <- extractLandmarksByIndices landmarks LANDMARK_INDICES.LEFT_EYE ;;
  rightEyeLandmarks <- extractLandmarksByIndices landmarks LANDMARK_INDICES.RIGHT_EYE ;;
  leftEye <- calculateSingleEyeMetrics leftEyeLandmarks ;;
  rightEye <- calculateSingleEyeMetrics rightEyeLandmarks ;;
  let leftCenter := calculateCentroid leftEyeLandmarks in
  let rightCenter := calculateCentroid rightEyeLandmarks in
  let interPupillaryDistance := calculateDistance leftCenter rightCenter in
  let eyeSymmetry := (leftEye.(eye_width) / rightEye.(eye_width))%num in
  Ok {| leftEye := leftEye;
        rightEye := rightEye;
        interPupillaryDistance := interPupillaryDistance;
        eyeSymmetry := eyeSymmetry |}.

Definition calculateNostrilWidth (nostrilLandmarks : list NormalizedLandmark)
    : result num :=
  pts <- defined2 (nth_error nostrilLandmarks 0) (nth_error nostrilLandmarks 8)
           "Missing nostril width landmarks" ;;
  let '(outerPoint, innerPoint) := pts in
  Ok (calculateDistance (xy outerPoint) (xy innerPoint)).

Definition calculateNoseMetrics (landmarks : list NormalizedLandmark)
    : result NoseMetrics :=
  noseTipLandmarks <- extractLandmarksByIndices landmarks LANDMARK_INDICES.NOSE_TIP ;;
  noseBridgeLandmarks <- extractLandmarksByIndices landmarks LANDMARK_INDICES.NOSE_BRIDGE ;;
  leftNostrilLandmarks <- extractLandmarksByIndices landmarks LANDMARK_INDICES.NOSTRIL_LEFT ;;
  rightNostrilLandmarks <- extractLandmarksByIndices landmarks LANDMARK_INDICES.NOSTRIL_RIGHT ;;
  nostrils <- defined2 (nth_error leftNostrilLandmarks 0) (nth_error rightNostrilLandmarks 0)
                "Missing nostril landmarks" ;;
  let '(leftNostril, rightNostril) := nostrils in
  let width := calculateDistance (xy leftNostril) (xy rightNostril) in
  ends <- defined2 (nth_error noseBridgeLandmarks 0) (nth_error noseTipLandmarks 0)
            "Missing nose bridge or tip landmarks" ;;
  let '(bridgeTop, noseTip) := ends in
  let length := calculateDistance (xy bridgeTop) (xy noseTip) in
  let tipProjection := or_zero noseTip.(z) in
  bridge <- defined2 (nth_error noseBridgeLandmarks 4) (nth_error noseBridgeLandmarks 12)
              "Missing nose bridge width landmarks" ;;
  let '(bridgeLeft, bridgeRight) := bridge in
  let bridgeWidth := calculateDistance (xy bridgeLeft) (xy bridgeRight) in
  leftNostrilWidth <- calculateNostrilWidth leftNostrilLandmarks ;;
  rightNostrilWidth <- calculateNostrilWidth rightNostrilLandmarks ;;
  let nostrilSymmetry := (leftNostrilWidth / rightNostrilWidth)%num in
  let allNoseLandmarks :=
    noseTipLandmarks ++ noseBridgeLandmarks ++ leftNostrilLandmarks
      ++ rightNostrilLandmarks in
  Ok {| nose_width := width;
        nose_length := length;
        tipProjection := tipProjection;
        bridgeWidth := bridgeWidth;
        nostrilSymmetry := nostrilSymmetry;
        nose_landmarks := allNoseLandmarks |}.

Definition calculateChinWidth (chinLandmarks : list NormalizedLandmark) : result num :=
  pts <- defined2 (nth_error chinLandmarks 4) (nth_error chinLandmarks 12)
           "Missing chin width landmarks" ;;
  let '(leftChin, rightChin) := pts in
  Ok (calculateDistance (xy leftChin) (xy rightChin)).

(** The perimeter loop [for (i = 0; i < length - 1; i++)]. *)
Definition calculateJawSideSize (jawSideLandmarks : list NormalizedLandmark) : num :=
  fold_left
    (fun perimeter i =>
       match nth_error jawSideLandmarks i, nth_error jawSideLandmarks (i + 1) with
       | Some current, Some next =>
           (perimeter + calculateDistance (xy current) (xy next))%num
       | _, _ => perimeter
       end)
    (seq 0 (List.length jawSideLandmarks - 1)) (Fin 0).

Definition calculateJawMetrics (landmarks : list NormalizedLandmark)
    : result JawMetrics :=
  leftJawLandmarks <- extractLandmarksByIndices landmarks LANDMARK_INDICES.JAW_LEFT ;;
  rightJawLandmarks <- extractLandmarksByIndices landmarks LANDMARK_INDICES.JAW_RIGHT ;;
  chinLandmarks <- extractLandmarksByIndices landmarks LANDMARK_INDICES.CHIN ;;
  jawPoints <- defined2 (nth_error leftJawLandmarks 0) (nth_error rightJawLandmarks 0)
                 "Missing jaw landmarks" ;;
  let '(leftJawPoint, rightJawPoint) := jawPoints in
  let width := calculateDistance (xy leftJawPoint) (xy rightJawPoint) in
  chinPoint <- defined (nth_error chinLandmarks 0) "Missing chin landmark" ;;
  let angle := calculateAngle (xy leftJawPoint) (xy chinPoint) (xy rightJawPoint) in
  let chinProjection := or_zero chinPoint.(z) in
  chinWidth <- calculateChinWidth chinLandmarks ;;
  let lowerFaceRatio := (chinWidth / width)%num in
  let leftJawSize := calculateJawSideSize leftJawLandmarks in
  let rightJawSize := calculateJawSideSize rightJawLandmarks in
  let asymmetry := (leftJawSize / rightJawSize)%num in
  let allJawLandmarks := leftJawLandmarks ++ rightJawLandmarks ++ chinLandmarks in
  Ok {| jaw_width := width;
        jaw_angle := angle;
        chinProjection := chinProjection;
        lowerFaceRatio := lowerFaceRatio;
        jaw_asymmetry := asymmetry;
        jaw_landmarks := allJawLandmarks |}.

Definition calculateFacialFeatures (landmarks : list NormalizedLandmark)
    : result FacialFeatures :=
  if (List.length landmarks <? 468)%nat then
    Throw (MetricsCalculationError
             ("Insufficient landmarks: expected 468, got " ++ show_nat (List.length landmarks))
             INSUFFICIENT_LANDMARKS feature_general None)
  else
    rethrow
      (eyes <- calculateEyeMetrics landmarks ;;
       nose <- calculateNoseMetrics landmarks ;;
       jaw <- calculateJawMetrics landmarks ;;
       Ok {| eyes := eyes; nose := nose; jaw := jaw |})
      (fun error =>
         MetricsCalculationError
           ("Failed to calculate facial features: " ++ String_of error)
           CALCULATION_ERROR feature_general (Some error)).

End Features.

Definition calculateDeviation (value : num) (idealRange : Range) : num :=
  let '(min, max) := idealRange in
  if (value >=? Fin min)%num && (value <=? Fin max)%num then Fin 0
  else
    let center := ((Fin min + Fin max) / Fin 2)%num in
    let rangeSize := (Fin max - Fin min)%num in
    let deviation := (abs (value - center) / rangeSize)%num in
    JsNum.min deviation (Fin 1).

Definition deviationToScore (weightedDeviation : num) : num :=
  let score := (Fin 100 * (Fin 1 - weightedDeviation))%num in
  JsNum.max (Fin 0) (JsNum.min (Fin 100) score).

Section Scores.
Variable this : FacialMetricsCalculator.

Definition calculateEyeScore (eyeMetrics : EyeMetrics) : num :=
  let aspectRatioDeviation :=
    calculateDeviation
      ((eyeMetrics.(leftEye).(aspectRatio) + eyeMetrics.(rightEye).(aspectRatio)) / Fin 2)%num
      this.(baselineRanges).(b_eyes).(r_aspectRatio) in
  let symmetryDeviation :=
    calculateDeviation eyeMetrics.(eyeSymmetry)
      this.(baselineRanges).(b_eyes).(r_eye_symmetry) in
  let tiltDeviation :=
    calculateDeviation
      ((abs eyeMetrics.(leftEye).(tilt) + abs eyeMetrics.(rightEye).(tilt)) / Fin 2)%num
      this.(baselineRanges).(b_eyes).(r_tilt) in
  let weightedDeviation :=
    (Fin this.(weightingFactors).(f_eyes).(w_aspectRatio) * aspectRatioDeviation
     + Fin this.(weightingFactors).(f_eyes).(w_eye_symmetry) * symmetryDeviation
     + Fin this.(weightingFactors).(f_eyes).(w_tilt) * tiltDeviation)%num in
  deviationToScore weightedDeviation.

Definition calculateNoseScore (noseMetrics : NoseMetrics) : num :=
  let normalizedWidth := (noseMetrics.(nose_width) / noseMetrics.(bridgeWidth))%num in
  let widthDeviation :=
    calculateDeviation normalizedWidth this.(baselineRanges).(b_nose).(r_widthRatio) in
  let projectionDeviation :=
    calculateDeviation (abs noseMetrics.(tipProjection))
      this.(baselineRanges).(b_nose).(r_projection) in
  let symmetryDeviation :=
    calculateDeviation noseMetrics.(nostrilSymmetry)
      this.(baselineRanges).(b_nose).(r_nose_symmetry) in
  let weightedDeviation :=
    (Fin this.(weightingFactors).(f_nose).(w_width) * widthDeviation
     + Fin this.(weightingFactors).(f_nose).(w_nose_projection) * projectionDeviation
     + Fin this.(weightingFactors).(f_nose).(w_nose_symmetry) * symmetryDeviation)%num in
  deviationToScore weightedDeviation.

Definition calculateJawScore (jawMetrics : JawMetrics) : num :=
  let angleDeviation :=
    calculateDeviation jawMetrics.(jaw_angle) this.(baselineRanges).(b_jaw).(r_angle) in
  let projectionDeviation :=
    calculateDeviation jawMetrics.(lowerFaceRatio)
      this.(baselineRanges).(b_jaw).(r_chinRatio) in
  let asymmetryDeviation :=
    calculateDeviation jawMetrics.(jaw_asymmetry)
      this.(baselineRanges).(b_jaw).(r_asymmetry) in
  let weightedDeviation :=
    (Fin this.(weightingFactors).(f_jaw).(w_angle) * angleDeviation
     + Fin this.(weightingFactors).(f_jaw).(w_jaw_projection) * projectionDeviation
     + Fin this.(weightingFactors).(f_jaw).(w_asymmetry) * asymmetryDeviation)%num in
  deviationToScore weightedDeviation.

Definition calculateQualityScores (features : FacialFeatures) : QualityScores :=
  let eyeScore := calculateEyeScore features.(eyes) in
  let noseScore := calculateNoseScore features.(nose) in
  let jawScore := calculateJawScore features.(jaw) in
  let overall := ((eyeScore + noseScore + jawScore) / Fin 3)%num in
  {| score_eyes := round eyeScore;
     score_nose := round noseScore;
     score_jaw := round jawScore;
     overall := round overall |}.

End Scores.

End Metrics.

Import Metrics.

(* ================================================================== *)
(** ** lib/quality.ts: QualityValidator                                *)
(* ================================================================== *)

Module Quality.

Inductive QualityIssueType :=
| face_angle | brightness | contrast | blur | face_size | face_position
| multiple_faces | no_face_detected | partial_face | poor_lighting
| shadow | reflection.

Inductive Severity := low | medium | high.

Record QualityIssue : Type := {
  type : QualityIssueType;
  severity : Severity;
  message : string;
  value : option num;
  threshold : option num
}.

Record QualityCheckResult : Type := {
  isValid : bool;
  issues : list QualityIssue;
  confidence : Z;   (* a number that only ever takes integer values *)
  recommendations : list string
}.

Record QualityThresholds : Type := {
  maxYaw : Q;
  maxPitch : Q;
  maxRoll : Q;
  brightness_min : Q;
  brightness_max : Q;
  contrast_min : Q;
  blur_max : Q;
  minWidth : Q;
  minHeight : Q;
  maxWidth : Q;
  maxHeight : Q;
  centerTolerance : Q
}.

Record ImageQualityMetrics : Type := {
  m_brightness : num;
  m_contrast : num;
  m_blur : num;
  m_saturation : num;
  m_noise : num
}.

Record Angles := { yaw : num; pitch : num; roll : num }.
Record Size := { size_width : num; size_height : num; area : num }.
Record Position := { centerX : num; centerY : num; offsetFromCenter : num }.

Record FaceQualityMetrics : Type := {
  angle : Angles;
  size : Size;
  position : Position;
  completeness : num;
  symmetry : num
}.

Definition DEFAULT_QUALITY_THRESHOLDS : QualityThresholds := {|
  maxYaw := 15;
  maxPitch := 15;
  maxRoll := 10;
  brightness_min := 80;
  brightness_max := 200;
  contrast_min := 30;
  blur_max := 0.1;
  minWidth := 0.3;
  minHeight := 0.4;
  maxWidth := 0.8;
  maxHeight := 0.9;
  centerTolerance := 0.15
|}.

(** The object: its read-only configuration field. *)
Record QualityValidator : Type := { thresholds : QualityThresholds }.

(** [new QualityValidator()] *)
Definition default_validator : QualityValidator :=
  {| thresholds := DEFAULT_QUALITY_THRESHOLDS |}.

(** An image or canvas element as the validator sees it: its (natural)
    width and height, and the outcome of drawing it on a fresh canvas and
    reading the RGBA bytes back with [getImageData], which the browser may
    refuse by throwing. *)
Record ImageElement : Type := {
  el_width : nat;
  el_height : nat;
  el_imageData : result (list Z)
}.

(** The document: whether [canvas.getContext('2d')] yields a context. *)
Record Document : Type := { context2d : bool }.

(** [pixels[i] ?? 0] on a [Uint8ClampedArray] *)
Definition byte_at (pixels : list Z) (i : nat) : num :=
  match nth_error pixels i with
  | Some v => of_Z v
  | None => Fin 0
  end.

(** The values [lo, lo + 4, lo + 8, ...] below [hi]:
    [for (i = lo; i < hi; i += 4)]. *)
Definition by4 (lo hi : nat) : list nat :=
  map (fun k => (lo + 4 * k)%nat) (seq 0 ((hi - lo + 3) / 4)).

(** [0.299 * r + 0.587 * g + 0.114 * b] at pixel offset [i] *)
Definition luminance_at (pixels : list Z) (i : nat) : num :=
  let r := byte_at pixels i in
  let g := byte_at pixels (i + 1) in
  let b := byte_at pixels (i + 2) in
  (Fin 0.299 * r + Fin 0.587 * g + Fin 0.114 * b)%num.

Definition sum (l : list num) : num := fold_left add l (Fin 0).

Definition estimateBlur (pixels : list Z) (width height : nat) : num :=
  let '(edgeSum, edgeCount) :=
    fold_left
      (fun acc yx =>
         let '(edgeSum, edgeCount) := acc in
         let '(y, x) := yx in
         let index := ((y * width + x) * 4)%nat in
         let current := byte_at pixels index in
         let right := byte_at pixels (index + 4) in
         let down := byte_at pixels ((y + 1) * width * 4 + x * 4) in
         let edgeStrength := (abs (current - right) + abs (current - down))%num in
         ((edgeSum + edgeStrength)%num, (edgeCount + Fin 1)%num))
      (list_prod (seq 1 (height - 2)) (seq 1 (width - 2)))
      (Fin 0, Fin 0) in
  let averageEdge := (edgeSum / edgeCount)%num in
  JsNum.max (Fin 0) (JsNum.min (Fin 1) (Fin 1 - averageEdge / Fin 255)%num).

Definition calculateSaturation (pixels : list Z) : num :=
  let pixelCount := (of_nat (List.length pixels) / Fin 4)%num in
  let totalSaturation :=
    fold_left
      (fun totalSaturation i =>
         let r := byte_at pixels i in
         let g := byte_at pixels (i + 1) in
         let b := byte_at pixels (i + 2) in
         let max := JsNum.max (JsNum.max r g) b in
         let min := JsNum.min (JsNum.min r g) b in
         let saturation := if eqb max (Fin 0) then Fin 0 else ((max - min) / max)%num in
         (totalSaturation + saturation)%num)
      (by4 0 (List.length pixels)) (Fin 0) in
  (totalSaturation / pixelCount * Fin 255)%num.

Definition estimateNoise (pixels : list Z) (width height : nat) : num :=
  let '(totalVariance, sampleCount) :=
    fold_left
      (fun acc yx =>
         let '(totalVariance, sampleCount) := acc in
         let '(y, x) := yx in
         let neighbors :=
           map (fun d =>
                  let '(dy, dx) := d in
                  (* dy, dx stand for the offsets -1, 0, 1 shifted by one *)
                  luminance_at pixels (((y - 1 + dy) * width + (x - 1 + dx)) * 4))
               (list_prod [0; 1; 2]%nat [0; 1; 2]%nat) in
         let n := of_nat (List.length neighbors) in
         let mean := (sum neighbors / n)%num in
         let variance :=
           (fold_left (fun s val => (s + pow2 (val - mean))%num) neighbors (Fin 0) / n)%num in
         ((totalVariance + variance)%num, (sampleCount + Fin 1)%num))
      (list_prod (by4 1 (height - 1)) (by4 1 (width - 1)))
      (Fin 0, Fin 0) in
  (totalVariance / sampleCount)%num.

Section ImageAnalysis.
Context {M : MathLib}.

(** The computation of [analyzeImageQuality] on the bytes read back from
    the canvas, of size [width] x [height]. *)
Definition imageMetrics (pixels : list Z) (width height : nat) : ImageQualityMetrics :=
  let pixelCount := (of_nat (List.length pixels) / Fin 4)%num in
  let totalBrightness :=
    fold_left (fun total i => (total + luminance_at pixels i)%num)
      (by4 0 (List.length pixels)) (Fin 0) in
  let brightness := (totalBrightness / pixelCount)%num in
  let varianceSum :=
    fold_left (fun s i => (s + pow2 (luminance_at pixels i - brightness))%num)
      (by4 0 (List.length pixels)) (Fin 0) in
  let contrast := sqrt (varianceSum / pixelCount)%num in
  let blur := estimateBlur pixels width height in
  let saturation := calculateSaturation pixels in
  let noise := estimateNoise pixels width height in
  {| m_brightness := brightness;
     m_contrast := contrast;
     m_blur := blur;
     m_saturation := saturation;
     m_noise := noise |}.

Definition analyzeImageQuality (document : Document) (imageElement : ImageElement)
    : result ImageQualityMetrics :=
  if negb document.(context2d) then
    Throw (Error "Could not get canvas context for image analysis")
  else
    pixels <- imageElement.(el_imageData) ;;
    Ok (imageMetrics pixels imageElement.(el_width) imageElement.(el_height)).

End ImageAnalysis.

Section FaceAnalysis.
Context {M : MathLib}.

Definition calculateFaceAngles (faceOutline : list NormalizedLandmark) : Angles :=
  match nth_error faceOutline 0, nth_error faceOutline 16,
        nth_error faceOutline 8, nth_error faceOutline 24 with
  | Some leftPoint, Some rightPoint, Some topPoint, Some bottomPoint =>
      let roll := (atan2 (Fin rightPoint.(y) - Fin leftPoint.(y))
                         (Fin rightPoint.(x) - Fin leftPoint.(x))
                   * (Fin 180 / Fin piQ))%num in
      let centerX := ((Fin leftPoint.(x) + Fin rightPoint.(x)) / Fin 2)%num in
      let yaw := ((centerX - Fin 0.5) * Fin 60)%num in
      let centerY := ((Fin topPoint.(y) + Fin bottomPoint.(y)) / Fin 2)%num in
      let pitch := ((centerY - Fin 0.5) * Fin 40)%num in
      {| yaw := yaw; pitch := pitch; roll := roll |}
  | _, _, _, _ => {| yaw := Fin 0; pitch := Fin 0; roll := Fin 0 |}
  end.

Record BoundingBox := { left : num; top : num; box_width : num; box_height : num }.

Definition calculateFaceBoundingBox (landmarks : list NormalizedLandmark) : BoundingBox :=
  let '(minX, maxX, minY, maxY) :=
    fold_left
      (fun acc landmark =>
         let '(minX, maxX, minY, maxY) := acc in
         (JsNum.min minX (Fin landmark.(x)), JsNum.max maxX (Fin landmark.(x)),
          JsNum.min minY (Fin landmark.(y)), JsNum.max maxY (Fin landmark.(y))))
      landmarks (PInf, NInf, PInf, NInf) in
  {| left := minX; top := minY;
     box_width := (maxX - minX)%num; box_height := (maxY - minY)%num |}.

Definition keyLandmarkIndices : list nat :=
  firstn 4 LANDMARK_INDICES.LEFT_EYE ++ firstn 4 LANDMARK_INDICES.RIGHT_EYE
  ++ firstn 4 LANDMARK_INDICES.NOSE_TIP ++ firstn 4 LANDMARK_INDICES.CHIN.

(** The test a key landmark must pass to count as visible. *)
Definition landmarkVisible (landmark : NormalizedLandmark) : bool :=
  (Fin landmark.(x) >=? Fin 0)%num && (Fin landmark.(x) <=? Fin 1)%num
  && (Fin landmark.(y) >=? Fin 0)%num && (Fin landmark.(y) <=? Fin 1)%num
  && match landmark.(visibility) with
     | None => true
     | Some v => (Fin v >? Fin 0.5)%num
     end.

Definition calculateFaceCompleteness (landmarks : list NormalizedLandmark) : num :=
  let visibleCount :=
    fold_left
      (fun visibleCount index =>
         match nth_error landmarks index with
         | Some landmark =>
             if landmarkVisible landmark then (visibleCount + Fin 1)%num
             else visibleCount
         | None => visibleCount
         end)
      keyLandmarkIndices (Fin 0) in
  (visibleCount / of_nat (List.length keyLandmarkIndices))%num.

(** The validator's own centroid: x and y only. *)
Definition calculateCentroid (landmarks : list NormalizedLandmark) : Point :=
  let '(sx, sy) :=
    fold_left
      (fun acc landmark =>
         let '(ax, ay) := acc in
         ((ax + Fin landmark.(x))%num, (ay + Fin landmark.(y))%num))
      landmarks (Fin 0, Fin 0) in
  let n := of_nat (List.length landmarks) in
  {| px := (sx / n)%num; py := (sy / n)%num; pz := None |}.

Definition calculateFaceSymmetry (landmarks : list NormalizedLandmark) : result num :=
  leftEye <- extractLandmarksByIndices landmarks LANDMARK_INDICES.LEFT_EYE ;;
  rightEye <- extractLandmarksByIndices landmarks LANDMARK_INDICES.RIGHT_EYE ;;
  let leftCentroid := calculateCentroid leftEye in
  let rightCentroid := calculateCentroid rightEye in
  let faceCenterX := Fin 0.5 in
  let faceCenterY := Fin 0.5 in
  let leftDistance :=
    sqrt (pow2 (leftCentroid.(px) - faceCenterX)
          + pow2 (leftCentroid.(py) - faceCenterY))%num in
  let rightDistance :=
    sqrt (pow2 (rightCentroid.(px) - faceCenterX)
          + pow2 (rightCentroid.(py) - faceCenterY))%num in
  Ok (JsNum.min leftDistance rightDistance / JsNum.max leftDistance rightDistance)%num.

Definition analyzeFaceQuality (landmarks : list NormalizedLandmark)
    (imageElement : ImageElement) : result FaceQualityMetrics :=
  let imageWidth := of_nat imageElement.(el_width) in
  let imageHeight := of_nat imageElement.(el_height) in
  faceOutline <- extractLandmarksByIndices landmarks LANDMARK_INDICES.FACE_OUTLINE ;;
  let angles := calculateFaceAngles faceOutline in
  let boundingBox := calculateFaceBoundingBox landmarks in
  let _faceWidth := (boundingBox.(box_width) * imageWidth)%num in
  let _faceHeight := (boundingBox.(box_height) * imageHeight)%num in
  let faceArea := (_faceWidth * _faceHeight)%num in
  let centerX := ((boundingBox.(left) + boundingBox.(box_width) / Fin 2) * imageWidth)%num in
  let centerY := ((boundingBox.(top) + boundingBox.(box_height) / Fin 2) * imageHeight)%num in
  let imageCenterX := (imageWidth / Fin 2)%num in
  let imageCenterY := (imageHeight / Fin 2)%num in
  let offsetFromCenter :=
    (sqrt (pow2 (centerX - imageCenterX) + pow2 (centerY - imageCenterY))
     / sqrt (pow2 (imageWidth / Fin 2) + pow2 (imageHeight / Fin 2)))%num in
  let completeness := calculateFaceCompleteness landmarks in
  symmetry <- calculateFaceSymmetry landmarks ;;
  Ok {| angle := angles;
        size := {| size_width := (_faceWidth / imageWidth)%num;
                   size_height := (_faceHeight / imageHeight)%num;
                   area := (faceArea / (imageWidth * imageHeight))%num |};
        position := {| centerX := (centerX / imageWidth)%num;
                       centerY := (centerY / imageHeight)%num;
                       offsetFromCenter := offsetFromCenter |};
        completeness := completeness;
        symmetry := symmetry |}.

End FaceAnalysis.

Definition estimateFaceCount (landmarks : list NormalizedLandmark) : nat :=
  if (0 <? List.length landmarks)%nat then 1%nat else 0%nat.

(** [issues.push({...})] with both optional fields set *)
Definition issue (t : QualityIssueType) (s : Severity) (msg : string)
    (v : num) (th : Q) : QualityIssue :=
  {| type := t; severity := s; message := msg;
     value := Some v; threshold := Some (Fin th) |}.

Section Validation.
Variable this : QualityValidator.

Definition validateImageQuality (imageQuality : ImageQualityMetrics) : list QualityIssue :=
  let th := this.(thresholds) in
  (if (imageQuality.(m_brightness) <? Fin th.(brightness_min))%num then
     [issue brightness medium "Image is too dark. Please ensure adequate lighting."
        imageQuality.(m_brightness) th.(brightness_min)]
   else if (imageQuality.(m_brightness) >? Fin th.(brightness_max))%num then
     [issue brightness medium
        "Image is too bright. Please reduce lighting or avoid direct light."
        imageQuality.(m_brightness) th.(brightness_max)]
   else [])
  ++ (if (imageQuality.(m_contrast) <? Fin th.(contrast_min))%num then
        [issue contrast low "Image has low contrast. Please ensure even lighting."
           imageQuality.(m_contrast) th.(contrast_min)]
      else [])
  ++ (if (imageQuality.(m_blur) >? Fin th.(blur_max))%num then
        [issue blur high
           "Image is blurry. Please hold the camera steady and ensure focus."
           imageQuality.(m_blur) th.(blur_max)]
      else []).

Definition validateFaceQuality (faceQuality : FaceQualityMetrics) : list QualityIssue :=
  let th := this.(thresholds) in
  (if (abs faceQuality.(angle).(yaw) >? Fin th.(maxYaw))%num then
     [issue face_angle medium
        "Please face the camera more directly (reduce left/right turn)."
        (abs faceQuality.(angle).(yaw)) th.(maxYaw)]
   else [])
  ++ (if (abs faceQuality.(angle).(pitch) >? Fin th.(maxPitch))%num then
        [issue face_angle medium "Please look straight ahead (reduce up/down tilt)."
           (abs faceQuality.(angle).(pitch)) th.(maxPitch)]
      else [])
  ++ (if (abs faceQuality.(angle).(roll) >? Fin th.(maxRoll))%num then
        [issue face_angle low "Please straighten your head (reduce tilt)."
           (abs faceQuality.(angle).(roll)) th.(maxRoll)]
      else [])
  ++ (if (faceQuality.(size).(size_width) <? Fin th.(minWidth))%num then
        [issue face_size medium "Please move closer to the camera for better analysis."
           faceQuality.(size).(size_width) th.(minWidth)]
      else if (faceQuality.(size).(size_width) >? Fin th.(maxWidth))%num then
        [issue face_size medium "Please move further from the camera."
           faceQuality.(size).(size_width) th.(maxWidth)]
      else [])
  ++ (if (faceQuality.(position).(offsetFromCenter) >? Fin th.(centerTolerance))%num then
        [issue face_position low "Please center your face in the frame."
           faceQuality.(position).(offsetFromCenter) th.(centerTolerance)]
      else [])
  ++ (if (faceQuality.(completeness) <? Fin 0.8)%num then
        [issue partial_face high
           "Part of your face is cut off. Please ensure your entire face is visible."
           faceQuality.(completeness) 0.8]
      else []).

End Validation.

Scheme Equality for QualityIssueType.

Section Result.
Variable this : QualityValidator.

Definition calculateConfidence (issues : list QualityIssue)
    (imageQuality : ImageQualityMetrics) (faceQuality : FaceQualityMetrics) : Z :=
  let confidence := 100%Z in
  let confidence :=
    fold_left
      (fun confidence issue =>
         match issue.(severity) with
         | high => confidence - 30
         | medium => confidence - 15
         | low => confidence - 5
         end%Z)
      issues confidence in
  let confidence :=
    if (imageQuality.(m_contrast) >? Fin this.(thresholds).(contrast_min) * Fin 1.5)%num
    then (confidence + 5)%Z else confidence in
  let confidence :=
    if (imageQuality.(m_blur) <? Fin this.(thresholds).(blur_max) * Fin 0.5)%num
    then (confidence + 5)%Z else confidence in
  let confidence :=
    if (faceQuality.(completeness) >? Fin 0.95)%num
    then (confidence + 10)%Z else confidence in
  let confidence :=
    if (faceQuality.(symmetry) >? Fin 0.9)%num
    then (confidence + 5)%Z else confidence in
  Z.max 0 (Z.min 100 confidence).

Definition REC_LIGHTING : string := "💡 良好な照明環境で撮影してください（自然光が理想的）".
Definition REC_ANGLE : string := "📐 カメラに対してまっすぐ顔を向けてください".
Definition REC_SIZE : string := "📏 顔全体がフレームに収まる距離を調整してください".
Definition REC_BLUR : string := "🎯 カメラをしっかり固定し、ピントを合わせてください".
Definition REC_OK : string := "✅ 画像品質は分析に適しています".

(** [new Set(issues.map(issue => issue.type)).has(t)] *)
Definition has_type (issues : list QualityIssue) (t : QualityIssueType) : bool :=
  existsb (fun issue => QualityIssueType_beq issue.(type) t) issues.

Definition createResult (isValid : bool) (issues : list QualityIssue) (confidence : Z)
    : QualityCheckResult :=
  let recommendations : list string := [] in
  let recommendations :=
    if has_type issues brightness || has_type issues poor_lighting
    then recommendations ++ [REC_LIGHTING] else recommendations in
  let recommendations :=
    if has_type issues face_angle
    then recommendations ++ [REC_ANGLE] else recommendations in
  let recommendations :=
    if has_type issues face_size
    then recommendations ++ [REC_SIZE] else recommendations in
  let recommendations :=
    if has_type issues blur
    then recommendations ++ [REC_BLUR] else recommendations in
  let recommendations :=
    if (List.length recommendations =? 0)%nat && isValid
    then recommendations ++ [REC_OK] else recommendations in
  {| isValid := isValid;
     issues := issues;
     confidence := confidence;
     recommendations := recommendations |}.

Definition NO_FACE_ISSUE : QualityIssue :=
  {| type := no_face_detected;
     severity := high;
     message := "No face detected in the image. Please ensure your face is clearly visible.";
     value := None;
     threshold := None |}.

Definition is_high (issue : QualityIssue) : bool :=
  match issue.(severity) with high => true | _ => false end.

Context {M : MathLib}.

Definition validateImage (document : Document) (imageElement : ImageElement)
    (landmarks : list NormalizedLandmark) : result QualityCheckResult :=
  let issues : list QualityIssue := [] in
  rethrow
    (if (List.length landmarks =? 0)%nat then
       let issues := issues ++ [NO_FACE_ISSUE] in
       Ok (createResult false issues 0)
     else
       let faceCount := estimateFaceCount landmarks in
       let issues :=
         if (1 <? faceCount)%nat then
           issues ++ [{| type := multiple_faces;
                         severity := medium;
                         message := "Multiple faces detected. Please ensure only one face is visible.";
                         value := Some (of_nat faceCount);
                         threshold := None |}]
         else issues in
       imageQuality <- analyzeImageQuality document imageElement ;;
       let issues := issues ++ validateImageQuality this imageQuality in
       faceQuality <- analyzeFaceQuality landmarks imageElement ;;
       let issues := issues ++ validateFaceQuality this faceQuality in
       let confidence := calculateConfidence issues imageQuality faceQuality in
       let isValid := (List.length (filter is_high issues) =? 0)%nat in
       Ok (createResult isValid issues confidence))
    (fun error =>
       QualityValidationError ("Quality validation failed: " ++ String_of error)
         ANALYSIS_FAILED error).

End Result.

End Quality.

Import Quality.

Unset Implicit Arguments.

(* ================================================================== *)
(** ** Vocabulary of the properties                                    *)
(* ================================================================== *)

(** The deviation formula of the specification, on rationals, for a
    baseline of positive width. *)
Definition deviation_formula (value mn mx : Q) : Q :=
  Qmin (Qabs (value - (mn + mx) / 2) / (mx - mn)) 1.

(** [100 * (1 - weightedDeviation)] clamped to [0, 100]. *)
Definition region_score (weightedDeviation : Q) : Q :=
  Qmax 0 (Qmin 100 (100 * (1 - weightedDeviation))).


(** The quantities each region is scored on: for the eyes the mean
    aspect ratio, the symmetry and the mean absolute tilt; for the nose
    the width over the bridge width, the absolute tip projection and the
    nostril symmetry; for the jaw the angle, the lower face ratio and the
    asymmetry. *)
Definition eyeQuantities (e : EyeMetrics) : num * num * num :=
  (((e.(leftEye).(aspectRatio) + e.(rightEye).(aspectRatio)) / Fin 2)%num,
   e.(eyeSymmetry),
   ((abs e.(leftEye).(tilt) + abs e.(rightEye).(tilt)) / Fin 2)%num).

Definition noseQuantities (n : NoseMetrics) : num * num * num :=
  ((n.(nose_width) / n.(bridgeWidth))%num, abs n.(tipProjection), n.(nostrilSymmetry)).

Definition jawQuantities (j : JawMetrics) : num * num * num :=
  (j.(jaw_angle), j.(lowerFaceRatio), j.(jaw_asymmetry)).

Definition eyeRanges (this : FacialMetricsCalculator) : Range * Range * Range :=
  let r := this.(baselineRanges).(b_eyes) in
  (r.(r_aspectRatio), r.(r_eye_symmetry), r.(r_tilt)).

Definition noseRanges (this : FacialMetricsCalculator) : Range * Range * Range :=
  let r := this.(baselineRanges).(b_nose) in
  (r.(r_widthRatio), r.(r_projection), r.(r_nose_symmetry)).

Definition jawRanges (this : FacialMetricsCalculator) : Range * Range * Range :=
  let r := this.(baselineRanges).(b_jaw) in
  (r.(r_angle), r.(r_chinRatio), r.(r_asymmetry)).

Definition eyeWeights (this : FacialMetricsCalculator) : Q * Q * Q :=
  let w := this.(weightingFactors).(f_eyes) in
  (w.(w_aspectRatio), w.(w_eye_symmetry), w.(w_tilt)).

Definition noseWeights (this : FacialMetricsCalculator) : Q * Q * Q :=
  let w := this.(weightingFactors).(f_nose) in
  (w.(w_width), w.(w_nose_projection), w.(w_nose_symmetry)).

Definition jawWeights (this : FacialMetricsCalculator) : Q * Q * Q :=
  let w := this.(weightingFactors).(f_jaw) in
  (w.(w_angle), w.(w_jaw_projection), w.(w_asymmetry)).

(** A region's weighted deviation: the sum over its three quantities of
    weight times deviation from the matching baseline. *)
Definition weighted_deviation (weights : Q * Q * Q) (quantities : num * num * num)
    (ranges : Range * Range * Range) : num :=
  let '(w1, w2, w3) := weights in
  let '(q1, q2, q3) := quantities in
  let '(r1, r2, r3) := ranges in
  (Fin w1 * calculateDeviation q1 r1 + Fin w2 * calculateDeviation q2 r2
   + Fin w3 * calculateDeviation q3 r3)%num.


Definition has_severity (s : Severity) (issue : QualityIssue) : bool :=
  match issue.(severity), s with
  | high, high | medium, medium | low, low => true
  | _, _ => false
  end.

(** The number of issues of a given severity. *)
Definition count_severity (s : Severity) (issues : list QualityIssue) : Z :=
  Z.of_nat (List.length (filter (has_severity s) issues)).

(** The bonus of the confidence score. *)
Definition confidence_bonus (this : QualityValidator)
    (imageQuality : ImageQualityMetrics) (faceQuality : FaceQualityMetrics) : Z :=
  ((if (imageQuality.(m_contrast) >? Fin this.(thresholds).(contrast_min) * Fin 1.5)%num
    then 5 else 0)
   + (if (imageQuality.(m_blur) <? Fin this.(thresholds).(blur_max) * Fin 0.5)%num
      then 5 else 0)
   + (if (faceQuality.(completeness) >? Fin 0.95)%num then 10 else 0)
   + (if (faceQuality.(symmetry) >? Fin 0.9)%num then 5 else 0))%Z.

(** 100, minus 30, 15 and 5 per high, medium and low issue, plus the
    bonus, clamped to [0, 100]. *)
Definition confidence_formula (this : QualityValidator) (issues : list QualityIssue)
    (imageQuality : ImageQualityMetrics) (faceQuality : FaceQualityMetrics) : Z :=
  Z.max 0
    (Z.min 100
       (100 - 30 * count_severity high issues - 15 * count_severity medium issues
        - 5 * count_severity low issues
        + confidence_bonus this imageQuality faceQuality)).

(** An issue type that has a guidance string. *)
Definition guided (t : QualityIssueType) : bool :=
  match t with
  | brightness | poor_lighting | face_angle | face_size | blur => true
  | _ => false
  end.

(** [1] when the condition holds, else [0]. *)
Definition once (b : bool) : nat := if b then 1%nat else 0%nat.

(** A key landmark is visible: in the unit square, with a visibility that
    is absent or above one half. *)
Definition visible (landmark : NormalizedLandmark) : Prop :=
  0 <= landmark.(x) <= 1 /\ 0 <= landmark.(y) <= 1
  /\ match landmark.(visibility) with
     | None => True
     | Some v => 0.5 < v
     end.

(* ================================================================== *)
(** ** A math library to run the model with                            *)
(* ================================================================== *)

(** A coarse rational stand-in for [Math.sqrt], [Math.atan2] and
    [Math.acos]: the square root is the integer square root at six
    decimals (exact on squares of such decimals), the arc tangent a
    quadratic approximation.  It serves to evaluate the program on
    examples; the properties below hold for every [MathLib]. *)
Module CoarseMath.

Definition scale : Z := 1000000.

Definition sqrtQ (q : Q) : Q :=
  Z.sqrt (Qnum q * Zpos (Qden q) * (scale * scale)) # (Qden q * Z.to_pos scale).

Definition piQ : Q := 884279719003555 # 281474976710656.

(** arctan on [0, 1] *)
Definition atan01 (t : Q) : Q := (piQ / 4) * t + 0.273 * t * (1 - t).

(** arctan on [0, +oo) *)
Definition atanPos (t : Q) : Q :=
  if Qle_bool t 1 then atan01 t else piQ / 2 - atan01 (/ t).

Definition atan2Q (y x : Q) : Q :=
  if Qpos_b x then
    if Qneg_b y then - atanPos (Qabs y / x) else atanPos (y / x)
  else if Qneg_b x then
    if Qneg_b y then - (piQ - atanPos (y / x)) else piQ - atanPos (Qabs (y / x))
  else
    if Qpos_b y then piQ / 2 else if Qneg_b y then - (piQ / 2) else 0.

Definition acosQ (x : Q) : Q := atan2Q (sqrtQ (1 - x * x)) x.

Lemma sqrtQ_zero (q : Q) : q == 0 -> sqrtQ q == 0.
Proof.
  intros H. unfold sqrtQ.
  assert (Hn : Qnum q = 0%Z).
  { unfold Qeq in H. cbn in H. lia. }
  rewrite Hn. reflexivity.
Qed.

End CoarseMath.

Definition coarse_math : MathLib := {|
  sqrtQ := CoarseMath.sqrtQ;
  atan2Q := CoarseMath.atan2Q;
  acosQ := CoarseMath.acosQ;
  piQ := CoarseMath.piQ;
  sqrtQ_zero := CoarseMath.sqrtQ_zero
|}.

(* ================================================================== *)
(** ** Example inputs                                                  *)
(* ================================================================== *)

Definition landmark_at (u v : Q) : NormalizedLandmark :=
  {| x := u; y := v; z := None; visibility := None; presence := None |}.

(** 468 landmarks laid out on a 22-column grid inside the unit square. *)
Definition grid_landmarks : list NormalizedLandmark :=
  map (fun i => landmark_at (inject_Z (Z.of_nat (2 + i mod 22)) / 26)
                            (inject_Z (Z.of_nat (2 + i / 22)) / 26))
      (seq 0 468).

(** A face that fills the middle of the frame: the grid squeezed into
    [0.3, 0.7] on both axes, with the two outline points that set roll and
    yaw (indices 10 and 400) level on the horizontal mid-line. *)
Definition centered_landmarks : list NormalizedLandmark :=
  map (fun i =>
         if (i =? 10)%nat then landmark_at 0.3 0.5
         else if (i =? 400)%nat then landmark_at 0.7 0.5
         else landmark_at (0.3 + 0.4 * inject_Z (Z.of_nat (i mod 22)) / 21)
                          (0.3 + 0.4 * inject_Z (Z.of_nat (i / 22)) / 21))
      (seq 0 468).

(** 468 landmarks that all sit at the centre of the image. *)
Definition collapsed_landmarks : list NormalizedLandmark :=
  repeat (landmark_at 0.5 0.5) 468.

Definition eye_of (aspect tilt_deg : Q) : SingleEyeMetrics :=
  {| eye_width := Fin aspect; eye_height := Fin 1; aspectRatio := Fin aspect;
     tilt := Fin tilt_deg; eye_landmarks := [] |}.


(** A document that hands out 2-D canvas contexts. *)
Definition browser : Document := {| context2d := true |}.

(** The RGBA bytes of a [width] x [height] image whose pixels all have the
    colour (r, g, b) and are opaque. *)
Definition uniform_pixels (width height : nat) (r g b : Z) : list Z :=
  List.concat (repeat [r; g; b; 255%Z] (width * height)).

Definition uniform_image (width height : nat) (gray : Z) : ImageElement :=
  {| el_width := width; el_height := height;
     el_imageData := Ok (uniform_pixels width height gray gray gray) |}.

(** A 3 x 3 image whose pixels alternate between two given colours. *)
Definition alternating_image (c0 c1 : Z * Z * Z) : ImageElement :=
  {| el_width := 3; el_height := 3;
     el_imageData :=
       Ok (List.concat
             (map (fun i => let '(r, g, b) := if Nat.even i then c0 else c1 in
                            [r; g; b; 255%Z])
                  (seq 0 9))) |}.

(** Black and white: sharp and contrasted. *)
Definition checkerboard : ImageElement :=
  alternating_image (0, 0, 0)%Z (255, 255, 255)%Z.

(** Sharp in the red channel, which is the one the blur estimate reads,
    and almost flat in luminance. *)
Definition low_contrast_image : ImageElement :=
  alternating_image (255, 0, 128)%Z (0, 155, 0)%Z.

(** An element of zero area, as a browser presents it: [getImageData]
    refuses a rectangle of zero width. *)
Definition zero_area_image : ImageElement :=
  {| el_width := 0; el_height := 0;
     el_imageData := Throw (DOMException "IndexSizeError" "The source width is 0.") |}.

(** An element of zero area, as a canvas that hands out an empty buffer
    presents it. *)
Definition empty_image : ImageElement :=
  {| el_width := 0; el_height := 0; el_imageData := Ok [] |}.

(** The centred face with every visibility set to exactly one half. *)
Definition half_visible_landmarks : list NormalizedLandmark :=
  map (fun l => {| x := l.(x); y := l.(y); z := l.(z);
                   visibility := Some 0.5; presence := l.(presence) |})
      centered_landmarks.

(* ================================================================== *)
(** ** Vocabulary of the further properties                            *)
(* ================================================================== *)

(** Every index of a registry entry is below [n]. *)
Definition all_below (n : nat) (indices : list nat) : bool :=
  forallb (fun i => (i <? n)%nat) indices.



(** One of the three quantities of a region is NaN. *)
Definition has_nan3 (t : num * num * num) : bool :=
  let '(a, b, c) := t in is_nan a || is_nan b || is_nan c.


(** The issue types that the checks on the image and on the face raise. *)
Definition reported (t : QualityIssueType) : bool :=
  match t with
  | brightness | contrast | blur | face_angle | face_size | face_position
  | partial_face => true
  | _ => false
  end.

(** The issue types that invalidate an image. *)
Definition invalidating (t : QualityIssueType) : bool :=
  match t with
  | blur | partial_face | no_face_detected => true
  | _ => false
  end.

(** Two threshold records that differ at most in the limits on the face
    height. *)
Definition same_but_heights (a b : QualityThresholds) : Prop :=
  a.(maxYaw) = b.(maxYaw) /\ a.(maxPitch) = b.(maxPitch) /\ a.(maxRoll) = b.(maxRoll)
  /\ a.(brightness_min) = b.(brightness_min) /\ a.(brightness_max) = b.(brightness_max)
  /\ a.(contrast_min) = b.(contrast_min) /\ a.(blur_max) = b.(blur_max)
  /\ a.(minWidth) = b.(minWidth) /\ a.(maxWidth) = b.(maxWidth)
  /\ a.(centerTolerance) = b.(centerTolerance).

(** The default validator with limits on the face height that no face
    meets. *)
Definition strict_height_validator : QualityValidator :=
  {| thresholds :=
       {| maxYaw := 15; maxPitch := 15; maxRoll := 10;
          brightness_min := 80; brightness_max := 200;
          contrast_min := 30; blur_max := 0.1;
          minWidth := 0.3; minHeight := 2; maxWidth := 0.8; maxHeight := 0;
          centerTolerance := 0.15 |} |}.

(* ================================================================== *)
(** ** Binary64 arithmetic                                             *)
(* ================================================================== *)

(** The scores are sensitive to the rounding and to the overflow of the
    arithmetic of [number].  This module rounds every arithmetic result to
    the nearest binary64 value, ties to even, with gradual underflow and
    overflow to the infinities, and gives the scoring functions of
    [FacialMetricsCalculator] once more over this arithmetic.  Comparisons,
    [Math.abs], [Math.min], [Math.max] and [Math.round] are exact on
    binary64 values and are those of [JsNum]. *)
Module Binary64.

(** 2^z *)
Definition two_to (z : Z) : Q := 2 ^ z.

(** The binade of a positive rational: the [e] with 2^e <= q < 2^(e+1). *)
Definition ilog2 (q : Q) : Z :=
  let d := (Z.log2 (Qnum q) - Z.log2 (Zpos (Qden q)))%Z in
  if Qle_bool (two_to d) q then d else (d - 1)%Z.

(** The nearest integer, a tie going to the even one. *)
Definition nearest_even (q : Q) : Z :=
  let f := Qfloor q in
  match Qcompare (q - inject_Z f) (1 # 2) with
  | Lt => f
  | Gt => (f + 1)%Z
  | Eq => if Z.even f then f else (f + 1)%Z
  end.

(** The exponent of the unit in the last place: 53 significant bits, and
    no exponent below -1074 (subnormal numbers). *)
Definition ulp_exponent (q : Q) : Z := Z.max (ilog2 q - 52) (-1074).

(** Rounding of a positive rational to a multiple of its unit in the last
    place. *)
Definition rnd_pos (q : Q) : Q :=
  let k := ulp_exponent q in
  inject_Z (nearest_even (q / two_to k)) * two_to k.

(** Rounding to nearest, ties to even, before the test for overflow. *)
Definition rnd (q : Q) : Q :=
  match Qcompare q 0 with
  | Eq => 0
  | Gt => rnd_pos q
  | Lt => - rnd_pos (- q)
  end.

Definition MIN_VALUE : Q := two_to (-1074).

(** A rational that is a binary64 value. *)
Definition double (q : Q) : Prop := rnd q == q /\ Qabs q < two_to 1024.

(** A [number]: a binary64 value, an infinity or NaN. *)
Definition number (a : num) : Prop :=
  match a with
  | Fin q => double q
  | _ => True
  end.

(** The binary64 value nearest to a decimal literal of the program. *)
Definition literal (q : Q) : Q := Qred (rnd q).

(** The result of an arithmetic operation whose exact value is [q]. *)
Definition fin (q : Q) : num :=
  let r := rnd q in
  if Qle_bool (two_to 1024) r then PInf
  else if Qle_bool r (- two_to 1024) then NInf
  else Fin (Qred r).

(** [a + b], [a - b], [a * b], [a / b] *)
Definition add (a b : num) : num :=
  match a, b with
  | Fin x, Fin y => fin (x + y)
  | _, _ => JsNum.add a b
  end.

Definition sub (a b : num) : num := add a (neg b).

Definition mul (a b : num) : num :=
  match a, b with
  | Fin x, Fin y => fin (x * y)
  | _, _ => JsNum.mul a b
  end.

Definition div (a b : num) : num :=
  match a, b with
  | Fin x, Fin y => if Qzero_b y then inf_of (Qsign x) else fin (x / y)
  | _, _ => JsNum.div a b
  end.

End Binary64.

(* ================================================================== *)
(** ** lib/metrics in binary64: the scoring functions                  *)
(* ================================================================== *)

(** The scoring functions of [FacialMetricsCalculator], as above, with the
    four arithmetic operations read as those of [Binary64]. *)
Module Scoring64.

Local Infix "+" := Binary64.add : num_scope.
Local Infix "-" := Binary64.sub : num_scope.
Local Infix "*" := Binary64.mul : num_scope.
Local Infix "/" := Binary64.div : num_scope.

Definition calculateDeviation (value : num) (idealRange : Range) : num :=
  let '(min, max) := idealRange in
  if (value >=? Fin min)%num && (value <=? Fin max)%num then Fin 0
  else
    let center := ((Fin min + Fin max) / Fin 2)%num in
    let rangeSize := (Fin max - Fin min)%num in
    let deviation := (abs (value - center) / rangeSize)%num in
    JsNum.min deviation (Fin 1).

Definition deviationToScore (weightedDeviation : num) : num :=
  let score := (Fin 100 * (Fin 1 - weightedDeviation))%num in
  JsNum.max (Fin 0) (JsNum.min (Fin 100) score).

Section Scores.
Variable this : FacialMetricsCalculator.

Definition calculateEyeScore (eyeMetrics : EyeMetrics) : num :=
  let aspectRatioDeviation :=
    calculateDeviation
      ((eyeMetrics.(leftEye).(aspectRatio) + eyeMetrics.(rightEye).(aspectRatio)) / Fin 2)%num
      this.(baselineRanges).(b_eyes).(r_aspectRatio) in
  let symmetryDeviation :=
    calculateDeviation eyeMetrics.(eyeSymmetry)
      this.(baselineRanges).(b_eyes).(r_eye_symmetry) in
  let tiltDeviation :=
    calculateDeviation
      ((abs eyeMetrics.(leftEye).(tilt) + abs eyeMetrics.(rightEye).(tilt)) / Fin 2)%num
      this.(baselineRanges).(b_eyes).(r_tilt) in
  let weightedDeviation :=
    (Fin this.(weightingFactors).(f_eyes).(w_aspectRatio) * aspectRatioDeviation
     + Fin this.(weightingFactors).(f_eyes).(w_eye_symmetry) * symmetryDeviation
     + Fin this.(weightingFactors).(f_eyes).(w_tilt) * tiltDeviation)%num in
  deviationToScore weightedDeviation.

Definition calculateNoseScore (noseMetrics : NoseMetrics) : num :=
  let normalizedWidth := (noseMetrics.(nose_width) / noseMetrics.(bridgeWidth))%num in
  let widthDeviation :=
    calculateDeviation normalizedWidth this.(baselineRanges).(b_nose).(r_widthRatio) in
  let projectionDeviation :=
    calculateDeviation (abs noseMetrics.(tipProjection))
      this.(baselineRanges).(b_nose).(r_projection) in
  let symmetryDeviation :=
    calculateDeviation noseMetrics.(nostrilSymmetry)
      this.(baselineRanges).(b_nose).(r_nose_symmetry) in
  let weightedDeviation :=
    (Fin this.(weightingFactors).(f_nose).(w_width) * widthDeviation
     + Fin this.(weightingFactors).(f_nose).(w_nose_projection) * projectionDeviation
     + Fin this.(weightingFactors).(f_nose).(w_nose_symmetry) * symmetryDeviation)%num in
  deviationToScore weightedDeviation.

Definition calculateJawScore (jawMetrics : JawMetrics) : num :=
  let angleDeviation :=
    calculateDeviation jawMetrics.(jaw_angle) this.(baselineRanges).(b_jaw).(r_angle) in
  let projectionDeviation :=
    calculateDeviation jawMetrics.(lowerFaceRatio)
      this.(baselineRanges).(b_jaw).(r_chinRatio) in
  let asymmetryDeviation :=
    calculateDeviation jawMetrics.(jaw_asymmetry)
      this.(baselineRanges).(b_jaw).(r_asymmetry) in
  let weightedDeviation :=
    (Fin this.(weightingFactors).(f_jaw).(w_angle) * angleDeviation
     + Fin this.(weightingFactors).(f_jaw).(w_jaw_projection) * projectionDeviation
     + Fin this.(weightingFactors).(f_jaw).(w_asymmetry) * asymmetryDeviation)%num in
  deviationToScore weightedDeviation.

Definition calculateQualityScores (features : FacialFeatures) : QualityScores :=
  let eyeScore := calculateEyeScore features.(eyes) in
  let noseScore := calculateNoseScore features.(nose) in
  let jawScore := calculateJawScore features.(jaw) in
  let overall := ((eyeScore + noseScore + jawScore) / Fin 3)%num in
  {| score_eyes := round eyeScore;
     score_nose := round noseScore;
     score_jaw := round jawScore;
     overall := round overall |}.

End Scores.

(** The formula of the specification for a value outside the interval,
    each operation rounded. *)
Definition deviation_formula (value mn mx : Q) : num :=
  JsNum.min (abs (Fin value - (Fin mn + Fin mx) / Fin 2) / (Fin mx - Fin mn))%num (Fin 1).

(** The quantities each region is scored on, and a region's weighted
    deviation. *)
Definition eyeQuantities (e : EyeMetrics) : num * num * num :=
  (((e.(leftEye).(aspectRatio) + e.(rightEye).(aspectRatio)) / Fin 2)%num,
   e.(eyeSymmetry),
   ((abs e.(leftEye).(tilt) + abs e.(rightEye).(tilt)) / Fin 2)%num).

Definition noseQuantities (n : NoseMetrics) : num * num * num :=
  ((n.(nose_width) / n.(bridgeWidth))%num, abs n.(tipProjection), n.(nostrilSymmetry)).

Definition weighted_deviation (weights : Q * Q * Q) (quantities : num * num * num)
    (ranges : Range * Range * Range) : num :=
  let '(w1, w2, w3) := weights in
  let '(q1, q2, q3) := quantities in
  let '(r1, r2, r3) := ranges in
  (Fin w1 * calculateDeviation q1 r1 + Fin w2 * calculateDeviation q2 r2
   + Fin w3 * calculateDeviation q3 r3)%num.








(** The tables of the program text, each decimal read as the binary64
    value nearest to it. *)
Definition literal_range (r : Range) : Range :=
  (Binary64.literal (fst r), Binary64.literal (snd r)).

Definition DEFAULT_BASELINE_RANGES : BaselineRanges :=
  let b := Metrics.DEFAULT_BASELINE_RANGES in
  {| b_eyes := {| r_aspectRatio := literal_range b.(b_eyes).(r_aspectRatio);
                  r_eye_symmetry := literal_range b.(b_eyes).(r_eye_symmetry);
                  r_tilt := literal_range b.(b_eyes).(r_tilt) |};
     b_nose := {| r_widthRatio := literal_range b.(b_nose).(r_widthRatio);
                  r_projection := literal_range b.(b_nose).(r_projection);
                  r_nose_symmetry := literal_range b.(b_nose).(r_nose_symmetry) |};
     b_jaw := {| r_angle := literal_range b.(b_jaw).(r_angle);
                 r_chinRatio := literal_range b.(b_jaw).(r_chinRatio);
                 r_asymmetry := literal_range b.(b_jaw).(r_asymmetry) |} |}.

Definition DEFAULT_WEIGHTING_FACTORS : WeightingFactors :=
  let f := Metrics.DEFAULT_WEIGHTING_FACTORS in
  {| f_eyes := {| w_aspectRatio := Binary64.literal f.(f_eyes).(w_aspectRatio);
                  w_eye_symmetry := Binary64.literal f.(f_eyes).(w_eye_symmetry);
                  w_tilt := Binary64.literal f.(f_eyes).(w_tilt) |};
     f_nose := {| w_width := Binary64.literal f.(f_nose).(w_width);
                  w_nose_projection := Binary64.literal f.(f_nose).(w_nose_projection);
                  w_nose_symmetry := Binary64.literal f.(f_nose).(w_nose_symmetry) |};
     f_jaw := {| w_angle := Binary64.literal f.(f_jaw).(w_angle);
                 w_jaw_projection := Binary64.literal f.(f_jaw).(w_jaw_projection);
                 w_asymmetry := Binary64.literal f.(f_jaw).(w_asymmetry) |} |}.

(** [new FacialMetricsCalculator()] *)
Definition default_calculator : FacialMetricsCalculator :=
  {| baselineRanges := DEFAULT_BASELINE_RANGES;
     weightingFactors := DEFAULT_WEIGHTING_FACTORS |}.

(** Features whose decimals are read as binary64 values. *)
Definition as_double (a : num) : num :=
  match a with
  | Fin q => Fin (Binary64.literal q)
  | _ => a
  end.

Definition eye_as_doubles (e : SingleEyeMetrics) : SingleEyeMetrics :=
  {| eye_width := as_double e.(eye_width); eye_height := as_double e.(eye_height);
     aspectRatio := as_double e.(aspectRatio); tilt := as_double e.(tilt);
     eye_landmarks := e.(eye_landmarks) |}.


End Scoring64.

(** The floating-point unit, to compare the rounding above with. *)
Module Hardware.
Import PrimFloat.

(** The value of a finite binary64 number. *)
Definition value (f : float) : Q :=
  match FloatOps.Prim2SF f with
  | SpecFloat.S754_finite s m e =>
      (if s then -1 else 1) * inject_Z (Zpos m) * Binary64.two_to e
  | _ => 0
  end.

(** [Math.min(a, 1)] off NaN *)
Definition cap (a : float) : float := if (a <? 1)%float then a else 1%float.

(** The deviation of a value from [min, max], outside the interval. *)
Definition deviation (v mn mx : float) : float :=
  cap (abs (v - (mn + mx) / 2) / (mx - mn))%float.

(** [100 * (1 - weightedDeviation)] for the default eye weights. *)
Definition eyeScore (aspect symmetry tilt : float) : float :=
  (100 * (1 - (0.4 * deviation aspect 2.8 3.2 + 0.35 * deviation symmetry 0.9 1.1
               + 0.25 * deviation tilt (-5) 5)))%float.

(** A [number] of the unit as a [num]. *)
Definition number_of (f : float) : num :=
  match FloatOps.Prim2SF f with
  | SpecFloat.S754_finite _ _ _ => Fin (Qred (value f))
  | SpecFloat.S754_zero _ => Fin 0
  | SpecFloat.S754_infinity false => PInf
  | SpecFloat.S754_infinity true => NInf
  | SpecFloat.S754_nan => NaN
  end.

(** Whether an operation of the unit and one on [num] give the same
    result on all pairs of the given numbers. *)
Definition agree (unit : float -> float -> float) (model : num -> num -> num)
    (numbers : list float) : bool :=
  forallb
    (fun a =>
       forallb (fun b => JsNum.eqb (number_of (unit a b))
                           (model (number_of a) (number_of b))
                         || JsNum.is_nan (number_of (unit a b))
                            && JsNum.is_nan (model (number_of a) (number_of b)))
         numbers)
    numbers.

(** Small, large and extreme numbers of both signs. *)
Definition samples : list float :=
  let positive := [0.1; 0.7; 3; 1.7e308; 5e-324; 0x1.fffffffffffffp1023]%float in
  positive ++ map opp positive.

(** The score of eyes with aspect ratio 4, symmetry 1.3 and tilt 7. *)
Definition skewed_eye_score : float := eyeScore 4 1.3 7.

End Hardware.

(** Finite and not negative, or +Infinity; finite and positive, or
    +Infinity. *)
Definition nonneg_or_inf (a : num) : Prop :=
  match a with
  | Fin x => 0 <= x
  | PInf => True
  | _ => False
  end.

Definition pos_or_inf (a : num) : Prop :=
  match a with
  | Fin x => 0 < x
  | PInf => True
  | _ => False
  end.

(** The centre of a baseline interval as [calculateDeviation] computes
    it. *)
Definition center64 (mn mx : Q) : num :=
  Binary64.div (Binary64.add (Fin mn) (Fin mx)) (Fin 2).

(** 1.7e308, 1.5e308 and 1e308 *)
Definition e308 (tenths : Z) : Q := Binary64.literal (inject_Z (tenths * 10 ^ 307)).


(** Features whose eye aspect ratio (4) and whose tilt (7 degrees) are
    out of band by the full amount and whose eye symmetry (1.3) is out of
    band by 0.7. *)
Definition skewed_eyes : EyeMetrics :=
  {| leftEye := Scoring64.eye_as_doubles (eye_of 4 7);
     rightEye := Scoring64.eye_as_doubles (eye_of 4 7);
     interPupillaryDistance := Fin (Binary64.literal 0.3);
     eyeSymmetry := Fin (Binary64.literal 1.3) |}.

(* ================================================================== *)
(** ** lib/mediapipe: MediaPipeFaceLandmarker                          *)
(* ================================================================== *)

Module Landmarker.

(** What the landmarker and the capture component throw and catch: one of
    the values above, or the object literal typed [MediaPipeError], which
    keeps what the library threw in [details]. *)
Inductive thrown : Type :=
| Exception (e : exn)
| MediaPipeError (name message code : string) (details : exn).

(** A call that returns or throws; for an [async] function, a promise that
    is fulfilled or rejected. *)
Inductive completion (A : Type) : Type :=
| Return (a : A)
| Raise (t : thrown).

Arguments Return {A} a.
Arguments Raise {A} t.

Definition complete_bind {A B : Type} (c : completion A) (k : A -> completion B)
    : completion B :=
  match c with
  | Return a => k a
  | Raise t => Raise t
  end.

(** A call into the libraries modelled above. *)
Definition call {A : Type} (c : result A) : completion A :=
  match c with
  | Ok a => Return a
  | Throw e => Raise (Exception e)
  end.

Record FaceLandmarkerResult : Type := {
  faceLandmarks : list (list NormalizedLandmark)
}.

(** The [FaceLandmarker] of the library: what its [detect] answers for an
    image element. *)
Record FaceLandmarker : Type := {
  detect : ImageElement -> result FaceLandmarkerResult
}.

(** The private fields of the object.  A promise is kept as the completion
    it settles to: calls are awaited one after the other. *)
Record MediaPipeFaceLandmarker : Type := {
  faceLandmarker : option FaceLandmarker;
  isInitialized : bool;
  initializationPromise : option (completion unit)
}.

(** [new MediaPipeFaceLandmarker(options)] *)
Definition new : MediaPipeFaceLandmarker :=
  {| faceLandmarker := None; isInitialized := false; initializationPromise := None |}.

(** [doInitialize]; [load] is how the import of the library, the loading
    of the files and [FaceLandmarker.createFromOptions] end. *)
Definition doInitialize (load : result FaceLandmarker) (this : MediaPipeFaceLandmarker)
    : MediaPipeFaceLandmarker * completion unit :=
  match load with
  | Ok created =>
      ({| faceLandmarker := Some created;
          isInitialized := true;
          initializationPromise := this.(initializationPromise) |},
       Return tt)
  | Throw error =>
      (this,
       Raise (MediaPipeError "MediaPipeInitializationError"
                ("Failed to initialize MediaPipe: " ++ String_of error)
                "INIT_FAILED" error))
  end.

Definition initialize (load : result FaceLandmarker) (this : MediaPipeFaceLandmarker)
    : MediaPipeFaceLandmarker * completion unit :=
  if this.(isInitialized) then (this, Return tt)
  else
    match this.(initializationPromise) with
    | Some promise => (this, promise)
    | None =>
        let '(this, promise) := doInitialize load this in
        ({| faceLandmarker := this.(faceLandmarker);
            isInitialized := this.(isInitialized);
            initializationPromise := Some promise |},
         promise)
    end.

Definition detectLandmarks (this : MediaPipeFaceLandmarker) (imageElement : ImageElement)
    : completion (list NormalizedLandmark) :=
  match this.(isInitialized), this.(faceLandmarker) with
  | true, Some faceLandmarker =>
      match faceLandmarker.(detect) imageElement with
      | Ok result =>
          match result.(faceLandmarks) with
          | [] => Return []
          | landmarks :: _ => Return landmarks
          end
      | Throw error =>
          Raise (MediaPipeError "MediaPipeLandmarkError"
                   ("Failed to detect landmarks: " ++ String_of error)
                   "DETECTION_FAILED" error)
      end
  | _, _ => Raise (Exception (Error "MediaPipe not initialized. Call initialize() first."))
  end.

Definition dispose (this : MediaPipeFaceLandmarker) : MediaPipeFaceLandmarker :=
  {| faceLandmarker := None; isInitialized := false; initializationPromise := None |}.

(** The two state-changing methods, with what the loading would answer. *)
Inductive method : Type :=
| Initialize (load : result FaceLandmarker)
| Dispose.

Definition invoke (this : MediaPipeFaceLandmarker) (m : method) : MediaPipeFaceLandmarker :=
  match m with
  | Initialize load => fst (initialize load this)
  | Dispose => dispose this
  end.

(** A sequence of awaited calls on an object. *)
Definition run (calls : list method) (this : MediaPipeFaceLandmarker)
    : MediaPipeFaceLandmarker :=
  fold_left invoke calls this.

End Landmarker.

Import Landmarker.

(** What holds of the fields of an object between two calls. *)
Definition consistent (this : MediaPipeFaceLandmarker) : Prop :=
  match this.(isInitialized), this.(faceLandmarker), this.(initializationPromise) with
  | true, Some _, Some (Return _) => True
  | false, None, None => True
  | false, None, Some (Raise (MediaPipeError _ _ code _)) => code = "INIT_FAILED"%string
  | _, _, _ => False
  end.

Notation "x <~ c ;; k" := (complete_bind c (fun x => k))
  (at level 61, c at next level, right associativity).

(* ================================================================== *)
(** ** ui/Capture: processImage                                        *)
(* ================================================================== *)

Module Capture.

Record CaptureResult : Type := {
  cap_imageData : list Z;
  cap_landmarks : list NormalizedLandmark;
  cap_qualityCheck : QualityCheckResult;
  cap_features : FacialFeatures;
  cap_scores : QualityScores
}.

(** The three references of the component; [None] is [undefined]. *)
Record Refs : Type := {
  landmarkerRef : option MediaPipeFaceLandmarker;
  qualityValidatorRef : option QualityValidator;
  metricsCalculatorRef : option FacialMetricsCalculator
}.

(** The canvas that [processImage] creates for itself once the validator
    has worked on its own: whether [getContext('2d')] yields a context, and
    what drawing the image on it and reading the pixels back returns. *)
Record Canvas : Type := {
  canvas_context2d : bool;
  canvas_imageData : result (list Z)
}.

(** The [onCapture] property of the component: absent, or a callback that
    returns or throws. *)
Definition OnCapture : Type := option (CaptureResult -> completion unit).

(** [onCapture?.(result)] *)
Definition notify (onCapture : OnCapture) (result : CaptureResult) : completion unit :=
  match onCapture with
  | Some callback => callback result
  | None => Return tt
  end.

(** The status that [processImage] leaves behind: 'complete' after
    [onCapture?.(result)] has returned, or 'error' with the message that
    [onError] is called with. *)
Inductive Outcome : Type :=
| status_complete (result : CaptureResult)
| status_error (message : string).

(** [error instanceof Error]: true of [Error] and [DOMException]
    instances, false of the object literals. *)
Definition instanceof_Error (t : thrown) : bool :=
  match t with
  | Exception (Error _) | Exception (DOMException _ _) => true
  | _ => false
  end.

(** [error.message] *)
Definition message_of (t : thrown) : string :=
  match t with
  | Exception (Error m) | Exception (DOMException _ m) => m
  | Exception (MetricsCalculationError m _ _ _) => m
  | Exception (QualityValidationError m _ _) => m
  | MediaPipeError _ m _ _ => m
  end.

Definition NOT_INITIALIZED : string := "Components not initialized".
Definition NO_FACE : string :=
  "顔が検出されませんでした。顔全体がフレーム内に映るように調整してください。".
Definition NO_CONTEXT : string := "Could not get canvas context".
Definition PROCESSING_FAILED : string := "画像の処理中にエラーが発生しました".

(** The message of the [catch] block. *)
Definition errorMessage (error : thrown) : string :=
  if instanceof_Error error then message_of error else PROCESSING_FAILED.

Section Process.
Context {M : MathLib}.

(** The [try] block sets the status 'complete' and then calls
    [onCapture]; what the callback throws is caught like everything else
    and the status becomes 'error'. *)
Definition processImage (refs : Refs) (document : Document) (canvas : Canvas)
    (onCapture : OnCapture) (imageElement : ImageElement) : Outcome :=
  match refs.(landmarkerRef), refs.(qualityValidatorRef), refs.(metricsCalculatorRef) with
  | Some landmarker, Some qualityValidator, Some metricsCalculator =>
      let attempt : completion CaptureResult :=
        landmarks <~ detectLandmarks landmarker imageElement ;;
        if (List.length landmarks =? 0)%nat then Raise (Exception (Error NO_FACE))
        else
          qualityCheck <~ call (validateImage qualityValidator document imageElement
                                  landmarks) ;;
          features <~ call (calculateFacialFeatures landmarks) ;;
          let scores := calculateQualityScores metricsCalculator features in
          if negb canvas.(canvas_context2d) then Raise (Exception (Error NO_CONTEXT))
          else
            imageData <~ call canvas.(canvas_imageData) ;;
            let result := {| cap_imageData := imageData;
                             cap_landmarks := landmarks;
                             cap_qualityCheck := qualityCheck;
                             cap_features := features;
                             cap_scores := scores |} in
            _ <~ notify onCapture result ;;
            Return result in
      match attempt with
      | Return result => status_complete result
      | Raise error => status_error (errorMessage error)
      end
  | _, _, _ => status_error NOT_INITIALIZED
  end.

End Process.

End Capture.

Import Capture.

(** A library object that finds the given faces in every image. *)
Definition fixed_detector (faces : list (list NormalizedLandmark)) : FaceLandmarker :=
  {| detect := fun _ => Ok {| faceLandmarks := faces |} |}.

(** A canvas that gives a context and the given pixels. *)
Definition working_canvas (pixels : list Z) : Canvas :=
  {| canvas_context2d := true; canvas_imageData := Ok pixels |}.

(** The component once its three objects are set up and the library has
    loaded. *)
Definition ready_refs (faces : list (list NormalizedLandmark)) : Refs :=
  {| landmarkerRef := Some (fst (initialize (Ok (fixed_detector faces)) new));
     qualityValidatorRef := Some default_validator;
     metricsCalculatorRef := Some default_calculator |}.

(* ================================================================== *)
(** ** utils/imageProcessing: target size and EXIF orientation         *)
(* ================================================================== *)

Module ImageProcessing.



(** A [DataView] on the bytes of the file.  A read past the end throws a
    [RangeError]: [None]. *)
Definition DataView : Type := list N.

Definition byteLength (view : DataView) : N := N.of_nat (List.length view).

Definition getUint8 (view : DataView) (offset : N) : option N :=
  if (offset <? byteLength view)%N then nth_error view (N.to_nat offset) else None.

Definition getUint16 (view : DataView) (offset : N) (littleEndian : bool) : option N :=
  match getUint8 view offset, getUint8 view (offset + 1) with
  | Some b0, Some b1 =>
      Some (if littleEndian then b0 + 256 * b1 else 256 * b0 + b1)%N
  | _, _ => None
  end.

Definition getUint32 (view : DataView) (offset : N) (littleEndian : bool) : option N :=
  match getUint8 view offset, getUint8 view (offset + 1),
        getUint8 view (offset + 2), getUint8 view (offset + 3) with
  | Some b0, Some b1, Some b2, Some b3 =>
      Some (if littleEndian
            then b0 + 256 * (b1 + 256 * (b2 + 256 * b3))
            else b3 + 256 * (b2 + 256 * (b1 + 256 * b0)))%N
  | _, _, _, _ => None
  end.

(** The loop over the entries of the directory, from entry [i], with
    [remaining] entries to go. *)
Fixpoint findOrientation (view : DataView) (ifdOffset : N) (littleEndian : bool)
    (i : N) (remaining : nat) : option N :=
  match remaining with
  | O => Some 1%N
  | S remaining =>
      let entryOffset := (ifdOffset + 2 + i * 12)%N in
      match getUint16 view entryOffset littleEndian with
      | None => None
      | Some tag =>
          if (tag =? 0x0112)%N then
            match getUint16 view (entryOffset + 8) littleEndian with
            | None => None
            | Some value =>
                Some (if (1 <=? value)%N && (value <=? 8)%N then value else 1%N)
            end
          else findOrientation view ifdOffset littleEndian (i + 1) remaining
      end
  end.

Definition parseEXIFOrientation (view : DataView) (offset : N) : N :=
  let attempt :=
    match getUint16 view offset false with
    | None => None
    | Some byteOrder =>
        let littleEndian := (byteOrder =? 0x4949)%N in
        match getUint32 view (offset + 4) littleEndian with
        | None => None
        | Some relative =>
            let ifdOffset := (offset + relative)%N in
            match getUint16 view ifdOffset littleEndian with
            | None => None
            | Some entryCount =>
                findOrientation view ifdOffset littleEndian 0 (N.to_nat entryCount)
            end
        end
    end in
  match attempt with
  | Some orientation => orientation
  | None => 1%N   (* catch *)
  end.

(** How the marker loop of [extractEXIFOrientation] ends. *)
Inductive scanned : Type :=
| Found (orientation : N)
| RangeError
| OutOfFuel.

(** [while (offset < length) { ... }], then [return 1]. *)
Fixpoint scanMarkers (fuel : nat) (view : DataView) (offset : N) : scanned :=
  if (offset <? byteLength view)%N then
    match fuel with
    | O => OutOfFuel
    | S fuel =>
        match getUint16 view offset false with
        | None => RangeError
        | Some marker =>
            let next :=
              if (marker =? 0xFFDA)%N then Found 1%N
              else
                match getUint16 view (offset + 2) false with
                | None => RangeError
                | Some size => scanMarkers fuel view (offset + (2 + size))
                end in
            if (marker =? 0xFFE1)%N then
              let exifOffset := (offset + 4)%N in
              match getUint32 view exifOffset false with
              | None => RangeError
              | Some header =>
                  if (header =? 0x45786966)%N then
                    match getUint16 view (exifOffset + 4) false with
                    | None => RangeError
                    | Some rest =>
                        if (rest =? 0)%N
                        then Found (parseEXIFOrientation view (exifOffset + 6))
                        else next
                    end
                  else next
              end
            else next
        end
    end
  else Found 1%N.

(** [extractEXIFOrientation] on the bytes of the file; [None] when the
    fuel does not suffice for the marker loop. *)
Definition extractEXIFOrientation (fuel : nat) (view : DataView) : option N :=
  let attempt :=
    match getUint16 view 0 false with
    | None => RangeError
    | Some signature =>
        if negb (signature =? 0xFFD8)%N then Found 1%N
        else scanMarkers fuel view 2
    end in
  match attempt with
  | Found orientation => Some orientation
  | RangeError => Some 1%N   (* catch *)
  | OutOfFuel => None
  end.

End ImageProcessing.

Import ImageProcessing.




(* ================================================================== *)
(** * Properties                                                       *)
(* ================================================================== *)

(* ================================================================== *)
(** ** Reasoning about numbers                                         *)
(* ================================================================== *)

(** Turn every boolean comparison of rationals in the goal into the
    proposition it decides. *)
Ltac qb :=
  repeat match goal with
  | |- context [Qle_bool ?a ?b] =>
      let E := fresh "E" in
      destruct (Qle_bool a b) eqn:E;
      [ apply Qle_bool_iff in E
      | apply not_true_iff_false in E; rewrite Qle_bool_iff in E ]
  end.

(** Unfold the operations on [num] down to the rational arithmetic. *)
Ltac num_unfold :=
  cbv beta iota delta [add sub neg mul div abs JsNum.min JsNum.max leb ltb geb gtb
                       round pow2 inf_of sign_opp Qsign Qpos_b Qneg_b Qzero_b
                       negb andb orb num_eq is_nan fin].

(** Forget that finite results are stored in lowest terms. *)
Ltac qred :=
  repeat match goal with
  | H : context [Qred _] |- _ => rewrite Qred_correct in H
  | |- context [Qred _] => rewrite Qred_correct
  end.

Lemma fin_eq (a b : Q) : a == b -> fin a = fin b.
Proof.
  intros H. unfold fin. f_equal. apply Qred_complete. exact H.
Qed.

Lemma sqrt_nonneg_finite {M : MathLib} (q : Q) : 0 <= q -> exists d, sqrt (Fin q) = Fin d.
Proof.
  intros H. unfold sqrt, Qneg_b. apply Qle_bool_iff in H. rewrite H.
  eexists; reflexivity.
Qed.

Lemma sqrt_zero {M : MathLib} (q : Q) : q == 0 -> sqrt (Fin q) = Fin 0.
Proof.
  intros H. unfold sqrt, Qneg_b.
  assert (Hle : Qle_bool 0 q = true) by (apply Qle_bool_iff; lra).
  rewrite Hle. cbn [negb]. change (Fin 0) with (fin 0).
  apply fin_eq, sqrtQ_zero, H.
Qed.

(** Read a property of the value a computation returns off a boolean test
    on the computation. *)
Lemma result_case {A : Type} (c : result A) (P : A -> bool) :
  match c with Ok a => P a | Throw _ => false end = true ->
  exists a, c = Ok a /\ P a = true.
Proof.
  destruct c as [a|e]; [|discriminate]. intros H. exists a. split; [reflexivity | exact H].
Defined.

Lemma Qdiv_nonneg (a b : Q) : 0 <= a -> 0 < b -> 0 <= a / b.
Proof.
  intros Ha Hb. apply Qle_shift_div_l; [exact Hb | lra].
Qed.

Lemma Qabs_zero_inv (a : Q) : Qabs a <= 0 -> a == 0.
Proof.
  intros H. apply Qabs_Qle_condition in H. lra.
Qed.

(** Write halves as products, which linear arithmetic understands. *)
Ltac qhalf :=
  repeat match goal with
  | H : context [?a / 2] |- _ => change (a / 2) with (a * (1 # 2)) in H
  | |- context [?a / 2] => change (a / 2) with (a * (1 # 2))
  end.

(** Record that the absolute values in sight are not negative. *)
Ltac abs_nonneg :=
  repeat match goal with
  | |- context [Qabs ?a] =>
      lazymatch goal with
      | _ : 0 <= Qabs a |- _ => fail
      | _ => pose proof (Qabs_nonneg a)
      end
  | _ : context [Qabs ?a] |- _ =>
      lazymatch goal with
      | _ : 0 <= Qabs a |- _ => fail
      | _ => pose proof (Qabs_nonneg a)
      end
  end.

Ltac abs_zero_absurd :=
  exfalso;
  match goal with
  | H : Qabs _ <= 0 |- _ => apply Qabs_zero_inv in H; lra
  end.

(* ------------------------------------------------------------------ *)
(** *** The deviation function                                         *)

(** Outside NaN, the deviation from a baseline interval with min <= max is
    a finite value between 0 and 1. *)
Lemma calculateDeviation_range (v : num) (mn mx : Q) :
  mn <= mx -> is_nan v = false ->
  exists d, calculateDeviation v (mn, mx) = Fin d /\ 0 <= d <= 1.
Proof.
  intros Hr Hv. unfold calculateDeviation.
  destruct v as [q| | |]; try discriminate; num_unfold; qb; qred; qhalf;
    try lra; try abs_zero_absurd;
    eexists; (split; [reflexivity|]); qred; qhalf; abs_nonneg;
    try lra; (split; [apply Qdiv_nonneg; lra | lra]).
Qed.


(* ------------------------------------------------------------------ *)
(** *** Scores                                                         *)

Lemma deviationToScore_Fin (q : Q) :
  exists s, deviationToScore (Fin q) = Fin s
            /\ s == region_score q /\ 0 <= s <= 100.
Proof.
  unfold deviationToScore, region_score. num_unfold.
  qb; eexists; (split; [reflexivity|]); qred.
  all: destruct (Q.min_spec 100 (100 * (1 - q))) as [[Hm Em]|[Hm Em]];
       destruct (Q.max_spec 0 (Qmin 100 (100 * (1 - q)))) as [[Hx Ex]|[Hx Ex]];
       rewrite Ex, ?Em; try rewrite Em in Hx; lra.
Qed.

Lemma weighted_Fin (w1 w2 w3 d1 d2 d3 : Q) :
  exists wd,
    (Fin w1 * Fin d1 + Fin w2 * Fin d2 + Fin w3 * Fin d3)%num = Fin wd
    /\ wd == w1 * d1 + w2 * d2 + w3 * d3.
Proof.
  eexists. split; [reflexivity|]. qred. reflexivity.
Qed.



(* ------------------------------------------------------------------ *)
(** *** Rounding to binary64                                           *)

Module Rounding.
Import Binary64.

Lemma two_to_pos (z : Z) : 0 < two_to z.
Proof. apply Qpower_0_lt. reflexivity. Qed.

Lemma two_to_plus (a b : Z) : two_to (a + b) == two_to a * two_to b.
Proof. apply Qpower_plus. discriminate. Qed.

Lemma two_to_le (a b : Z) : (a <= b)%Z -> two_to a <= two_to b.
Proof. intros H. apply Qpower_le_compat_l; [exact H | discriminate]. Qed.

Lemma two_to_lt (a b : Z) : (a < b)%Z -> two_to a < two_to b.
Proof. intros H. apply Qpower_lt_compat_l; [exact H | reflexivity]. Qed.

Lemma two_to_Z (z : Z) : (0 <= z)%Z -> two_to z == inject_Z (2 ^ z).
Proof. intros H. symmetry. apply (Zpower_Qpower 2 z H). Qed.

Lemma two_to_minus (a b : Z) : two_to (a - b) == two_to a / two_to b.
Proof.
  unfold Z.sub. rewrite two_to_plus. unfold two_to at 2. rewrite Qpower_opp.
  reflexivity.
Qed.

(** The binade of a positive rational. *)
Lemma ilog2_spec (q : Q) :
  0 < q -> two_to (ilog2 q) <= q /\ q < two_to (ilog2 q + 1).
Proof.
  intros Hq. destruct q as [a b]. unfold Qlt in Hq. cbn in Hq.
  assert (Ha : (0 < a)%Z) by lia.
  unfold ilog2. cbn [Qnum Qden].
  destruct (Z.log2_spec a Ha) as [La Ua].
  destruct (Z.log2_spec (Zpos b) (Pos2Z.is_pos b)) as [Lb Ub].
  pose proof (Z.log2_nonneg a) as Na. pose proof (Z.log2_nonneg (Zpos b)) as Nb.
  set (la := Z.log2 a) in *. set (lb := Z.log2 (Zpos b)) in *.
  assert (Eq : a # b == inject_Z a / inject_Z (Zpos b)) by apply Qmake_Qdiv.
  assert (Pb : 0 < inject_Z (Zpos b)) by reflexivity.
  assert (QLa : two_to la <= inject_Z a) by (rewrite two_to_Z, <- Zle_Qle; lia).
  assert (QUa : inject_Z a < two_to (la + 1)) by (rewrite two_to_Z, <- Zlt_Qlt; lia).
  assert (QLb : two_to lb <= inject_Z (Zpos b)) by (rewrite two_to_Z, <- Zle_Qle; lia).
  assert (QUb : inject_Z (Zpos b) < two_to (lb + 1)) by (rewrite two_to_Z, <- Zlt_Qlt; lia).
  pose proof (two_to_pos lb) as Plb. pose proof (two_to_pos la) as Pla.
  (* 2^(d-1) < q < 2^(d+1) *)
  assert (Hup : a # b < two_to (la - lb + 1)).
  { rewrite Eq. apply Qlt_shift_div_r; [exact Pb|].
    replace (la - lb + 1)%Z with ((la + 1) - lb)%Z by lia.
    rewrite two_to_minus.
    set (D := two_to (la + 1) / two_to lb).
    assert (HD : D * two_to lb == two_to (la + 1)) by (unfold D; field; lra).
    assert (PD : 0 < D).
    { unfold D. apply Qlt_shift_div_l; [exact Plb|]. pose proof (two_to_pos (la + 1)). lra. }
    nra. }
  assert (Hlo : two_to (la - lb - 1) <= a # b).
  { rewrite Eq. apply Qle_shift_div_l; [exact Pb|].
    replace (la - lb - 1)%Z with (la - (lb + 1))%Z by lia.
    rewrite two_to_minus.
    pose proof (two_to_pos (lb + 1)) as Plb1.
    set (D := two_to la / two_to (lb + 1)).
    assert (HD : D * two_to (lb + 1) == two_to la) by (unfold D; field; lra).
    assert (PD : 0 < D).
    { unfold D. apply Qlt_shift_div_l; [exact Plb1|]. lra. }
    nra. }
  destruct (Qle_bool (two_to (la - lb)) (a # b)) eqn:E.
  - apply Qle_bool_iff in E. split; [exact E | exact Hup].
  - apply not_true_iff_false in E. rewrite Qle_bool_iff in E.
    apply Qnot_le_lt in E. split; [exact Hlo|].
    replace (la - lb - 1 + 1)%Z with (la - lb)%Z by lia. exact E.
Qed.

(** The binade is determined by the two bounds. *)
Lemma binade_le (p q : Q) (e f : Z) :
  two_to e <= p -> q < two_to (f + 1) -> p <= q -> (e <= f)%Z.
Proof.
  intros Hp Hq Hpq.
  destruct (Z_le_gt_dec e f) as [H | H]; [exact H|]. exfalso.
  assert (two_to (f + 1) <= two_to e) by (apply two_to_le; lia). lra.
Qed.

Lemma ilog2_unique (q : Q) (e : Z) :
  two_to e <= q -> q < two_to (e + 1) -> ilog2 q = e.
Proof.
  intros L U.
  assert (Hq : 0 < q) by (pose proof (two_to_pos e); lra).
  destruct (ilog2_spec q Hq) as [L' U'].
  pose proof (binade_le q q e (ilog2 q) L U' ltac:(lra)).
  pose proof (binade_le q q (ilog2 q) e L' U ltac:(lra)). lia.
Qed.

Lemma ilog2_le (p q : Q) : 0 < p -> p <= q -> (ilog2 p <= ilog2 q)%Z.
Proof.
  intros Hp Hpq.
  destruct (ilog2_spec p Hp) as [L _].
  destruct (ilog2_spec q ltac:(lra)) as [_ U].
  exact (binade_le p q _ _ L U Hpq).
Qed.

Lemma ilog2_comp (p q : Q) : 0 < p -> p == q -> ilog2 p = ilog2 q.
Proof.
  intros Hp E. destruct (ilog2_spec p Hp) as [L U].
  symmetry. apply ilog2_unique; rewrite <- E; assumption.
Qed.

(** The nearest integer. *)
Lemma nearest_even_cases (q : Q) :
  (nearest_even q = Qfloor q /\ q - inject_Z (Qfloor q) <= 1 # 2)
  \/ (nearest_even q = (Qfloor q + 1)%Z /\ 1 # 2 <= q - inject_Z (Qfloor q)).
Proof.
  unfold nearest_even.
  destruct (Qcompare_spec (q - inject_Z (Qfloor q)) (1 # 2)) as [E | E | E].
  - destruct (Z.even (Qfloor q)); [left | right]; (split; [reflexivity | lra]).
  - left. split; [reflexivity | lra].
  - right. split; [reflexivity | lra].
Qed.

Lemma nearest_even_Z (n : Z) : nearest_even (inject_Z n) = n.
Proof.
  unfold nearest_even. rewrite Qfloor_Z.
  destruct (Qcompare_spec (inject_Z n - inject_Z n) (1 # 2)) as [E | E | E];
    [exfalso; lra | reflexivity | exfalso; lra].
Qed.

Lemma nearest_even_comp (p q : Q) : p == q -> nearest_even p = nearest_even q.
Proof.
  intros E. unfold nearest_even. rewrite (Qfloor_comp p q E).
  rewrite (Qcompare_comp (p - inject_Z (Qfloor q)) (q - inject_Z (Qfloor q))
             ltac:(rewrite E; reflexivity) (1 # 2) (1 # 2) ltac:(reflexivity)).
  reflexivity.
Qed.

Lemma nearest_even_le (p q : Q) : p <= q -> (nearest_even p <= nearest_even q)%Z.
Proof.
  intros H. pose proof (Qfloor_resp_le p q H) as Hf.
  destruct (Z.eq_dec (Qfloor p) (Qfloor q)) as [E | N].
  - unfold nearest_even. rewrite E.
    destruct (Qcompare_spec (p - inject_Z (Qfloor q)) (1 # 2)) as [Ep | Ep | Ep];
      destruct (Qcompare_spec (q - inject_Z (Qfloor q)) (1 # 2)) as [Eq | Eq | Eq];
      try (destruct (Z.even (Qfloor q))); try lia; exfalso; lra.
  - destruct (nearest_even_cases p) as [[-> _] | [-> _]];
      destruct (nearest_even_cases q) as [[-> _] | [-> _]]; lia.
Qed.

(** The nearest integer is at most one half away. *)
Lemma nearest_even_near (q : Q) :
  inject_Z (nearest_even q) - (1 # 2) <= q <= inject_Z (nearest_even q) + (1 # 2).
Proof.
  pose proof (Qfloor_le q) as L. pose proof (Qlt_floor q) as U.
  rewrite inject_Z_plus in U. change (inject_Z 1) with 1 in U.
  destruct (nearest_even_cases q) as [[-> H] | [-> H]].
  - split; lra.
  - rewrite inject_Z_plus. change (inject_Z 1) with 1. split; lra.
Qed.


Lemma div_two_to_le (a b : Q) (k : Z) : a <= b -> a / two_to k <= b / two_to k.
Proof.
  intros H. unfold Qdiv. apply Qmult_le_compat_r; [exact H|].
  apply Qlt_le_weak, Qinv_lt_0_compat, two_to_pos.
Qed.

Lemma times_two_to_le (m n : Z) (k : Z) :
  (m <= n)%Z -> inject_Z m * two_to k <= inject_Z n * two_to k.
Proof.
  intros H. apply Qmult_le_compat_r; [rewrite <- Zle_Qle; exact H|].
  apply Qlt_le_weak, two_to_pos.
Qed.

Lemma two_to_div (a b : Z) : two_to a / two_to b == two_to (a - b).
Proof. symmetry. apply two_to_minus. Qed.

Lemma ulp_exponent_le (p q : Q) :
  0 < p -> p <= q -> (ulp_exponent p <= ulp_exponent q)%Z.
Proof.
  intros Hp H. unfold ulp_exponent. pose proof (ilog2_le p q Hp H). lia.
Qed.

Lemma rnd_pos_comp (p q : Q) : 0 < p -> p == q -> rnd_pos p == rnd_pos q.
Proof.
  intros Hp E. unfold rnd_pos, ulp_exponent. rewrite (ilog2_comp p q Hp E).
  rewrite (nearest_even_comp (p / two_to (Z.max (ilog2 q - 52) (-1074)))
             (q / two_to (Z.max (ilog2 q - 52) (-1074)))) by (rewrite E; reflexivity).
  reflexivity.
Qed.

Lemma rnd_pos_nonneg (q : Q) : 0 < q -> 0 <= rnd_pos q.
Proof.
  intros Hq. unfold rnd_pos.
  pose proof (two_to_pos (ulp_exponent q)) as Pk.
  assert (H : (0 <= nearest_even (q / two_to (ulp_exponent q)))%Z).
  { rewrite <- (nearest_even_Z 0). apply nearest_even_le.
    change (inject_Z 0) with 0. apply Qdiv_nonneg; lra. }
  apply Qmult_le_0_compat; [change 0 with (inject_Z 0); rewrite <- Zle_Qle; exact H | lra].
Qed.

(** Rounding is monotone: on the positive rationals, *)
Lemma rnd_pos_le (p q : Q) : 0 < p -> p <= q -> rnd_pos p <= rnd_pos q.
Proof.
  intros Hp H.
  assert (Hq : 0 < q) by lra.
  pose proof (ulp_exponent_le p q Hp H) as Hk.
  destruct (Z.eq_dec (ulp_exponent p) (ulp_exponent q)) as [E | N].
  - unfold rnd_pos. rewrite E. apply times_two_to_le, nearest_even_le, div_two_to_le, H.
  - assert (Hlt : (ulp_exponent p < ulp_exponent q)%Z) by lia. clear N Hk.
    destruct (ilog2_spec p Hp) as [_ Up]. destruct (ilog2_spec q Hq) as [Lq _].
    unfold ulp_exponent in Hlt.
    set (ep := ilog2 p) in *. set (eq := ilog2 q) in *.
    assert (Hkq : ulp_exponent q = (eq - 52)%Z) by (unfold ulp_exponent; fold eq; lia).
    assert (Hkp : (ulp_exponent p < eq - 52)%Z) by (unfold ulp_exponent; fold ep; lia).
    assert (Hkp' : (ep - 52 <= ulp_exponent p)%Z) by (unfold ulp_exponent; fold ep; lia).
    assert (HB : p <= two_to eq).
    { apply Qlt_le_weak. apply Qlt_le_trans with (two_to (ep + 1)); [exact Up|].
      apply two_to_le. lia. }
    apply Qle_trans with (two_to eq).
    + (* rnd_pos p <= 2^eq *)
      unfold rnd_pos. set (k := ulp_exponent p) in *.
      assert (E : two_to eq / two_to k == inject_Z (2 ^ (eq - k))).
      { rewrite two_to_div. apply two_to_Z. lia. }
      assert (Hn : (nearest_even (p / two_to k) <= 2 ^ (eq - k))%Z).
      { rewrite <- (nearest_even_Z (2 ^ (eq - k))). apply nearest_even_le.
        rewrite <- E. apply div_two_to_le, HB. }
      apply Qle_trans with (inject_Z (2 ^ (eq - k)) * two_to k);
        [apply times_two_to_le, Hn|].
      rewrite <- two_to_Z by lia. rewrite <- two_to_plus.
      replace (eq - k + k)%Z with eq by lia. lra.
    + (* 2^eq <= rnd_pos q *)
      unfold rnd_pos. rewrite Hkq.
      assert (E : two_to eq / two_to (eq - 52) == inject_Z (2 ^ 52)).
      { rewrite two_to_div. replace (eq - (eq - 52))%Z with 52%Z by lia. reflexivity. }
      assert (Hn : (2 ^ 52 <= nearest_even (q / two_to (eq - 52)))%Z).
      { rewrite <- (nearest_even_Z (2 ^ 52)) at 1. apply nearest_even_le.
        rewrite <- E. apply div_two_to_le, Lq. }
      apply Qle_trans with (inject_Z (2 ^ 52) * two_to (eq - 52));
        [|apply times_two_to_le, Hn].
      change (inject_Z (2 ^ 52)) with (two_to 52). rewrite <- two_to_plus.
      replace (52 + (eq - 52))%Z with eq by lia. lra.
Qed.

(** and on all of them. *)
Lemma rnd_0 : rnd 0 = 0.
Proof. reflexivity. Qed.

Lemma rnd_positive (q : Q) : 0 < q -> rnd q = rnd_pos q.
Proof.
  intros H. unfold rnd. destruct (Qcompare_spec q 0) as [E | E | E];
    [exfalso; lra | exfalso; lra | reflexivity].
Qed.

Lemma rnd_negative (q : Q) : q < 0 -> rnd q = - rnd_pos (- q).
Proof.
  intros H. unfold rnd. destruct (Qcompare_spec q 0) as [E | E | E];
    [exfalso; lra | reflexivity | exfalso; lra].
Qed.

Lemma rnd_zero (q : Q) : q == 0 -> rnd q = 0.
Proof.
  intros H. unfold rnd. destruct (Qcompare_spec q 0) as [E | E | E];
    [reflexivity | exfalso; lra | exfalso; lra].
Qed.

Lemma rnd_nonneg (q : Q) : 0 <= q -> 0 <= rnd q.
Proof.
  intros H. destruct (Qlt_le_dec 0 q) as [P | P].
  - rewrite (rnd_positive q P). apply rnd_pos_nonneg, P.
  - rewrite (rnd_zero q) by lra. lra.
Qed.

Lemma rnd_nonpos (q : Q) : q <= 0 -> rnd q <= 0.
Proof.
  intros H. destruct (Qlt_le_dec q 0) as [P | P].
  - rewrite (rnd_negative q P).
    pose proof (rnd_pos_nonneg (- q) ltac:(lra)). lra.
  - rewrite (rnd_zero q) by lra. lra.
Qed.

Lemma rnd_le (p q : Q) : p <= q -> rnd p <= rnd q.
Proof.
  intros H.
  destruct (Qlt_le_dec 0 p) as [Pp | Pp].
  - rewrite (rnd_positive p Pp), (rnd_positive q) by lra. apply rnd_pos_le; assumption.
  - destruct (Qlt_le_dec q 0) as [Nq | Nq].
    + rewrite (rnd_negative p), (rnd_negative q) by lra.
      pose proof (rnd_pos_le (- q) (- p) ltac:(lra) ltac:(lra)). lra.
    + pose proof (rnd_nonpos p Pp). pose proof (rnd_nonneg q Nq). lra.
Qed.

Lemma rnd_comp (p q : Q) : p == q -> rnd p == rnd q.
Proof.
  intros E. apply Qle_antisym; apply rnd_le; rewrite E; lra.
Qed.

Lemma rnd_opp (q : Q) : rnd (- q) == - rnd q.
Proof.
  destruct (Qlt_le_dec 0 q) as [P | P]; [|destruct (Qlt_le_dec q 0) as [N | N]].
  - rewrite (rnd_negative (- q)) by lra. rewrite (rnd_positive q P).
    rewrite (rnd_pos_comp (- - q) q) by (try lra; ring). reflexivity.
  - rewrite (rnd_positive (- q)) by lra. rewrite (rnd_negative q N). ring.
  - rewrite (rnd_zero q), (rnd_zero (- q)) by lra. reflexivity.
Qed.

(** Every rounded value is a multiple of the smallest positive one. *)
Lemma rnd_pos_grid (q : Q) : exists z, rnd_pos q == inject_Z z * MIN_VALUE.
Proof.
  unfold rnd_pos, MIN_VALUE. set (k := ulp_exponent q).
  assert (Hk : (-1074 <= k)%Z) by (unfold k, ulp_exponent; lia).
  exists (nearest_even (q / two_to k) * 2 ^ (k + 1074))%Z.
  rewrite inject_Z_mult, <- two_to_Z by lia.
  rewrite <- Qmult_assoc, <- two_to_plus.
  replace (k + 1074 + -1074)%Z with k by lia. reflexivity.
Qed.

Lemma rnd_grid (q : Q) : exists z, rnd q == inject_Z z * MIN_VALUE.
Proof.
  unfold rnd. destruct (Qcompare q 0).
  - exists 0%Z. ring.
  - destruct (rnd_pos_grid (- q)) as (z & Hz). exists (- z)%Z.
    rewrite Hz, inject_Z_opp. ring.
  - apply rnd_pos_grid.
Qed.

End Rounding.

(* ------------------------------------------------------------------ *)
(** *** Binary64 values and results                                    *)

Module Doubles.
Import Binary64 Rounding.


Lemma MIN_VALUE_double : rnd MIN_VALUE == MIN_VALUE.
Proof. vm_compute. reflexivity. Qed.


Lemma MIN_VALUE_pos : 0 < MIN_VALUE.
Proof. apply two_to_pos. Qed.


(** What an arithmetic result is. *)
Lemma fin_cases (q : Q) :
  (exists r, fin q = Fin r /\ r == rnd q /\ - two_to 1024 < r < two_to 1024)
  \/ (fin q = PInf /\ two_to 1024 <= rnd q)
  \/ (fin q = NInf /\ rnd q <= - two_to 1024).
Proof.
  unfold fin.
  destruct (Qle_bool (two_to 1024) (rnd q)) eqn:E1.
  - right; left. apply Qle_bool_iff in E1. split; [reflexivity | exact E1].
  - apply not_true_iff_false in E1. rewrite Qle_bool_iff in E1.
    destruct (Qle_bool (rnd q) (- two_to 1024)) eqn:E2.
    + right; right. apply Qle_bool_iff in E2. split; [reflexivity | exact E2].
    + apply not_true_iff_false in E2. rewrite Qle_bool_iff in E2.
      left. exists (Qred (rnd q)). split; [reflexivity|].
      rewrite Qred_correct. split; [reflexivity|]. split; lra.
Qed.




Lemma fin_nonpos (q : Q) :
  q <= 0 -> (exists r, fin q = Fin r /\ r == rnd q /\ r <= 0) \/ fin q = NInf.
Proof.
  intros H. pose proof (rnd_nonpos q H) as Hr. pose proof (two_to_pos 1024) as P.
  destruct (fin_cases q) as [(r & E & Er & _) | [(_ & Hn) | (E & _)]].
  - left. exists r. split; [exact E|]. split; [exact Er|]. rewrite Er. exact Hr.
  - exfalso. lra.
  - right. exact E.
Qed.

Lemma fin_double (q : Q) : double q -> exists r, fin q = Fin r /\ r == q.
Proof.
  intros [Hr Hb]. apply Qabs_Qlt_condition in Hb.
  destruct (fin_cases q) as [(r & E & Er & _) | [(_ & H) | (_ & H)]].
  - exists r. split; [exact E|]. rewrite Er. exact Hr.
  - exfalso. lra.
  - exfalso. lra.
Qed.

(** Two different binary64 values differ by at least the smallest
    positive one, so their difference does not round to zero. *)
Lemma double_gap (p q : Q) :
  rnd p == p -> rnd q == q -> p < q -> MIN_VALUE <= q - p.
Proof.
  intros Hp Hq H.
  destruct (rnd_grid p) as (zp & Ep). destruct (rnd_grid q) as (zq & Eq).
  rewrite Hp in Ep. rewrite Hq in Eq. pose proof MIN_VALUE_pos as P.
  assert (Hz : (zp < zq)%Z).
  { destruct (Z_lt_ge_dec zp zq) as [L | G]; [exact L|]. exfalso.
    assert (inject_Z zq <= inject_Z zp) by (rewrite <- Zle_Qle; lia). nra. }
  assert (H1 : inject_Z zp + 1 <= inject_Z zq).
  { change 1 with (inject_Z 1). rewrite <- inject_Z_plus, <- Zle_Qle. lia. }
  nra.
Qed.

Lemma rnd_gap_pos (p q : Q) : rnd p == p -> rnd q == q -> p < q -> 0 < rnd (q - p).
Proof.
  intros Hp Hq H. pose proof (double_gap p q Hp Hq H) as G.
  pose proof (rnd_le _ _ G) as R. rewrite MIN_VALUE_double in R.
  pose proof MIN_VALUE_pos. lra.
Qed.



End Doubles.

(* ------------------------------------------------------------------ *)
(** *** Rounding is idempotent                                         *)

Module Idempotence.
Import Binary64 Rounding Doubles.

(** A multiple of a power of two that is at least the unit in the last
    place is not changed by rounding. *)
Lemma rnd_pos_fixed (q : Q) (m j : Z) :
  0 < q -> q == inject_Z m * two_to j -> (ulp_exponent q <= j)%Z -> rnd_pos q == q.
Proof.
  intros Hq E Hj. unfold rnd_pos. set (k := ulp_exponent q) in *.
  pose proof (two_to_pos k) as Pk.
  assert (Ej : two_to j == inject_Z (2 ^ (j - k)) * two_to k).
  { rewrite <- two_to_Z by lia. rewrite <- two_to_plus.
    replace (j - k + k)%Z with j by lia. reflexivity. }
  rewrite (nearest_even_comp (q / two_to k) (inject_Z (m * 2 ^ (j - k)))).
  - rewrite nearest_even_Z, inject_Z_mult, E, Ej. ring.
  - rewrite inject_Z_mult, E, Ej. field. lra.
Qed.

Lemma half_is : two_to (-1) == 1 # 2.
Proof. vm_compute. reflexivity. Qed.

Lemma rnd_pos_idem (q : Q) : 0 < q -> 0 < rnd_pos q -> rnd_pos (rnd_pos q) == rnd_pos q.
Proof.
  intros Hq Hr.
  destruct (ilog2_spec q Hq) as [L U]. 
  assert (Hk : ulp_exponent q = Z.max (ilog2 q - 52) (-1074)) by reflexivity.
  set (e := ilog2 q) in *. set (k := ulp_exponent q) in *.
  pose proof (two_to_pos k) as Pk.
  assert (Er : rnd_pos q == inject_Z (nearest_even (q / two_to k)) * two_to k)
    by reflexivity.
  set (r := rnd_pos q) in *. set (n := nearest_even (q / two_to k)) in *.
  assert (Hn : (0 < n)%Z).
  { destruct (Z_lt_ge_dec 0 n) as [P | P]; [exact P|]. exfalso.
    assert (inject_Z n <= 0) by (change 0 with (inject_Z 0); rewrite <- Zle_Qle; lia).
    nra. }
  destruct (Z_lt_ge_dec (e + 1) k) as [Small | Big].
  - (* below half of the smallest positive value *)
    exfalso.
    pose proof (nearest_even_near (q / two_to k)) as [N1 _]. fold n in N1.
    assert (Hh : q / two_to k < 1 # 2).
    { apply Qlt_shift_div_r; [exact Pk|].
      assert (T : two_to (e + 1) <= two_to (-1 + k)) by (apply two_to_le; lia).
      rewrite (two_to_plus (-1) k), half_is in T. lra. }
    assert (inject_Z n < 1) by lra.
    assert (n < 1)%Z by (rewrite Zlt_Qlt; exact H). lia.
  - set (N := (2 ^ (e + 1 - k))%Z).
    assert (ET : two_to (e + 1) == inject_Z N * two_to k).
    { unfold N. rewrite <- two_to_Z by lia. rewrite <- two_to_plus.
      replace (e + 1 - k + k)%Z with (e + 1)%Z by lia. reflexivity. }
    assert (HnN : (n <= N)%Z).
    { unfold n. rewrite <- (nearest_even_Z N). apply nearest_even_le.
      apply Qle_shift_div_r; [exact Pk|]. rewrite <- ET. lra. }
    destruct (Z_lt_ge_dec n N) as [Lt | Ge].
    + (* the rounded value stays in the binade *)
      assert (Hlt : r < two_to (e + 1)).
      { rewrite Er, ET. apply Qmult_lt_compat_r; [exact Pk|].
        rewrite <- Zlt_Qlt. exact Lt. }
      destruct (ilog2_spec r Hr) as [Lr _].
      assert (He : (ilog2 r <= e)%Z) by (apply (binade_le r r); [exact Lr | exact Hlt | lra]).
      apply (rnd_pos_fixed r n k); [exact Hr | exact Er|].
      unfold ulp_exponent. lia.
    + (* the rounded value is the next power of two *)
      assert (En : n = N) by lia.
      assert (ErT : r == two_to (e + 1)) by (rewrite Er, ET, En; reflexivity).
      assert (He : ilog2 r = (e + 1)%Z).
      { apply ilog2_unique; rewrite ErT; [lra|]. apply two_to_lt. lia. }
      apply (rnd_pos_fixed r 1 (e + 1)); [exact Hr | rewrite ErT; ring|].
      unfold ulp_exponent. rewrite He. lia.
Qed.

#[global] Instance rnd_proper : Proper (Qeq ==> Qeq) rnd.
Proof. intros p q E. apply rnd_comp, E. Qed.

Lemma rnd_idem_pos (q : Q) : 0 < q -> rnd (rnd q) == rnd q.
Proof.
  intros Hq. rewrite (rnd_positive q Hq).
  pose proof (rnd_pos_nonneg q Hq) as N.
  destruct (Qlt_le_dec 0 (rnd_pos q)) as [P | Z].
  - rewrite (rnd_positive _ P). apply rnd_pos_idem; assumption.
  - rewrite (rnd_zero (rnd_pos q)) by lra. lra.
Qed.

(** Rounding a rounded value changes nothing. *)
Lemma rnd_idem (q : Q) : rnd (rnd q) == rnd q.
Proof.
  destruct (Qlt_le_dec 0 q) as [P | P]; [|destruct (Qlt_le_dec q 0) as [N | N]].
  - apply rnd_idem_pos, P.
  - assert (E : rnd q == - rnd (- q)) by (rewrite rnd_opp; ring).
    rewrite E, rnd_opp, rnd_idem_pos by lra. reflexivity.
  - rewrite (rnd_zero q) by lra. rewrite rnd_0. reflexivity.
Qed.

(** Every finite result of an operation is a binary64 value. *)
Lemma fin_is_double (q r : Q) : fin q = Fin r -> double r.
Proof.
  intros H.
  destruct (fin_cases q) as [(r' & E & Er & B) | [(E & _) | (E & _)]];
    rewrite E in H; try discriminate.
  injection H as <-. split.
  - rewrite Er. apply rnd_idem.
  - apply Qabs_Qlt_condition. exact B.
Qed.

Lemma fin_number (q : Q) : number (fin q).
Proof.
  destruct (fin q) as [r| | |] eqn:E; cbn; try exact I.
  apply (fin_is_double q r E).
Qed.

End Idempotence.

(* ------------------------------------------------------------------ *)
(** *** The deviation function in binary64                             *)

Module Deviation64.
Import Binary64 Rounding Doubles Idempotence.

Lemma inside_test (value mn mx : Q) :
  (geb (Fin value) (Fin mn) && leb (Fin value) (Fin mx) = true) <-> mn <= value <= mx.
Proof.
  unfold geb, leb. rewrite andb_true_iff, !Qle_bool_iff. reflexivity.
Qed.


Lemma calculateDeviation_out (value mn mx : Q) :
  ~ mn <= value <= mx ->
  Scoring64.calculateDeviation (Fin value) (mn, mx)
  = JsNum.min (Binary64.div (abs (Binary64.sub (Fin value) (center64 mn mx)))
                 (Binary64.sub (Fin mx) (Fin mn))) (Fin 1).
Proof.
  intros H. rewrite <- inside_test in H. apply not_true_is_false in H.
  unfold Scoring64.calculateDeviation. rewrite H. reflexivity.
Qed.



(** The centre is never NaN. *)
Lemma center_cases (mn mx : Q) :
  (exists c, center64 mn mx = Fin c) \/ center64 mn mx = PInf \/ center64 mn mx = NInf.
Proof.
  unfold center64, Binary64.add.
  destruct (fin_cases (mn + mx)) as [(s & -> & _) | [(-> & _) | (-> & _)]].
  - unfold Binary64.div. change (Qzero_b 2) with false. cbv iota.
    destruct (fin_cases (s / 2)) as [(c & -> & _) | [(-> & _) | (-> & _)]].
    + left. exists c. reflexivity.
    + right; left; reflexivity.
    + right; right; reflexivity.
  - right; left. reflexivity.
  - right; right. reflexivity.
Qed.


(** The distance of a value from a centre that is not NaN. *)
Lemma distance_cases (value : Q) (c : num) :
  is_nan c = false -> nonneg_or_inf (abs (Binary64.sub (Fin value) c)).
Proof.
  intros Hc. destruct c as [x | | |]; try discriminate Hc; cbn; try exact I.
  destruct (fin_cases (value + - x)) as [(r & -> & _) | [(-> & _) | (-> & _)]];
    cbn; try exact I. apply Qabs_nonneg.
Qed.


Lemma pos_nonneg (a : num) : pos_or_inf a -> nonneg_or_inf a.
Proof. destruct a; cbn; try tauto. lra. Qed.










End Deviation64.





(* ------------------------------------------------------------------ *)
(** *** Scores in binary64                                             *)

Module Scores64.
Import Binary64 Rounding Doubles Idempotence.





Lemma number_add (a b : num) : number (Binary64.add a b).
Proof.
  unfold Binary64.add.
  destruct a as [x | | |], b as [y | | |]; try exact I. apply fin_number.
Qed.














End Scores64.








(** Rounding decides a score.  The weighted eye deviation
    0.4*1 + 0.35*1 + 0.25*0.7 is 0.925 over the rationals, and the score
    100*(1 - 0.925) = 7.5 would round to 8; in binary64 the score is
    7.499999999999996 and rounds to 7. *)
Lemma calculateEyeScore_rounding :
  round (Metrics.calculateEyeScore Metrics.default_calculator
           {| leftEye := eye_of 4 7; rightEye := eye_of 4 7;
              interPupillaryDistance := Fin 0.3; eyeSymmetry := Fin 1.3 |}) = Fin 8
  /\ round (Scoring64.calculateEyeScore Scoring64.default_calculator skewed_eyes) = Fin 7
  /\ Scoring64.calculateEyeScore Scoring64.default_calculator skewed_eyes
     = Fin (8444249301319675 # 1125899906842624).
Proof.
  repeat split; vm_compute; reflexivity.
Qed.

(** The floating-point unit computes the same score. *)
Lemma calculateEyeScore_hardware :
  Fin (Qred (Hardware.value Hardware.skewed_eye_score))
  = Scoring64.calculateEyeScore Scoring64.default_calculator skewed_eyes.
Proof.
  vm_compute. reflexivity.
Qed.

(** On the sample numbers the four operations of [Binary64] give the
    results of the floating-point unit. *)
Lemma Binary64_agrees :
  Hardware.agree PrimFloat.add Binary64.add Hardware.samples = true
  /\ Hardware.agree PrimFloat.sub Binary64.sub Hardware.samples = true
  /\ Hardware.agree PrimFloat.mul Binary64.mul Hardware.samples = true
  /\ Hardware.agree PrimFloat.div Binary64.div Hardware.samples = true.
Proof.
  split; [|split; [|split]]; vm_compute; reflexivity.
Qed.

(* ------------------------------------------------------------------ *)
(** *** The validator                                                  *)

(** C3.  With an empty landmark list [validateImage] returns at once, whatever
    the image is and whatever the document (be it an image whose pixels
    cannot be read, or a document without canvas context, which would make
    the later checks throw): not valid, confidence 0, and the single issue
    [no_face_detected] of severity high. *)
Theorem validateImage_no_face {M : MathLib} (this : QualityValidator)
    (document : Document) (imageElement : ImageElement) :
  validateImage this document imageElement []
  = Ok {| isValid := false;
          issues := [{| type := no_face_detected;
                        severity := high;
                        message := "No face detected in the image. Please ensure your face is clearly visible.";
                        value := None;
                        threshold := None |}];
          confidence := 0;
          recommendations := [] |}.
Proof.
  unfold validateImage.
  (* the test [landmarks.length === 0] succeeds: nothing else is evaluated *)
  change (List.length (@nil NormalizedLandmark) =? 0)%nat with true.
  cbv beta iota zeta. unfold rethrow. cbn [app].
  (* no issue type of the list has a guidance string, and the result is
     not valid: the recommendations stay empty *)
  unfold createResult, NO_FACE_ISSUE, has_type.
  cbn [existsb type QualityIssueType_beq orb andb List.length Nat.eqb].
  reflexivity.
Qed.

(** C4.  Fewer than 468 landmarks: the extractor throws the error coded
    [INSUFFICIENT_LANDMARKS] and returns no features. *)
Theorem calculateFacialFeatures_insufficient {M : MathLib}
    (landmarks : list NormalizedLandmark) :
  (List.length landmarks < 468)%nat ->
  calculateFacialFeatures landmarks
  = Throw (MetricsCalculationError
             ("Insufficient landmarks: expected 468, got "
              ++ show_nat (List.length landmarks))
             INSUFFICIENT_LANDMARKS feature_general None)
  /\ forall features, calculateFacialFeatures landmarks <> Ok features.
Proof.
  intros H. apply Nat.ltb_lt in H. unfold calculateFacialFeatures. rewrite H.
  split; [reflexivity | discriminate].
Qed.

(** Ten landmarks. *)
Lemma calculateFacialFeatures_insufficient_witness :
  (List.length (firstn 10 grid_landmarks) < 468)%nat
  /\ forall features,
       @calculateFacialFeatures coarse_math (firstn 10 grid_landmarks) <> Ok features.
Proof.
  assert (H : (List.length (firstn 10 grid_landmarks) < 468)%nat)
    by (vm_compute; lia).
  split; [exact H |].
  apply (@calculateFacialFeatures_insufficient coarse_math _ H).
Defined.

Lemma count_severity_cons (s : Severity) (i : QualityIssue) (rest : list QualityIssue) :
  count_severity s (i :: rest)
  = ((if has_severity s i then 1 else 0) + count_severity s rest)%Z.
Proof.
  unfold count_severity. cbn [filter].
  destruct (has_severity s i); cbn [List.length]; lia.
Qed.

Lemma penalties_fold (issues : list QualityIssue) (c : Z) :
  fold_left
    (fun confidence issue =>
       match issue.(severity) with
       | high => confidence - 30
       | medium => confidence - 15
       | low => confidence - 5
       end%Z)
    issues c
  = (c - 30 * count_severity high issues - 15 * count_severity medium issues
     - 5 * count_severity low issues)%Z.
Proof.
  revert c. induction issues as [|i rest IH]; intros c.
  - cbn. lia.
  - cbn [fold_left]. rewrite IH, !count_severity_cons. unfold has_severity.
    destruct (severity i); lia.
Qed.

Lemma calculateConfidence_formula (this : QualityValidator)
    (issues : list QualityIssue) (iq : ImageQualityMetrics) (fq : FaceQualityMetrics) :
  calculateConfidence this issues iq fq = confidence_formula this issues iq fq.
Proof.
  unfold calculateConfidence, confidence_formula, confidence_bonus.
  rewrite penalties_fold.
  repeat match goal with |- context [if ?b then _ else _] => destruct b end; lia.
Qed.

Lemma no_high_iff (issues : list QualityIssue) :
  (List.length (filter is_high issues) =? 0)%nat = true
  <-> forall issue, In issue issues -> issue.(severity) <> high.
Proof.
  rewrite Nat.eqb_eq. induction issues as [|i rest IH].
  - cbn. split; [intros _ ? [] | reflexivity].
  - cbn [filter]. unfold is_high at 1. split.
    + intros H issue [<- | Hin].
      * destruct (severity i); [discriminate | discriminate | cbn in H; lia].
      * apply IH; [|exact Hin]. destruct (severity i); [exact H | exact H | cbn in H; lia].
    + intros H. destruct (severity i) eqn:E.
      * apply IH. intros issue Hin. apply H. right; exact Hin.
      * apply IH. intros issue Hin. apply H. right; exact Hin.
      * exfalso. apply (H i); [left; reflexivity | exact E].
Qed.

(** What a normal completion of [validateImage] on a non-empty landmark list
    went through. *)
Lemma validateImage_Ok_inv {M : MathLib} (this : QualityValidator)
    (document : Document) (imageElement : ImageElement)
    (landmarks : list NormalizedLandmark) (r : QualityCheckResult) :
  landmarks <> [] ->
  validateImage this document imageElement landmarks = Ok r ->
  exists iq fq,
    analyzeImageQuality document imageElement = Ok iq
    /\ analyzeFaceQuality landmarks imageElement = Ok fq
    /\ let issues := validateImageQuality this iq ++ validateFaceQuality this fq in
       r = createResult
             (List.length (filter is_high issues) =? 0)%nat issues
             (calculateConfidence this issues iq fq).
Proof.
  intros Hne H. unfold validateImage in H.
  destruct landmarks as [|l0 rest]; [contradiction|].
  cbn [List.length Nat.eqb estimateFaceCount Nat.ltb Nat.leb] in H.
  destruct (analyzeImageQuality document imageElement) as [iq|e]; [|discriminate].
  destruct (analyzeFaceQuality (l0 :: rest) imageElement) as [fq|e]; [|discriminate].
  cbn in H. exists iq, fq. repeat split. injection H as <-. reflexivity.
Qed.

(** C5.  When [validateImage] completes on a non-empty landmark list, the
    confidence is 100 - 30/15/5 per high/medium/low issue plus the
    bonuses (contrast above 1.5 times its threshold: 5; blur below half its
    threshold: 5; completeness above 0.95: 10; symmetry above 0.9: 5),
    clamped to [0,100]; and the result is valid exactly when no issue is
    of severity high. *)
Theorem validateImage_confidence {M : MathLib} (this : QualityValidator)
    (document : Document) (imageElement : ImageElement)
    (landmarks : list NormalizedLandmark) (r : QualityCheckResult) :
  landmarks <> [] ->
  validateImage this document imageElement landmarks = Ok r ->
  (exists iq fq,
     analyzeImageQuality document imageElement = Ok iq
     /\ analyzeFaceQuality landmarks imageElement = Ok fq
     /\ r.(confidence) = confidence_formula this r.(issues) iq fq)
  /\ (0 <= r.(confidence) <= 100)%Z
  /\ (r.(isValid) = true
      <-> forall issue, In issue r.(issues) -> issue.(severity) <> high).
Proof.
  intros Hne H.
  destruct (validateImage_Ok_inv this document imageElement landmarks r Hne H)
    as (iq & fq & Hiq & Hfq & Hr).
  cbv zeta in Hr. subst r. cbn [confidence issues isValid createResult].
  rewrite calculateConfidence_formula. split; [|split].
  - exists iq, fq. repeat split; assumption.
  - unfold confidence_formula. lia.
  - apply no_high_iff.
Qed.

(** The centred face in front of a sharp, contrasted image. *)
Lemma validateImage_confidence_witness :
  centered_landmarks <> []
  /\ exists r,
       @validateImage default_validator coarse_math browser checkerboard
         centered_landmarks = Ok r
       /\ (0 <= r.(confidence) <= 100)%Z.
Proof.
  assert (Hne : centered_landmarks <> []) by (vm_compute; discriminate).
  split; [exact Hne|].
  pose (r := {| isValid := true; issues := []; confidence := 100;
                recommendations := [REC_OK] |}).
  assert (E : @validateImage default_validator coarse_math browser checkerboard
                centered_landmarks = Ok r) by (vm_compute; reflexivity).
  exists r. split; [exact E|].
  apply (@validateImage_confidence coarse_math default_validator browser
           checkerboard centered_landmarks r Hne E).
Defined.

(* ------------------------------------------------------------------ *)
(** *** Recommendations                                                *)

Lemma has_type_false_iff (issues : list QualityIssue) (t : QualityIssueType) :
  has_type issues t = false <-> forall issue, In issue issues -> issue.(type) <> t.
Proof.
  unfold has_type. induction issues as [|i rest IH]; cbn [existsb].
  - split; [intros _ ? [] | reflexivity].
  - rewrite orb_false_iff, IH. split.
    + intros [Hi Hrest] issue [<- | Hin]; [|apply Hrest; exact Hin].
      intros E. rewrite E in Hi.
      destruct t; discriminate.
    + intros H. split.
      * destruct (QualityIssueType_beq (type i) t) eqn:E; [|reflexivity].
        exfalso. apply (H i); [left; reflexivity|].
        destruct (type i), t; (reflexivity || discriminate).
      * intros issue Hin. apply H. right; exact Hin.
Qed.

Lemma no_guided_iff (issues : list QualityIssue) :
  (forall issue, In issue issues -> guided issue.(type) = false)
  <-> has_type issues brightness = false /\ has_type issues poor_lighting = false
      /\ has_type issues face_angle = false /\ has_type issues face_size = false
      /\ has_type issues blur = false.
Proof.
  rewrite !has_type_false_iff. split.
  - intros H. repeat split; intros issue Hin E; specialize (H issue Hin);
      rewrite E in H; discriminate.
  - intros (H1 & H2 & H3 & H4 & H5) issue Hin.
    specialize (H1 issue Hin). specialize (H2 issue Hin). specialize (H3 issue Hin).
    specialize (H4 issue Hin). specialize (H5 issue Hin).
    destruct (type issue); try reflexivity; congruence.
Qed.

Ltac rec_unfold := unfold REC_LIGHTING, REC_ANGLE, REC_SIZE, REC_BLUR, REC_OK in *.

(** Decide [In REC_OK l] and its consequences on a literal list. *)
Ltac positive_message :=
  split;
  [ let H := fresh "H" in
    intros H; cbn [In] in H; rec_unfold;
    repeat (destruct H as [H | H]; [try discriminate H |]);
    try contradiction; repeat split; reflexivity
  | let H := fresh "H" in
    intros [H ?]; decompose [and] H; try discriminate;
    cbn [In]; auto ].

(** C6, as the code has it.  The recommendations hold each guidance
    string once when an issue of its type is present (lighting for
    brightness or poor_lighting, then face_angle, face_size, blur) and not
    otherwise, however many issues of the type there are; and they hold
    the positive message exactly when no guidance string was emitted and
    the result is valid. *)
Theorem createResult_recommendations (valid : bool) (issues : list QualityIssue)
    (confidence : Z) :
  let r := createResult valid issues confidence in
  count_occ string_dec r.(recommendations) REC_LIGHTING
  = once (has_type issues brightness || has_type issues poor_lighting)
  /\ count_occ string_dec r.(recommendations) REC_ANGLE = once (has_type issues face_angle)
  /\ count_occ string_dec r.(recommendations) REC_SIZE = once (has_type issues face_size)
  /\ count_occ string_dec r.(recommendations) REC_BLUR = once (has_type issues blur)
  /\ (In REC_OK r.(recommendations)
      <-> (forall issue, In issue issues -> guided issue.(type) = false)
          /\ valid = true)
  /\ (forall s, In s r.(recommendations) ->
        In s [REC_LIGHTING; REC_ANGLE; REC_SIZE; REC_BLUR; REC_OK]).
Proof.
  cbv zeta. rewrite no_guided_iff. unfold createResult. cbn [recommendations].
  destruct (has_type issues brightness), (has_type issues poor_lighting),
    (has_type issues face_angle), (has_type issues face_size),
    (has_type issues blur), valid;
    cbn [orb andb app List.length Nat.eqb once];
    (split; [vm_compute; reflexivity |]);
    (split; [vm_compute; reflexivity |]);
    (split; [vm_compute; reflexivity |]);
    (split; [vm_compute; reflexivity |]);
    (split; [positive_message |]);
    intros s H; cbn [In] in H |- *; tauto.
Qed.

(** Every result of [validateImage] is put together by [createResult]. *)
Lemma validateImage_createResult {M : MathLib} (this : QualityValidator)
    (document : Document) (imageElement : ImageElement)
    (landmarks : list NormalizedLandmark) (r : QualityCheckResult) :
  validateImage this document imageElement landmarks = Ok r ->
  r = createResult r.(isValid) r.(issues) r.(confidence).
Proof.
  intros H. destruct landmarks as [|l0 rest].
  - unfold validateImage in H. cbn [List.length Nat.eqb rethrow] in H.
    injection H as <-. reflexivity.
  - destruct (validateImage_Ok_inv this document imageElement (l0 :: rest) r) as
      (iq & fq & _ & _ & Hr); [discriminate | exact H |].
    cbv zeta in Hr. rewrite Hr. reflexivity.
Qed.

(** C6 fails as stated: the centred face in front of an image of low
    contrast is validated with one issue, of type [contrast], and is
    told that the image is fit for analysis. *)
Lemma createResult_counterexample :
  exists r,
    @validateImage default_validator coarse_math browser low_contrast_image
      centered_landmarks = Ok r
    /\ map type r.(issues) = [contrast]
    /\ r.(isValid) = true
    /\ In REC_OK r.(recommendations)
    /\ ~ (In REC_OK r.(recommendations) <-> r.(issues) = [] /\ r.(isValid) = true).
Proof.
  destruct (result_case
              (@validateImage default_validator coarse_math browser low_contrast_image
                 centered_landmarks)
              (fun r => match map type r.(issues) with
                        | [contrast] => r.(isValid) && existsb (String.eqb REC_OK)
                                                         r.(recommendations)
                        | _ => false
                        end))
    as (r & Hr & Hp); [vm_compute; reflexivity|].
  exists r. split; [exact Hr|].
  destruct (map type (issues r)) as [|[] [|? ?]] eqn:Et; try discriminate Hp.
  apply andb_true_iff in Hp. destruct Hp as [Hv Hin].
  apply existsb_exists in Hin. destruct Hin as (s & Hin & Es).
  apply String.eqb_eq in Es. subst s.
  repeat split; try assumption.
  intros [H _]. destruct (H Hin) as [Hnil _]. rewrite Hnil in Et. discriminate Et.
Qed.

(* ------------------------------------------------------------------ *)
(** *** Image analysis failures                                        *)

(** C7, as the code has it.  The analyzer has no check on the area and
    no [INVALID_IMAGE] error: once the bytes are read it returns metrics
    whatever the size; it throws only when there is no 2-D context or when
    reading the bytes throws; and whatever [validateImage] throws is coded
    [ANALYSIS_FAILED]. *)
Theorem analyzeImageQuality_failures {M : MathLib} (this : QualityValidator)
    (document : Document) (imageElement : ImageElement) :
  (forall pixels,
     document.(context2d) = true -> imageElement.(el_imageData) = Ok pixels ->
     analyzeImageQuality document imageElement
     = Ok (imageMetrics pixels imageElement.(el_width) imageElement.(el_height)))
  /\ (forall e,
        analyzeImageQuality document imageElement = Throw e ->
        (document.(context2d) = false
         /\ e = Error "Could not get canvas context for image analysis")
        \/ imageElement.(el_imageData) = Throw e)
  /\ (forall landmarks e,
        validateImage this document imageElement landmarks = Throw e ->
        exists msg cause, e = QualityValidationError msg ANALYSIS_FAILED cause).
Proof.
  unfold analyzeImageQuality. repeat split.
  - intros pixels Hc Hp. rewrite Hc, Hp. reflexivity.
  - intros e. destruct (context2d document); cbn [negb].
    + destruct (el_imageData imageElement); cbn [bind]; [discriminate|].
      intros H; injection H as <-. right; reflexivity.
    + intros H; injection H as <-. left; split; reflexivity.
  - intros landmarks e. unfold validateImage, rethrow.
    match goal with |- match ?c with _ => _ end = _ -> _ => destruct c end;
      [discriminate|].
    intros H; injection H as <-. eexists; eexists; reflexivity.
Qed.

(** C7 fails as stated.  Where the canvas refuses a zero-area rectangle,
    as browsers do, the analyzer lets the canvas' own exception through and
    [validateImage] reports it as [ANALYSIS_FAILED], not as an invalid image; and
    where the canvas hands out an empty buffer, the analyzer returns a
    metrics object, all of whose fields are NaN. *)
Lemma analyzeImageQuality_counterexample :
  @analyzeImageQuality coarse_math browser zero_area_image
  = Throw (DOMException "IndexSizeError" "The source width is 0.")
  /\ @validateImage default_validator coarse_math browser zero_area_image
       centered_landmarks
     = Throw (QualityValidationError
                "Quality validation failed: IndexSizeError: The source width is 0."
                ANALYSIS_FAILED
                (DOMException "IndexSizeError" "The source width is 0."))
  /\ @analyzeImageQuality coarse_math browser empty_image
     = Ok {| m_brightness := NaN; m_contrast := NaN; m_blur := NaN;
             m_saturation := NaN; m_noise := NaN |}.
Proof.
  split; [reflexivity|]. split; [vm_compute; reflexivity | vm_compute; reflexivity].
Qed.

(* ------------------------------------------------------------------ *)
(** *** Images without interior pixels                                 *)

(** Without interior pixels (fewer than three columns or three rows) the
    edge loop of [estimateBlur] runs zero times and the average is 0/0. *)
Lemma estimateBlur_no_interior (pixels : list Z) (width height : nat) :
  (width < 3)%nat \/ (height < 3)%nat -> estimateBlur pixels width height = NaN.
Proof.
  intros H. unfold estimateBlur.
  assert (E : list_prod (seq 1 (height - 2)) (seq 1 (width - 2)) = []).
  { destruct H as [H | H].
    - replace (width - 2)%nat with 0%nat by lia. cbn [seq].
      induction (seq 1 (height - 2)) as [|y l IH]; [reflexivity | exact IH].
    - replace (height - 2)%nat with 0%nat by lia. reflexivity. }
  rewrite E. reflexivity.
Qed.

(** C8 fails on every image without interior pixels.  For one gray pixel
    the edge loop runs zero times and blur is 0/0 = NaN, not 1 (the
    contrast is 0, as C8 has it). *)
Theorem blur_single_pixel {M : MathLib} (gray : Z) :
  let m := imageMetrics (uniform_pixels 1 1 gray gray gray) 1 1 in
  m.(m_blur) = NaN /\ m.(m_contrast) = Fin 0.
Proof.
  cbv zeta. split; [reflexivity|].
  unfold imageMetrics; cbn [m_contrast].
  change (by4 0 (List.length (uniform_pixels 1 1 gray gray gray))) with [0%nat].
  change (of_nat (List.length (uniform_pixels 1 1 gray gray gray)) / Fin 4)%num
    with (fin (4 / 4)).
  cbn [fold_left].
  assert (HL : exists L, luminance_at (uniform_pixels 1 1 gray gray gray) 0 = Fin L)
    by (eexists; reflexivity).
  destruct HL as (L & ->).
  change (Fin 0 + Fin L)%num with (fin (0 + L)).
  change (fin (0 + L) / fin (4 / 4))%num with (fin (Qred (0 + L) / Qred (4 / 4))).
  set (B := Qred (Qred (0 + L) / Qred (4 / 4))).
  assert (HB : B == L).
  { unfold B. qred. field. }
  change (fin (Qred (0 + L) / Qred (4 / 4))) with (Fin B).
  change ((Fin 0 + pow2 (Fin L - Fin B)) / fin (4 / 4))%num
    with (Fin (Qred (Qred (0 + Qred (Qred (L + - B) * Qred (L + - B))) / Qred (4 / 4)))).
  apply sqrt_zero. qred. rewrite HB. field.
Qed.

(* ------------------------------------------------------------------ *)
(** *** Uniform images with interior pixels                            *)

Lemma uniform_nth (n : nat) (r g b : Z) (k c : nat) :
  (k < n)%nat -> (c < 4)%nat ->
  nth_error (List.concat (repeat [r; g; b; 255%Z] n)) (4 * k + c)
  = nth_error [r; g; b; 255%Z] c.
Proof.
  revert k. induction n as [|n IH]; intros k Hk Hc; [lia|].
  destruct k as [|k].
  - cbn [repeat List.concat app]. replace (4 * 0 + c)%nat with c by lia.
    do 4 (destruct c as [|c]; [reflexivity|]). lia.
  - replace (4 * S k + c)%nat with (S (S (S (S (4 * k + c))))) by lia.
    cbn [repeat List.concat app nth_error]. apply IH; lia.
Qed.

Lemma uniform_length (width height : nat) (r g b : Z) :
  List.length (uniform_pixels width height r g b) = (4 * (width * height))%nat.
Proof.
  unfold uniform_pixels. generalize (width * height)%nat as n.
  induction n as [|n IH]; [reflexivity|].
  cbn [repeat List.concat]. rewrite length_app, IH. cbn [List.length]. lia.
Qed.

Lemma byte_at_uniform (width height : nat) (r g b : Z) (k : nat) :
  (k < width * height)%nat ->
  byte_at (uniform_pixels width height r g b) (4 * k) = of_Z r
  /\ byte_at (uniform_pixels width height r g b) (4 * k + 1) = of_Z g
  /\ byte_at (uniform_pixels width height r g b) (4 * k + 2) = of_Z b.
Proof.
  intros Hk. unfold byte_at, uniform_pixels.
  replace (4 * k)%nat with (4 * k + 0)%nat at 1 by lia.
  rewrite !uniform_nth by lia. repeat split.
Qed.

Lemma by4_pixels (n : nat) : by4 0 (4 * n) = map (fun k => (4 * k)%nat) (seq 0 n).
Proof.
  unfold by4. replace (4 * n - 0 + 3)%nat with (n * 4 + 3)%nat by lia.
  rewrite Nat.div_add_l by lia. replace (n + 3 / 4)%nat with n by (cbn; lia).
  reflexivity.
Qed.

(** Adding up terms that all equal [e]. *)
Lemma fold_add_const {A : Type} (F : A -> num) (l : list A) (a e : Q) :
  (forall i, In i l -> exists v, F i = Fin v /\ v == e) ->
  exists t,
    fold_left (fun total i => (total + F i)%num) l (Fin a) = Fin t
    /\ t == a + inject_Z (Z.of_nat (List.length l)) * e.
Proof.
  revert a. induction l as [|i rest IH]; intros a H.
  - exists a. split; [reflexivity|].
    change (inject_Z (Z.of_nat (List.length (@nil A)))) with 0. lra.
  - destruct (H i (or_introl eq_refl)) as (v & Hv & Ev).
    cbn [fold_left]. rewrite Hv. change (Fin a + Fin v)%num with (Fin (Qred (a + v))).
    destruct (IH (Qred (a + v)) (fun j Hj => H j (or_intror Hj))) as (t & Ht & Et).
    exists t. split; [exact Ht|]. rewrite Et, Qred_correct, Ev.
    cbn [List.length]. rewrite Nat2Z.inj_succ, <- Z.add_1_r, inject_Z_plus.
    change (inject_Z 1) with 1. lra.
Qed.

(** A loop invariant indexed by the number of iterations. *)
Lemma fold_left_count {A B : Type} (f : A -> B -> A) (P : A -> nat -> Prop)
    (l : list B) (a : A) :
  P a 0%nat ->
  (forall a n x, In x l -> P a n -> P (f a x) (S n)) ->
  P (fold_left f l a) (List.length l).
Proof.
  intros H0 Hstep.
  assert (G : forall k a, P a k -> P (fold_left f l a) (k + List.length l)%nat).
  { induction l as [|x rest IH]; intros k a0 Hk.
    - cbn. rewrite Nat.add_0_r. exact Hk.
    - cbn [fold_left List.length]. rewrite <- Nat.add_succ_comm.
      apply IH.
      + intros a1 n y Hy. apply Hstep. right; exact Hy.
      + apply Hstep; [left; reflexivity | exact Hk]. }
  apply (G 0%nat a H0).
Qed.

Section Uniform.
Context {M : MathLib}.
Variables (width height : nat) (r g b : Z).
Hypothesis wide : (3 <= width)%nat.
Hypothesis high : (3 <= height)%nat.

Let pixels := uniform_pixels width height r g b.

Lemma luminance_uniform (k : nat) :
  (k < width * height)%nat ->
  luminance_at pixels (4 * k)
  = (Fin 0.299 * of_Z r + Fin 0.587 * of_Z g + Fin 0.114 * of_Z b)%num.
Proof.
  intros Hk. unfold luminance_at, pixels.
  destruct (byte_at_uniform width height r g b k Hk) as (-> & -> & ->).
  reflexivity.
Qed.

Lemma uniform_contrast :
  (imageMetrics pixels width height).(m_contrast) = Fin 0.
Proof.
  unfold imageMetrics; cbn [m_contrast]; cbv zeta. fold pixels.
  assert (Hn : (0 < width * height)%nat) by nia.
  assert (Hlen : List.length pixels = (4 * (width * height))%nat)
    by apply uniform_length.
  rewrite !Hlen, !by4_pixels.
  set (n := (width * height)%nat) in *.
  assert (HL : exists L, (Fin 0.299 * of_Z r + Fin 0.587 * of_Z g + Fin 0.114 * of_Z b)%num
                         = Fin L) by (eexists; reflexivity).
  destruct HL as (L & HL).
  assert (Hlum : forall i, In i (map (fun k => (4 * k)%nat) (seq 0 n)) ->
                           luminance_at pixels i = Fin L).
  { intros i Hi. apply in_map_iff in Hi. destruct Hi as (k & <- & Hk).
    apply in_seq in Hk. rewrite luminance_uniform by lia. exact HL. }
  destruct (fold_add_const (luminance_at pixels) (map (fun k => (4 * k)%nat) (seq 0 n)) 0 L)
    as (T & -> & HT).
  { intros i Hi. exists L. split; [apply Hlum; exact Hi | reflexivity]. }
  rewrite length_map, length_seq in HT.
  assert (Hpc : exists pc, (of_nat (4 * n) / Fin 4)%num = Fin pc /\ pc == inject_Z (Z.of_nat n)).
  { eexists. split; [reflexivity|]. rewrite Qred_correct.
    rewrite Nat2Z.inj_mul, inject_Z_mult. change (inject_Z (Z.of_nat 4)) with 4. field. }
  destruct Hpc as (pc & -> & Hpc).
  assert (Hpos : 0 < inject_Z (Z.of_nat n)).
  { change 0 with (inject_Z 0). rewrite <- Zlt_Qlt. lia. }
  assert (Hbr : exists B, (Fin T / Fin pc)%num = Fin B /\ B == L).
  { unfold div, Qzero_b. destruct (Qle_bool pc 0) eqn:E.
    - apply Qle_bool_iff in E. lra.
    - cbn [andb]. eexists. split; [reflexivity|]. rewrite Qred_correct, HT, Hpc.
      field. lra. }
  destruct Hbr as (B & -> & HB).
  destruct (fold_add_const (fun i => pow2 (luminance_at pixels i - Fin B))
              (map (fun k => (4 * k)%nat) (seq 0 n)) 0 0) as (V & -> & HV).
  { intros i Hi. rewrite (Hlum i Hi). eexists. split; [reflexivity|].
    qred. rewrite HB. ring. }
  assert (Hq : exists q, (Fin V / Fin pc)%num = Fin q /\ q == 0).
  { unfold div, Qzero_b. destruct (Qle_bool pc 0) eqn:E.
    - apply Qle_bool_iff in E. lra.
    - cbn [andb]. eexists. split; [reflexivity|]. rewrite Qred_correct, HV.
      field. lra. }
  destruct Hq as (q & -> & Hq).
  apply sqrt_zero. exact Hq.
Qed.

Lemma uniform_blur : estimateBlur pixels width height = Fin 1.
Proof.
  unfold estimateBlur.
  set (step := fun (acc : num * num) (yx : nat * nat) => _).
  set (cells := list_prod (seq 1 (height - 2)) (seq 1 (width - 2))).
  assert (Inv : let '(s, c) := fold_left step cells (Fin 0, Fin 0) in
                exists es ec, s = Fin es /\ es == 0 /\ c = Fin ec
                              /\ ec == inject_Z (Z.of_nat (List.length cells))).
  { apply (fold_left_count step
             (fun acc k => let '(s, c) := acc in
                           exists es ec, s = Fin es /\ es == 0 /\ c = Fin ec
                                         /\ ec == inject_Z (Z.of_nat k))).
    - exists 0, 0. repeat split; reflexivity.
    - intros [s c] k [y x] Hin (es & ec & -> & HS & -> & HC).
      apply in_prod_iff in Hin. destruct Hin as [Hy Hx]. apply in_seq in Hy, Hx.
      unfold step. cbv beta iota zeta.
      replace ((y * width + x) * 4 + 4)%nat with (4 * (y * width + x + 1))%nat by lia.
      replace ((y * width + x) * 4)%nat with (4 * (y * width + x))%nat by lia.
      replace ((y + 1) * width * 4 + x * 4)%nat with (4 * ((y + 1) * width + x))%nat by lia.
      unfold pixels.
      destruct (byte_at_uniform width height r g b (y * width + x)) as (-> & _); [nia|].
      destruct (byte_at_uniform width height r g b (y * width + x + 1)) as (-> & _); [nia|].
      destruct (byte_at_uniform width height r g b ((y + 1) * width + x)) as (-> & _); [nia|].
      eexists; eexists. split; [reflexivity|]. split; [|split; [reflexivity|]].
      + qred. rewrite HS. setoid_replace (inject_Z r + - inject_Z r) with 0 by ring.
        reflexivity.
      + qred. rewrite HC, Nat2Z.inj_succ, <- Z.add_1_r, inject_Z_plus. reflexivity. }
  destruct (fold_left step cells (Fin 0, Fin 0)) as [s c].
  destruct Inv as (es & ec & -> & HS & -> & HC).
  assert (Hlen : (0 < List.length cells)%nat).
  { unfold cells. rewrite length_prod, !length_seq. nia. }
  assert (Hpos : 0 < ec).
  { rewrite HC. change 0 with (inject_Z 0). rewrite <- Zlt_Qlt. lia. }
  unfold div at 2. unfold Qzero_b.
  destruct (Qle_bool ec 0) eqn:E; [apply Qle_bool_iff in E; lra|]. cbn [andb].
  num_unfold. qb; qred; try lra; try reflexivity; exfalso.
  all: match goal with
       | H : ~ 1 <= _ |- _ => apply H
       end.
  all: rewrite HS; unfold Qdiv; rewrite !Qmult_0_l; lra.
Qed.

End Uniform.

(** The metrics of a uniform image that has interior pixels: where its loops
    run, the code agrees with C8. *)
Lemma uniform_image_metrics {M : MathLib} (width height : nat) (r g b : Z) :
  (3 <= width)%nat -> (3 <= height)%nat ->
  let m := imageMetrics (uniform_pixels width height r g b) width height in
  m.(m_contrast) = Fin 0 /\ m.(m_blur) = Fin 1.
Proof.
  intros Hw Hh. split.
  - apply uniform_contrast; assumption.
  - apply uniform_blur; assumption.
Qed.

(* ------------------------------------------------------------------ *)
(** *** Completeness                                                   *)

Lemma landmarkVisible_true (landmark : NormalizedLandmark) :
  visible landmark -> landmarkVisible landmark = true.
Proof.
  intros ((Hx0 & Hx1) & (Hy0 & Hy1) & Hv). unfold landmarkVisible, geb, gtb, leb, ltb.
  apply Qle_bool_iff in Hx0, Hx1, Hy0, Hy1. rewrite Hx0, Hx1, Hy0, Hy1. cbn [andb].
  destruct (visibility landmark) as [v|]; [|reflexivity].
  destruct (Qle_bool v 0.5) eqn:E; [|reflexivity].
  apply Qle_bool_iff in E. cbn beta iota in Hv. lra.
Qed.

(** Counting over indices that all resolve to visible landmarks adds one
    per index. *)
Lemma count_visible (landmarks : list NormalizedLandmark) (indices : list nat) (c : Q) :
  (forall i, In i indices ->
     exists l, nth_error landmarks i = Some l /\ visible l) ->
  exists c',
    fold_left
      (fun visibleCount index =>
         match nth_error landmarks index with
         | Some landmark =>
             if landmarkVisible landmark then (visibleCount + Fin 1)%num
             else visibleCount
         | None => visibleCount
         end)
      indices (Fin c) = Fin c'
    /\ c' == c + inject_Z (Z.of_nat (List.length indices)).
Proof.
  revert c. induction indices as [|i rest IH]; intros c H.
  - exists c. split; [reflexivity|].
    change (inject_Z (Z.of_nat (List.length (@nil nat)))) with 0. lra.
  - destruct (H i (or_introl eq_refl)) as (l & Hl & Hv).
    cbn [fold_left]. rewrite Hl, (landmarkVisible_true l Hv).
    change (Fin c + Fin 1)%num with (Fin (Qred (c + 1))).
    destruct (IH (Qred (c + 1)) (fun j Hj => H j (or_intror Hj))) as (c' & Hf & Hc).
    exists c'. split; [exact Hf|]. rewrite Hc, Qred_correct.
    cbn [List.length]. rewrite Nat2Z.inj_succ, <- Z.add_1_r, inject_Z_plus.
    change (inject_Z 1) with 1. lra.
Qed.

(** C9, as the code has it.  Completeness is 1 when each of the sixteen
    key indices resolves to a point inside [0,1] x [0,1] whose visibility
    is absent or strictly above 0.5. *)
Theorem calculateFaceCompleteness_full (landmarks : list NormalizedLandmark) :
  (forall i, In i keyLandmarkIndices ->
     exists l, nth_error landmarks i = Some l /\ visible l) ->
  calculateFaceCompleteness landmarks = Fin 1.
Proof.
  intros H. unfold calculateFaceCompleteness.
  destruct (count_visible landmarks keyLandmarkIndices 0 H) as (c & -> & Hc).
  change (of_nat (List.length keyLandmarkIndices)) with (Fin 16).
  change (List.length keyLandmarkIndices) with 16%nat in Hc.
  change (inject_Z (Z.of_nat 16)) with 16 in Hc.
  change (Fin c / Fin 16)%num with (fin (c / 16)).
  change (Fin 1) with (fin 1). apply fin_eq. rewrite Hc. reflexivity.
Qed.

Ltac key_index_cases H :=
  cbn [keyLandmarkIndices firstn app In LANDMARK_INDICES.LEFT_EYE
       LANDMARK_INDICES.RIGHT_EYE LANDMARK_INDICES.NOSE_TIP LANDMARK_INDICES.CHIN] in H;
  repeat (destruct H as [<- | H]); [.. | contradiction].

(** The centred face, whose landmarks carry no visibility. *)
Lemma calculateFaceCompleteness_full_witness :
  (forall i, In i keyLandmarkIndices ->
     exists l, nth_error centered_landmarks i = Some l /\ visible l)
  /\ calculateFaceCompleteness centered_landmarks = Fin 1.
Proof.
  assert (H : forall i, In i keyLandmarkIndices ->
                exists l, nth_error centered_landmarks i = Some l /\ visible l).
  { intros i Hi. unfold keyLandmarkIndices in Hi. key_index_cases Hi.
    all: eexists; split; [vm_compute; reflexivity|];
         unfold visible; cbn [x y visibility]; repeat split; lra. }
  split; [exact H | exact (calculateFaceCompleteness_full centered_landmarks H)].
Defined.

(** C9 fails as stated: with every key landmark inside the frame and a
    visibility of exactly 0.5, completeness is 0. *)
Lemma calculateFaceCompleteness_counterexample :
  (forall i, In i keyLandmarkIndices ->
     exists l, nth_error half_visible_landmarks i = Some l
               /\ 0 <= l.(x) <= 1 /\ 0 <= l.(y) <= 1
               /\ l.(visibility) = Some 0.5)
  /\ calculateFaceCompleteness half_visible_landmarks = Fin 0
  /\ calculateFaceCompleteness half_visible_landmarks <> Fin 1.
Proof.
  split; [|split].
  - intros i Hi. unfold keyLandmarkIndices in Hi. key_index_cases Hi.
    all: eexists; split; [vm_compute; reflexivity|];
         cbn [x y visibility]; repeat split; lra.
  - vm_compute. reflexivity.
  - vm_compute. discriminate.
Qed.

(* ------------------------------------------------------------------ *)
(** *** The chin width                                                 *)

Lemma extract_nth (landmarks : list NormalizedLandmark) (indices : list nat)
    (l : list NormalizedLandmark) :
  extractLandmarksByIndices landmarks indices = Ok l ->
  forall k i, nth_error indices k = Some i -> nth_error l k = nth_error landmarks i.
Proof.
  revert l. induction indices as [|i0 rest IH]; intros l H k i Hk.
  - destruct k; discriminate.
  - cbn [extractLandmarksByIndices] in H.
    destruct (nth_error landmarks i0) as [p|] eqn:E0; [|discriminate].
    cbn [defined bind] in H.
    destruct (extractLandmarksByIndices landmarks rest) as [tl|] eqn:Er; [|discriminate].
    cbn [bind] in H. injection H as <-.
    destruct k as [|k]; cbn [nth_error] in *.
    + injection Hk as <-. symmetry; exact E0.
    + apply (IH tl eq_refl k i Hk).
Qed.

Section Distance.
Context {M : MathLib}.

Lemma Qsquares_nonneg (a b : Q) : 0 <= a * a + b * b.
Proof.
  nra.
Qed.

(** The sum of squares under the root of a distance. *)
Lemma squares_Fin (a b c d : Q) :
  exists s,
    ((Fin a - Fin b) * (Fin a - Fin b) + (Fin c - Fin d) * (Fin c - Fin d))%num = Fin s
    /\ s == (a - b) * (a - b) + (c - d) * (c - d).
Proof.
  eexists. split; [reflexivity|]. qred. unfold Qminus. reflexivity.
Qed.

(** The distance between two landmarks is a finite number. *)
Lemma calculateDistance_finite (p q : NormalizedLandmark) :
  exists d, calculateDistance (xy p) (xy q) = Fin d.
Proof.
  unfold calculateDistance, xy; cbn [px py].
  destruct (squares_Fin (x p) (x q) (y p) (y q)) as (s & -> & Hs).
  apply sqrt_nonneg_finite. rewrite Hs. apply Qsquares_nonneg.
Qed.

(** The distance from a landmark to itself is zero. *)
Lemma calculateDistance_self (p : NormalizedLandmark) :
  calculateDistance (xy p) (xy p) = Fin 0.
Proof.
  unfold calculateDistance, xy; cbn [px py].
  destruct (squares_Fin (x p) (x p) (y p) (y p)) as (s & -> & Hs).
  apply sqrt_zero. rewrite Hs. ring.
Qed.

Lemma CHIN_4_12 :
  nth_error LANDMARK_INDICES.CHIN 4 = Some 9%nat
  /\ nth_error LANDMARK_INDICES.CHIN 12 = Some 9%nat.
Proof. split; reflexivity. Qed.

(** The chin "width" is measured between two copies of landmark 9. *)
Lemma calculateChinWidth_zero (landmarks chinLandmarks : list NormalizedLandmark) (w : num) :
  extractLandmarksByIndices landmarks LANDMARK_INDICES.CHIN = Ok chinLandmarks ->
  calculateChinWidth chinLandmarks = Ok w ->
  w = Fin 0.
Proof.
  intros He Hw. unfold calculateChinWidth in Hw.
  rewrite (extract_nth _ _ _ He 4 9 (proj1 CHIN_4_12)) in Hw.
  rewrite (extract_nth _ _ _ He 12 9 (proj2 CHIN_4_12)) in Hw.
  destruct (nth_error landmarks 9) as [p|]; [|discriminate].
  cbn [defined2 bind] in Hw. injection Hw as <-.
  apply calculateDistance_self.
Qed.

Lemma calculateJawMetrics_ratio (landmarks : list NormalizedLandmark) (j : JawMetrics) :
  calculateJawMetrics landmarks = Ok j ->
  exists w, j.(jaw_width) = Fin w /\ j.(lowerFaceRatio) = (Fin 0 / Fin w)%num.
Proof.
  unfold calculateJawMetrics. intros H.
  destruct (extractLandmarksByIndices landmarks LANDMARK_INDICES.JAW_LEFT)
    as [lj|]; [|discriminate].
  destruct (extractLandmarksByIndices landmarks LANDMARK_INDICES.JAW_RIGHT)
    as [rj|]; [|discriminate].
  destruct (extractLandmarksByIndices landmarks LANDMARK_INDICES.CHIN)
    as [chin|] eqn:Ec; [|discriminate].
  cbn [bind] in H.
  destruct (defined2 (nth_error lj 0) (nth_error rj 0) "Missing jaw landmarks")
    as [[a b]|]; [|discriminate].
  cbn [bind] in H.
  destruct (defined (nth_error chin 0) "Missing chin landmark") as [c|]; [|discriminate].
  cbn [bind] in H.
  destruct (calculateChinWidth chin) as [cw|] eqn:Ew; [|discriminate].
  cbn [bind] in H. injection H as <-. cbn [jaw_width lowerFaceRatio].
  rewrite (calculateChinWidth_zero landmarks chin cw Ec Ew).
  destruct (calculateDistance_finite a b) as (w & ->).
  exists w. split; reflexivity.
Qed.

Lemma calculateFacialFeatures_jaw (landmarks : list NormalizedLandmark)
    (features : FacialFeatures) :
  calculateFacialFeatures landmarks = Ok features ->
  calculateJawMetrics landmarks = Ok features.(jaw).
Proof.
  unfold calculateFacialFeatures.
  destruct (List.length landmarks <? 468)%nat; [discriminate|].
  destruct (calculateEyeMetrics landmarks); [|discriminate].
  destruct (calculateNoseMetrics landmarks); [|discriminate].
  destruct (calculateJawMetrics landmarks); [|discriminate].
  cbn. intros H; injection H as <-. reflexivity.
Qed.

End Distance.

Lemma calculateDeviation_NaN (r : Range) : calculateDeviation NaN r = NaN.
Proof. destruct r as [mn mx]. reflexivity. Qed.

Lemma calculateDeviation_cases (v : num) (mn mx : Q) :
  mn <= mx ->
  calculateDeviation v (mn, mx) = NaN
  \/ exists d, calculateDeviation v (mn, mx) = Fin d /\ 0 <= d <= 1.
Proof.
  intros H. destruct (is_nan v) eqn:E.
  - left. destruct v; try discriminate. reflexivity.
  - right. apply calculateDeviation_range; assumption.
Qed.

(** A ratio of zero deviates by 1 from the default chin band. *)
Lemma chinRatio_deviation_zero :
  calculateDeviation (Fin 0)
    default_calculator.(baselineRanges).(b_jaw).(r_chinRatio) = Fin 1.
Proof. reflexivity. Qed.

(** With the chin deviation at 1 and its default weight of 0.3, the jaw
    score is NaN or at most 70. *)
Lemma jaw_score_capped (a b : num) :
  (a = NaN \/ exists d, a = Fin d /\ 0 <= d <= 1) ->
  (b = NaN \/ exists d, b = Fin d /\ 0 <= d <= 1) ->
  let score := deviationToScore (Fin 0.45 * a + Fin 0.3 * Fin 1 + Fin 0.25 * b)%num in
  (score >? Fin 70)%num = false /\ (round score >? Fin 70)%num = false.
Proof.
  intros [-> | (da & -> & Ha)] [-> | (db & -> & Hb)]; cbv zeta;
    try (split; reflexivity).
  destruct (weighted_Fin 0.45 0.3 0.25 da 1 db) as (wd & -> & Hwd).
  destruct (deviationToScore_Fin wd) as (s & -> & Hs & Hr).
  assert (Hle : s <= 70).
  { rewrite Hs. unfold region_score. apply Q.max_lub; [lra|].
    eapply Qle_trans; [apply Q.le_min_r|]. rewrite Hwd. lra. }
  unfold gtb, ltb, round. split.
  - apply Qle_bool_iff in Hle. rewrite Hle. reflexivity.
  - assert (Hz : (Qfloor (s + (1 # 2)) <= 70)%Z).
    { apply Z.lt_succ_r. rewrite Zlt_Qlt.
      eapply Qle_lt_trans; [apply Qfloor_le|].
      change (inject_Z (Z.succ 70)) with 71. lra. }
    rewrite Zle_Qle in Hz. apply Qle_bool_iff in Hz.
    change (inject_Z 70) with 70 in Hz. rewrite Hz. reflexivity.
Qed.

(** C10.  Whenever the extractor succeeds (which takes at least 468
    landmarks) with a non-zero jaw width, the lower face ratio is 0,
    because positions 4 and 12 of [CHIN] are both landmark 9; under the
    default configuration its deviation is then 1 and the jaw score does not
    exceed 70. *)
Theorem lowerFaceRatio_zero {M : MathLib} (landmarks : list NormalizedLandmark)
    (features : FacialFeatures) :
  (468 <= List.length landmarks)%nat ->
  calculateFacialFeatures landmarks = Ok features ->
  eqb features.(jaw).(jaw_width) (Fin 0) = false ->
  features.(jaw).(lowerFaceRatio) = Fin 0
  /\ nth_error LANDMARK_INDICES.CHIN 4 = Some 9%nat
  /\ nth_error LANDMARK_INDICES.CHIN 12 = Some 9%nat
  /\ calculateDeviation features.(jaw).(lowerFaceRatio)
       default_calculator.(baselineRanges).(b_jaw).(r_chinRatio) = Fin 1
  /\ (calculateJawScore default_calculator features.(jaw) >? Fin 70)%num = false
  /\ (score_jaw (calculateQualityScores default_calculator features) >? Fin 70)%num
     = false.
Proof.
  intros _ Hf Hw. apply calculateFacialFeatures_jaw in Hf.
  destruct (calculateJawMetrics_ratio landmarks features.(jaw) Hf) as (w & Ew & Er).
  rewrite Ew in Hw. cbn [eqb] in Hw.
  assert (Hnz : ~ w == 0).
  { intros E. apply Qeq_bool_iff in E. congruence. }
  assert (Hr : lowerFaceRatio (jaw features) = Fin 0).
  { rewrite Er. unfold div, Qzero_b.
    destruct (Qle_bool w 0 && Qle_bool 0 w) eqn:E.
    - apply andb_true_iff in E. rewrite !Qle_bool_iff in E. exfalso. apply Hnz. lra.
    - change (Fin 0) with (fin 0). apply fin_eq. field. exact Hnz. }
  split; [exact Hr|].
  split; [reflexivity|]. split; [reflexivity|].
  split; [rewrite Hr; exact chinRatio_deviation_zero|].
  assert (Hcap :
    (calculateJawScore default_calculator (jaw features) >? Fin 70)%num = false
    /\ (round (calculateJawScore default_calculator (jaw features)) >? Fin 70)%num = false).
  { unfold calculateJawScore. cbv zeta beta iota.
    rewrite Hr, chinRatio_deviation_zero.
    apply jaw_score_capped;
      apply calculateDeviation_cases; cbn; lra. }
  split; [apply Hcap | apply Hcap].
Qed.

(** The grid of 468 landmarks. *)
Lemma lowerFaceRatio_zero_witness :
  exists features,
    @calculateFacialFeatures coarse_math grid_landmarks = Ok features
    /\ features.(jaw).(lowerFaceRatio) = Fin 0.
Proof.
  destruct (result_case (@calculateFacialFeatures coarse_math grid_landmarks)
              (fun f => negb (eqb f.(jaw).(jaw_width) (Fin 0))))
    as (f & Hf & Hw); [vm_compute; reflexivity|].
  exists f. split; [exact Hf|].
  apply negb_true_iff in Hw.
  apply (@lowerFaceRatio_zero coarse_math grid_landmarks f);
    [vm_compute; lia | exact Hf | exact Hw].
Defined.

(* ================================================================== *)
(** * Further properties                                               *)
(* ================================================================== *)

(* ------------------------------------------------------------------ *)
(** *** Picking landmarks by index                                     *)

Lemma extract_in_range (landmarks : list NormalizedLandmark) (indices : list nat) :
  (forall i, In i indices -> (i < List.length landmarks)%nat) ->
  exists l, extractLandmarksByIndices landmarks indices = Ok l.
Proof.
  induction indices as [|i rest IH]; intros H.
  - exists []. reflexivity.
  - cbn [extractLandmarksByIndices].
    destruct (nth_error landmarks i) as [p|] eqn:E.
    + destruct IH as (tl & ->); [intros j Hj; apply H; right; exact Hj|].
      exists (p :: tl). reflexivity.
    + apply nth_error_None in E. specialize (H i (or_introl eq_refl)). lia.
Qed.

Lemma extract_length (landmarks : list NormalizedLandmark) (indices : list nat)
    (l : list NormalizedLandmark) :
  extractLandmarksByIndices landmarks indices = Ok l ->
  List.length l = List.length indices.
Proof.
  revert l. induction indices as [|i rest IH]; intros l H.
  - injection H as <-. reflexivity.
  - cbn [extractLandmarksByIndices] in H.
    destruct (nth_error landmarks i) as [p|]; [|discriminate].
    cbn [defined bind] in H.
    destruct (extractLandmarksByIndices landmarks rest) as [tl|]; [|discriminate].
    cbn [bind] in H. injection H as <-. cbn [List.length]. f_equal. apply IH. reflexivity.
Qed.

Lemma extract_Ok_in_range (landmarks : list NormalizedLandmark) (indices : list nat)
    (l : list NormalizedLandmark) :
  extractLandmarksByIndices landmarks indices = Ok l ->
  forall i, In i indices -> (i < List.length landmarks)%nat.
Proof.
  revert l. induction indices as [|i0 rest IH]; intros l H i Hi; [destruct Hi|].
  cbn [extractLandmarksByIndices] in H.
  destruct (nth_error landmarks i0) as [p|] eqn:E; [|discriminate].
  cbn [defined bind] in H.
  destruct (extractLandmarksByIndices landmarks rest) as [tl|]; [|discriminate].
  destruct Hi as [<- | Hi].
  - apply nth_error_Some. congruence.
  - apply (IH tl eq_refl i Hi).
Qed.

(** X1.  [extractLandmarksByIndices] returns exactly when every index lies
    inside the landmark list, and then returns one landmark per index, in
    the order of the indices: the k-th result is the landmark at the k-th
    index. *)
Theorem extractLandmarksByIndices_spec (landmarks : list NormalizedLandmark)
    (indices : list nat) :
  ((exists l, extractLandmarksByIndices landmarks indices = Ok l)
   <-> forall i, In i indices -> (i < List.length landmarks)%nat)
  /\ forall l,
       extractLandmarksByIndices landmarks indices = Ok l ->
       List.length l = List.length indices
       /\ forall k i, nth_error indices k = Some i ->
                      nth_error l k = nth_error landmarks i.
Proof.
  split.
  - split.
    + intros (l & H). exact (extract_Ok_in_range landmarks indices l H).
    + apply extract_in_range.
  - intros l H. split.
    + exact (extract_length landmarks indices l H).
    + exact (extract_nth landmarks indices l H).
Qed.

Lemma extract_first_missing (landmarks : list NormalizedLandmark)
    (before after : list nat) (i : nat) :
  (forall j, In j before -> (j < List.length landmarks)%nat) ->
  (List.length landmarks <= i)%nat ->
  extractLandmarksByIndices landmarks (before ++ i :: after)
  = Throw (Error ("Landmark at index " ++ show_nat i ++ " not found")).
Proof.
  intros Hb Hi. induction before as [|j rest IH].
  - cbn [app extractLandmarksByIndices].
    assert (E : nth_error landmarks i = None) by (apply nth_error_None; exact Hi).
    rewrite E. reflexivity.
  - cbn [app extractLandmarksByIndices].
    destruct (nth_error landmarks j) as [p|] eqn:E.
    + cbn [defined bind]. rewrite IH; [reflexivity|].
      intros k Hk. apply Hb. right; exact Hk.
    + apply nth_error_None in E. specialize (Hb j (or_introl eq_refl)). lia.
Qed.

(** X2.  When an index is out of range, [extractLandmarksByIndices] throws
    an [Error] that names the first such index, and returns none of the
    landmarks it had already picked. *)
Theorem extractLandmarksByIndices_missing (landmarks : list NormalizedLandmark)
    (before after : list nat) (i : nat) :
  (forall j, In j before -> (j < List.length landmarks)%nat) ->
  (List.length landmarks <= i)%nat ->
  extractLandmarksByIndices landmarks (before ++ i :: after)
  = Throw (Error ("Landmark at index " ++ show_nat i ++ " not found")).
Proof.
  intros Hbefore Hmissing. apply extract_first_missing; assumption.
Qed.

(** Ten landmarks and the left eye group: index 33 is the first one
    missing. *)
Lemma extractLandmarksByIndices_missing_witness :
  extractLandmarksByIndices (firstn 10 grid_landmarks) LANDMARK_INDICES.LEFT_EYE
  = Throw (Error "Landmark at index 33 not found").
Proof.
  apply (extractLandmarksByIndices_missing (firstn 10 grid_landmarks) []
           [7; 163; 144; 145; 153; 154; 155; 133; 173; 157; 158; 159; 160; 161; 246]%nat
           33%nat).
  - intros j [].
  - vm_compute. lia.
Defined.

(* ------------------------------------------------------------------ *)
(** *** When the extractor and the validator return                    *)

Lemma all_below_In (n m : nat) (indices : list nat) :
  all_below n indices = true -> (n <= m)%nat ->
  forall i, In i indices -> (i < m)%nat.
Proof.
  intros H Hm i Hi. unfold all_below in H. rewrite forallb_forall in H.
  specialize (H i Hi). apply Nat.ltb_lt in H. lia.
Qed.

(** Extraction of a registry entry whose indices are all below [n] from at
    least [n] landmarks: it returns as many landmarks as the entry has
    indices. *)
Lemma extract_registry (n : nat) (landmarks : list NormalizedLandmark)
    (indices : list nat) :
  all_below n indices = true -> (n <= List.length landmarks)%nat ->
  exists l, extractLandmarksByIndices landmarks indices = Ok l
            /\ List.length l = List.length indices.
Proof.
  intros H Hn.
  destruct (extract_in_range landmarks indices (all_below_In n _ indices H Hn))
    as (l & Hl).
  exists l. split; [exact Hl | exact (extract_length landmarks indices l Hl)].
Qed.

(** Decide a lookup in a list that is known to be long enough. *)
Ltac some_nth l k :=
  let E := fresh "E" in
  let p := fresh "p" in
  destruct (nth_error l k) as [p|] eqn:E;
  [ | apply nth_error_None in E; cbn [List.length] in *; lia ].

Section Totality.
Context {M : MathLib}.

Lemma calculateSingleEyeMetrics_total (l : list NormalizedLandmark) :
  (13 <= List.length l)%nat -> exists e, calculateSingleEyeMetrics l = Ok e.
Proof.
  intros H. unfold calculateSingleEyeMetrics.
  some_nth l 0%nat. some_nth l 8%nat. some_nth l 4%nat. some_nth l 12%nat.
  cbn [defined2 bind]. eexists; reflexivity.
Qed.

Lemma calculateNostrilWidth_total (l : list NormalizedLandmark) :
  (9 <= List.length l)%nat -> exists w, calculateNostrilWidth l = Ok w.
Proof.
  intros H. unfold calculateNostrilWidth.
  some_nth l 0%nat. some_nth l 8%nat. cbn [defined2 bind]. eexists; reflexivity.
Qed.

Lemma calculateEyeMetrics_total (landmarks : list NormalizedLandmark) :
  (468 <= List.length landmarks)%nat ->
  exists e, calculateEyeMetrics landmarks = Ok e.
Proof.
  intros H. unfold calculateEyeMetrics.
  destruct (extract_registry 468 landmarks LANDMARK_INDICES.LEFT_EYE eq_refl H)
    as (le & -> & Hle).
  destruct (extract_registry 468 landmarks LANDMARK_INDICES.RIGHT_EYE eq_refl H)
    as (re & -> & Hre).
  cbn [bind]. cbn [List.length LANDMARK_INDICES.LEFT_EYE LANDMARK_INDICES.RIGHT_EYE] in Hle, Hre.
  destruct (calculateSingleEyeMetrics_total le) as (l & ->); [lia|].
  destruct (calculateSingleEyeMetrics_total re) as (r & ->); [lia|].
  cbn [bind]. eexists; reflexivity.
Qed.

Lemma calculateNoseMetrics_total (landmarks : list NormalizedLandmark) :
  (468 <= List.length landmarks)%nat ->
  exists n, calculateNoseMetrics landmarks = Ok n.
Proof.
  intros H. unfold calculateNoseMetrics.
  destruct (extract_registry 468 landmarks LANDMARK_INDICES.NOSE_TIP eq_refl H)
    as (tip & -> & Htip).
  destruct (extract_registry 468 landmarks LANDMARK_INDICES.NOSE_BRIDGE eq_refl H)
    as (br & -> & Hbr).
  destruct (extract_registry 468 landmarks LANDMARK_INDICES.NOSTRIL_LEFT eq_refl H)
    as (nl & -> & Hnl).
  destruct (extract_registry 468 landmarks LANDMARK_INDICES.NOSTRIL_RIGHT eq_refl H)
    as (nr & -> & Hnr).
  cbn [bind].
  cbn [List.length LANDMARK_INDICES.NOSE_TIP LANDMARK_INDICES.NOSE_BRIDGE
       LANDMARK_INDICES.NOSTRIL_LEFT LANDMARK_INDICES.NOSTRIL_RIGHT] in Htip, Hbr, Hnl, Hnr.
  some_nth nl 0%nat. some_nth nr 0%nat. cbn [defined2 bind].
  some_nth br 0%nat. some_nth tip 0%nat. cbn [defined2 bind].
  some_nth br 4%nat. some_nth br 12%nat. cbn [defined2 bind].
  destruct (calculateNostrilWidth_total nl) as (wl & ->); [lia|].
  destruct (calculateNostrilWidth_total nr) as (wr & ->); [lia|].
  cbn [bind]. eexists; reflexivity.
Qed.

Lemma calculateJawMetrics_total (landmarks : list NormalizedLandmark) :
  (468 <= List.length landmarks)%nat ->
  exists j, calculateJawMetrics landmarks = Ok j.
Proof.
  intros H. unfold calculateJawMetrics.
  destruct (extract_registry 468 landmarks LANDMARK_INDICES.JAW_LEFT eq_refl H)
    as (jl & -> & Hjl).
  destruct (extract_registry 468 landmarks LANDMARK_INDICES.JAW_RIGHT eq_refl H)
    as (jr & -> & Hjr).
  destruct (extract_registry 468 landmarks LANDMARK_INDICES.CHIN eq_refl H)
    as (chin & -> & Hchin).
  cbn [bind].
  cbn [List.length LANDMARK_INDICES.JAW_LEFT LANDMARK_INDICES.JAW_RIGHT
       LANDMARK_INDICES.CHIN] in Hjl, Hjr, Hchin.
  some_nth jl 0%nat. some_nth jr 0%nat. cbn [defined2 bind].
  some_nth chin 0%nat. cbn [defined bind].
  unfold calculateChinWidth.
  some_nth chin 4%nat. some_nth chin 12%nat. cbn [defined2 bind].
  eexists; reflexivity.
Qed.

Lemma calculateFacialFeatures_succeeds (landmarks : list NormalizedLandmark) :
  (468 <= List.length landmarks)%nat ->
  exists features, calculateFacialFeatures landmarks = Ok features.
Proof.
  intros H. unfold calculateFacialFeatures.
  assert (E : (List.length landmarks <? 468)%nat = false) by (apply Nat.ltb_ge; exact H).
  rewrite E.
  destruct (calculateEyeMetrics_total landmarks H) as (e & ->).
  destruct (calculateNoseMetrics_total landmarks H) as (n & ->).
  destruct (calculateJawMetrics_total landmarks H) as (j & ->).
  cbn [bind rethrow]. eexists; reflexivity.
Qed.

Lemma calculateFacialFeatures_Ok_length (landmarks : list NormalizedLandmark)
    (features : FacialFeatures) :
  calculateFacialFeatures landmarks = Ok features -> (468 <= List.length landmarks)%nat.
Proof.
  unfold calculateFacialFeatures.
  destruct (Nat.ltb_spec (List.length landmarks) 468) as [Hlt | Hge];
    [discriminate | intros _; exact Hge].
Qed.

(** X3.  [calculateFacialFeatures] returns features for every list of at
    least 468 landmarks, and the only error it ever throws is
    [INSUFFICIENT_LANDMARKS]: the "missing landmark" checks of the region
    functions and the [CALCULATION_ERROR] wrapper are never triggered. *)
Theorem calculateFacialFeatures_total (landmarks : list NormalizedLandmark) :
  ((468 <= List.length landmarks)%nat ->
   exists features, calculateFacialFeatures landmarks = Ok features)
  /\ forall e,
       calculateFacialFeatures landmarks = Throw e ->
       (List.length landmarks < 468)%nat
       /\ exists msg,
            e = MetricsCalculationError msg INSUFFICIENT_LANDMARKS feature_general None.
Proof.
  split; [apply calculateFacialFeatures_succeeds|].
  intros e He.
  destruct (Nat.ltb_spec (List.length landmarks) 468) as [Hlt | Hge].
  - split; [exact Hlt|]. unfold calculateFacialFeatures in He.
    apply Nat.ltb_lt in Hlt. rewrite Hlt in He. injection He as <-.
    eexists; reflexivity.
  - destruct (calculateFacialFeatures_succeeds landmarks Hge) as (f & Hf).
    rewrite Hf in He. discriminate He.
Qed.

End Totality.

(** The grid of 468 landmarks has features. *)
Lemma calculateFacialFeatures_total_witness :
  exists features, @calculateFacialFeatures coarse_math grid_landmarks = Ok features.
Proof.
  destruct (@calculateFacialFeatures_total coarse_math grid_landmarks) as (H & _).
  apply H. vm_compute. lia.
Defined.
(* ------------------------------------------------------------------ *)
(** *** Scores at the edges                                            *)

Lemma Qdiv_nonpos (a b : Q) : 0 <= a -> b < 0 -> a / b <= 0.
Proof.
  intros Ha Hb.
  assert (E : a / b == - (a / - b)) by (field; lra).
  rewrite E. pose proof (Qdiv_nonneg a (- b) Ha ltac:(lra)). lra.
Qed.

(** The width of an inverted interval is negative. *)
Lemma width_inverted (mn mx : Q) :
  Binary64.double mn -> Binary64.double mx -> mx < mn ->
  (exists w, Binary64.sub (Fin mx) (Fin mn) = Fin w /\ w < 0)
  \/ Binary64.sub (Fin mx) (Fin mn) = NInf.
Proof.
  intros [Dn _] [Dx _] H. unfold Binary64.sub, neg, Binary64.add.
  destruct (Doubles.fin_nonpos (mx + - mn)) as [(r & E & Er & Hr) | E]; [lra | |].
  - left. exists r. split; [exact E|].
    pose proof (Doubles.rnd_gap_pos mx mn Dx Dn H) as G.
    assert (E2 : Binary64.rnd (mx + - mn) == - Binary64.rnd (mn - mx)).
    { rewrite <- Rounding.rnd_opp. apply Rounding.rnd_comp. ring. }
    lra.
  - right. exact E.
Qed.

(** X5.  The calculator accepts any baseline intervals.  Against an
    inverted interval (max below min) no value counts as inside: the
    deviation of every binary64 value is the value of the formula, and it
    is never positive: a finite number that is at most 0, -Infinity or
    NaN. *)
Theorem calculateDeviation_inverted (value mn mx : Q) :
  Binary64.double value -> Binary64.double mn -> Binary64.double mx -> mx < mn ->
  let d := Scoring64.calculateDeviation (Fin value) (mn, mx) in
  d = Scoring64.deviation_formula value mn mx
  /\ (d = NaN \/ d = NInf \/ exists r, d = Fin r /\ r <= 0).
Proof.
  intros Dv Dn Dx H d. subst d.
  assert (Out : ~ mn <= value <= mx) by lra.
  split; [apply Deviation64.calculateDeviation_out; exact Out|].
  rewrite (Deviation64.calculateDeviation_out value mn mx Out).
  pose proof (Deviation64.distance_cases value (center64 mn mx)) as A.
  assert (Hc : is_nan (center64 mn mx) = false)
    by (destruct (Deviation64.center_cases mn mx) as [(c & ->) | [-> | ->]]; reflexivity).
  specialize (A Hc).
  destruct (abs (Binary64.sub (Fin value) (center64 mn mx))) as [x | | |];
    cbn in A; try contradiction.
  - destruct (width_inverted mn mx Dn Dx H) as [(w & -> & Hw) | ->].
    + unfold Binary64.div, Qzero_b.
      assert (E : Qle_bool 0 w = false).
      { apply not_true_is_false. rewrite Qle_bool_iff. lra. }
      rewrite E, andb_false_r.
      destruct (Doubles.fin_nonpos (x / w)) as [(r & -> & _ & Hr) | ->].
      * apply Qdiv_nonpos; assumption.
      * right; right. exists r. split; [|exact Hr].
        unfold JsNum.min, leb.
        assert (E1 : Qle_bool r 1 = true) by (apply Qle_bool_iff; lra).
        rewrite E1. reflexivity.
      * right; left. reflexivity.
    + right; right. exists 0. split; [reflexivity | lra].
  - destruct (width_inverted mn mx Dn Dx H) as [(w & -> & Hw) | ->].
    + right; left. cbn. unfold Qneg_b.
      assert (E : Qle_bool 0 w = false).
      { apply not_true_is_false. rewrite Qle_bool_iff. lra. }
      rewrite E. reflexivity.
    + left. reflexivity.
Qed.

(** The value 5 against the inverted interval with min 3 and max 1, and
    the two outcomes at the edge of the number range: the value 1.7e308
    deviates by -Infinity from (min 0, max -1.7e308) and by NaN from
    (min 1e308, max -1.7e308). *)
Lemma calculateDeviation_inverted_witness :
  (Scoring64.calculateDeviation (Fin 5) (3, 1) = NaN
   \/ Scoring64.calculateDeviation (Fin 5) (3, 1) = NInf
   \/ exists r, Scoring64.calculateDeviation (Fin 5) (3, 1) = Fin r /\ r <= 0)
  /\ Scoring64.calculateDeviation (Fin 5) (3, 1) = Fin (- (3 # 2))
  /\ Scoring64.calculateDeviation (Fin (e308 17)) (0, - e308 17) = NInf
  /\ Scoring64.calculateDeviation (Fin (e308 17)) (e308 10, - e308 17) = NaN.
Proof.
  split.
  - assert (D5 : Binary64.double 5) by (split; vm_compute; reflexivity).
    assert (D3 : Binary64.double 3) by (split; vm_compute; reflexivity).
    assert (D1 : Binary64.double 1) by (split; vm_compute; reflexivity).
    assert (H : 1 < 3) by reflexivity.
    destruct (calculateDeviation_inverted 5 3 1 D5 D3 D1 H) as [_ Hd]. exact Hd.
  - repeat split; vm_compute; reflexivity.
Defined.







Lemma mul_NaN_r (a : num) : (a * NaN)%num = NaN.
Proof. destruct a; reflexivity. Qed.

Lemma add_NaN_l (a : num) : (NaN + a)%num = NaN.
Proof. destruct a; reflexivity. Qed.

Lemma add_NaN_r (a : num) : (a + NaN)%num = NaN.
Proof. destruct a; reflexivity. Qed.

(** A region whose quantities contain a NaN has the weighted deviation
    NaN. *)
Lemma weighted_deviation_NaN (weights : Q * Q * Q) (quantities : num * num * num)
    (ranges : Range * Range * Range) :
  has_nan3 quantities = true -> weighted_deviation weights quantities ranges = NaN.
Proof.
  destruct weights as [[w1 w2] w3], quantities as [[q1 q2] q3], ranges as [[r1 r2] r3].
  unfold has_nan3, weighted_deviation. intros H.
  apply orb_true_iff in H. destruct H as [H | H]; [apply orb_true_iff in H; destruct H as [H | H]|].
  - destruct q1; try discriminate.
    rewrite calculateDeviation_NaN, mul_NaN_r, !add_NaN_l. reflexivity.
  - destruct q2; try discriminate.
    rewrite calculateDeviation_NaN, mul_NaN_r, add_NaN_r, add_NaN_l. reflexivity.
  - destruct q3; try discriminate.
    rewrite calculateDeviation_NaN, mul_NaN_r, add_NaN_r. reflexivity.
Qed.

Lemma calculateEyeScore_weighted (this : FacialMetricsCalculator) (e : EyeMetrics) :
  calculateEyeScore this e
  = deviationToScore (weighted_deviation (eyeWeights this) (eyeQuantities e) (eyeRanges this)).
Proof. reflexivity. Qed.

Lemma calculateNoseScore_weighted (this : FacialMetricsCalculator) (n : NoseMetrics) :
  calculateNoseScore this n
  = deviationToScore (weighted_deviation (noseWeights this) (noseQuantities n) (noseRanges this)).
Proof. reflexivity. Qed.

Lemma calculateJawScore_weighted (this : FacialMetricsCalculator) (j : JawMetrics) :
  calculateJawScore this j
  = deviationToScore (weighted_deviation (jawWeights this) (jawQuantities j) (jawRanges this)).
Proof. reflexivity. Qed.

(** X7.  A NaN among the scored quantities is not caught: the score of its
    region is NaN, and so is the overall score, whatever the other two
    regions score. *)
Theorem calculateQualityScores_NaN (this : FacialMetricsCalculator)
    (features : FacialFeatures) :
  let scores := calculateQualityScores this features in
  (has_nan3 (eyeQuantities features.(eyes)) = true ->
   scores.(score_eyes) = NaN /\ scores.(overall) = NaN)
  /\ (has_nan3 (noseQuantities features.(nose)) = true ->
      scores.(score_nose) = NaN /\ scores.(overall) = NaN)
  /\ (has_nan3 (jawQuantities features.(jaw)) = true ->
      scores.(score_jaw) = NaN /\ scores.(overall) = NaN).
Proof.
  cbv zeta. unfold calculateQualityScores. cbv zeta.
  cbn [score_eyes score_nose score_jaw overall].
  rewrite calculateEyeScore_weighted, calculateNoseScore_weighted,
    calculateJawScore_weighted.
  repeat split.
  all: match goal with H : has_nan3 _ = true |- _ =>
         rewrite (weighted_deviation_NaN _ _ _ H) end.
  all: change (deviationToScore NaN) with NaN;
       rewrite ?add_NaN_l, ?add_NaN_r; reflexivity.
Qed.

(** The features of a face collapsed onto one point: all its distances
    are 0, and the eye aspect ratio 0/0 is NaN. *)
Lemma calculateQualityScores_NaN_witness :
  exists features,
    @calculateFacialFeatures coarse_math collapsed_landmarks = Ok features
    /\ (calculateQualityScores default_calculator features).(score_eyes) = NaN
    /\ (calculateQualityScores default_calculator features).(overall) = NaN.
Proof.
  destruct (result_case (@calculateFacialFeatures coarse_math collapsed_landmarks)
              (fun f => has_nan3 (eyeQuantities f.(eyes))))
    as (features & Hf & Hn); [vm_compute; reflexivity|].
  exists features. split; [exact Hf|].
  destruct (calculateQualityScores_NaN default_calculator features) as (He & _).
  exact (He Hn).
Defined.

Lemma leb_refl_Fin (q : Q) : (Fin q <=? Fin q)%num = true.
Proof. unfold leb. apply Qle_bool_iff. lra. Qed.

(** X8.  [deviationToScore] never increases with the deviation, and it
    saturates: deviations of 0 or less (down to -Infinity) score 100,
    deviations of 1 or more (up to Infinity) score 0; NaN stays NaN. *)
Theorem deviationToScore_antitone :
  (forall a b : num,
     (a <=? b)%num = true -> (deviationToScore b <=? deviationToScore a)%num = true)
  /\ (forall d : Q, d <= 0 -> deviationToScore (Fin d) = Fin 100)
  /\ (forall d : Q, 1 <= d -> (deviationToScore (Fin d) == Fin 0)%num)
  /\ deviationToScore NInf = Fin 100
  /\ deviationToScore PInf = Fin 0
  /\ deviationToScore NaN = NaN.
Proof.
  split; [|split; [|split; [|repeat split]]].
  - intros a b H.
    destruct a as [x| | |], b as [y| | |]; try discriminate H;
      try reflexivity.
    + apply Qle_bool_iff in H.
      unfold deviationToScore. num_unfold. qb; qred; try lra.
      all: try (apply Qle_bool_iff; qred; lra).
    + destruct (deviationToScore_Fin x) as (s & -> & _ & Hs).
      change (deviationToScore PInf) with (Fin 0). apply Qle_bool_iff. lra.
    + destruct (deviationToScore_Fin y) as (s & -> & _ & Hs).
      change (deviationToScore NInf) with (Fin 100). apply Qle_bool_iff. lra.
  - intros d H. unfold deviationToScore. num_unfold. qb; qred; try lra; reflexivity.
  - intros d H. unfold deviationToScore. num_unfold. qb; qred; try lra; reflexivity.
Qed.

(* ------------------------------------------------------------------ *)
(** *** When the validator returns                                     *)

Section ValidatorReturns.
Context {M : MathLib}.
Variable this : QualityValidator.

Lemma calculateFaceSymmetry_total (landmarks : list NormalizedLandmark) :
  (467 <= List.length landmarks)%nat ->
  exists s, calculateFaceSymmetry landmarks = Ok s.
Proof.
  intros H. unfold calculateFaceSymmetry.
  destruct (extract_registry 467 landmarks LANDMARK_INDICES.LEFT_EYE eq_refl H)
    as (le & -> & _).
  destruct (extract_registry 467 landmarks LANDMARK_INDICES.RIGHT_EYE eq_refl H)
    as (re & -> & _).
  cbn [bind]. eexists; reflexivity.
Qed.

Lemma analyzeFaceQuality_total (landmarks : list NormalizedLandmark)
    (imageElement : ImageElement) :
  (467 <= List.length landmarks)%nat ->
  exists fq, analyzeFaceQuality landmarks imageElement = Ok fq.
Proof.
  intros H. unfold analyzeFaceQuality.
  destruct (extract_registry 467 landmarks LANDMARK_INDICES.FACE_OUTLINE eq_refl H)
    as (fo & -> & _).
  destruct (calculateFaceSymmetry_total landmarks H) as (s & ->).
  cbn [bind]. eexists; reflexivity.
Qed.

(** The face analysis reads landmark 466, the tenth point of the right
    eye. *)
Lemma analyzeFaceQuality_Ok_length (landmarks : list NormalizedLandmark)
    (imageElement : ImageElement) (fq : FaceQualityMetrics) :
  analyzeFaceQuality landmarks imageElement = Ok fq ->
  (467 <= List.length landmarks)%nat.
Proof.
  unfold analyzeFaceQuality, calculateFaceSymmetry. intros H.
  destruct (extractLandmarksByIndices landmarks LANDMARK_INDICES.FACE_OUTLINE)
    as [fo|]; [|discriminate].
  destruct (extractLandmarksByIndices landmarks LANDMARK_INDICES.LEFT_EYE)
    as [le|]; [|discriminate].
  destruct (extractLandmarksByIndices landmarks LANDMARK_INDICES.RIGHT_EYE)
    as [re|] eqn:E; [|discriminate].
  assert (Hin : In 466%nat LANDMARK_INDICES.RIGHT_EYE)
    by (unfold LANDMARK_INDICES.RIGHT_EYE; cbn [In]; tauto).
  pose proof (extract_Ok_in_range landmarks _ re E 466%nat Hin). lia.
Qed.

Lemma analyzeImageQuality_Ok_iff (document : Document) (imageElement : ImageElement) :
  (exists iq, analyzeImageQuality document imageElement = Ok iq)
  <-> document.(context2d) = true
      /\ exists pixels, imageElement.(el_imageData) = Ok pixels.
Proof.
  unfold analyzeImageQuality.
  destruct (context2d document); cbn [negb].
  - destruct (el_imageData imageElement) as [pixels|e]; cbn [bind].
    + split; [intros _; split; [reflexivity | exists pixels; reflexivity]
             | intros _; eexists; reflexivity].
    + split; [intros (iq & H); discriminate | intros (_ & pixels & H); discriminate].
  - split; [intros (iq & H); discriminate | intros (H & _); discriminate].
Qed.

(** On a non-empty landmark list the validator runs the two analyses and
    the two lists of checks, in this order. *)
Lemma validateImage_nonempty (document : Document) (imageElement : ImageElement)
    (landmarks : list NormalizedLandmark) :
  landmarks <> [] ->
  validateImage this document imageElement landmarks
  = rethrow
      (imageQuality <- analyzeImageQuality document imageElement ;;
       faceQuality <- analyzeFaceQuality landmarks imageElement ;;
       let issues := validateImageQuality this imageQuality
                     ++ validateFaceQuality this faceQuality in
       Ok (createResult (List.length (filter is_high issues) =? 0)%nat issues
             (calculateConfidence this issues imageQuality faceQuality)))
      (fun error =>
         QualityValidationError ("Quality validation failed: " ++ String_of error)
           ANALYSIS_FAILED error).
Proof.
  intros Hne. destruct landmarks as [|l0 rest]; [contradiction|]. reflexivity.
Qed.

Lemma validateImage_Ok_iff (document : Document) (imageElement : ImageElement)
    (landmarks : list NormalizedLandmark) :
  (exists r, validateImage this document imageElement landmarks = Ok r)
  <-> landmarks = []
      \/ (document.(context2d) = true
          /\ (exists pixels, imageElement.(el_imageData) = Ok pixels)
          /\ (467 <= List.length landmarks)%nat).
Proof.
  destruct landmarks as [|l0 rest].
  - split; [intros _; left; reflexivity | intros _; eexists; reflexivity].
  - rewrite validateImage_nonempty by discriminate.
    pose proof (analyzeImageQuality_Ok_iff document imageElement) as Hiq.
    destruct (analyzeImageQuality document imageElement) as [iq|e]; cbn [bind].
    + destruct Hiq as [Hiq _].
      destruct (Hiq (ex_intro _ iq eq_refl)) as (Hc & Hp).
      destruct (analyzeFaceQuality (l0 :: rest) imageElement) as [fq|e] eqn:Efq;
        cbn [bind rethrow].
      * split; [|intros _; eexists; reflexivity].
        intros _. right. repeat split; try assumption.
        exact (analyzeFaceQuality_Ok_length _ _ _ Efq).
      * split; [intros (r & H); discriminate|].
        intros [H | (_ & _ & H)]; [discriminate|].
        destruct (analyzeFaceQuality_total (l0 :: rest) imageElement H) as (fq & Hfq).
        congruence.
    + cbn [rethrow]. split; [intros (r & H); discriminate|].
      intros [H | (Hc & Hp & _)]; [discriminate|].
      destruct Hiq as [_ Hiq]. destruct (Hiq (conj Hc Hp)) as (iq & H). discriminate.
Qed.

Lemma validateImage_Throw_inv (document : Document) (imageElement : ImageElement)
    (landmarks : list NormalizedLandmark) (e : exn) :
  validateImage this document imageElement landmarks = Throw e ->
  exists msg cause, e = QualityValidationError msg ANALYSIS_FAILED cause.
Proof.
  intros H. unfold validateImage in H.
  match type of H with rethrow ?c ?h = _ => destruct c as [r|e0] end;
    cbn [rethrow] in H; [discriminate|].
  injection H as <-. eexists; eexists; reflexivity.
Qed.

(** X9.  [validateImage] returns a result exactly when the landmark list
    is empty, or the canvas gives a context and its pixels and there are at
    least 467 landmarks (one fewer than the feature extractor asks for).
    Whatever it throws is a [QualityValidationError] with the code
    [ANALYSIS_FAILED]. *)
Theorem validateImage_returns (document : Document) (imageElement : ImageElement)
    (landmarks : list NormalizedLandmark) :
  ((exists r, validateImage this document imageElement landmarks = Ok r)
   <-> landmarks = []
       \/ (document.(context2d) = true
           /\ (exists pixels, imageElement.(el_imageData) = Ok pixels)
           /\ (467 <= List.length landmarks)%nat))
  /\ forall e,
       validateImage this document imageElement landmarks = Throw e ->
       exists msg cause, e = QualityValidationError msg ANALYSIS_FAILED cause.
Proof.
  split.
  - apply validateImage_Ok_iff.
  - apply validateImage_Throw_inv.
Qed.

End ValidatorReturns.

(** The centred face loses its last landmark; the validator still
    returns. *)
Lemma validateImage_returns_witness :
  exists r,
    @validateImage default_validator coarse_math browser checkerboard
      (firstn 467 centered_landmarks) = Ok r.
Proof.
  destruct (@validateImage_returns coarse_math default_validator browser checkerboard
              (firstn 467 centered_landmarks)) as ((_ & H) & _).
  apply H. right. split; [reflexivity|]. split; [eexists; reflexivity|].
  vm_compute. lia.
Defined.

(* ------------------------------------------------------------------ *)
(** *** What the validator reports                                     *)

(** Split a membership in the list of issues of one of the two check
    functions into its cases. *)
Ltac issue_cases H :=
  repeat match type of H with
         | In _ (_ ++ _) => apply in_app_or in H; destruct H as [H | H]
         | In _ (if ?b then _ else _) => destruct b
         | In _ (_ :: _) => destruct H as [<- | H]
         | In _ [] => destruct H
         end.

Lemma validateImageQuality_issues (this : QualityValidator) (iq : ImageQualityMetrics)
    (i : QualityIssue) :
  In i (validateImageQuality this iq) ->
  reported i.(type) = true
  /\ (i.(severity) = high <-> invalidating i.(type) = true).
Proof.
  unfold validateImageQuality. cbv zeta. intros H.
  issue_cases H; cbn; (split; [reflexivity | split; intros E; (reflexivity || discriminate E)]).
Qed.

Lemma validateFaceQuality_issues (this : QualityValidator) (fq : FaceQualityMetrics)
    (i : QualityIssue) :
  In i (validateFaceQuality this fq) ->
  reported i.(type) = true
  /\ (i.(severity) = high <-> invalidating i.(type) = true).
Proof.
  unfold validateFaceQuality. cbv zeta. intros H.
  issue_cases H; cbn; (split; [reflexivity | split; intros E; (reflexivity || discriminate E)]).
Qed.

Lemma validateImageQuality_length (this : QualityValidator) (iq : ImageQualityMetrics) :
  (List.length (validateImageQuality this iq) <= 3)%nat.
Proof.
  unfold validateImageQuality. cbv zeta. rewrite !length_app.
  repeat match goal with
         | |- context [if ?b then _ else _] => destruct b
         end; cbn [List.length]; lia.
Qed.

Lemma validateFaceQuality_length (this : QualityValidator) (fq : FaceQualityMetrics) :
  (List.length (validateFaceQuality this fq) <= 6)%nat.
Proof.
  unfold validateFaceQuality. cbv zeta. rewrite !length_app.
  repeat match goal with
         | |- context [if ?b then _ else _] => destruct b
         end; cbn [List.length]; lia.
Qed.

(** X10.  The issues of a result of [validateImage]: at most nine; on a
    non-empty landmark list their types are among brightness, contrast,
    blur, face_angle, face_size, face_position and partial_face, so
    multiple_faces, poor_lighting, shadow and reflection are never
    reported and no_face_detected only for the empty list. *)
Theorem validateImage_issue_types {M : MathLib} (this : QualityValidator)
    (document : Document) (imageElement : ImageElement)
    (landmarks : list NormalizedLandmark) (r : QualityCheckResult) :
  validateImage this document imageElement landmarks = Ok r ->
  (List.length r.(issues) <= 9)%nat
  /\ forall i, In i r.(issues) ->
       (landmarks <> [] /\ reported i.(type) = true)
       \/ (landmarks = [] /\ i = NO_FACE_ISSUE).
Proof.
  intros H. destruct landmarks as [|l0 rest].
  - unfold validateImage in H. cbn [List.length Nat.eqb rethrow app] in H.
    injection H as <-. cbn [issues createResult]. split; [cbn; lia|].
    intros i [<- | []]. right. split; reflexivity.
  - destruct (validateImage_Ok_inv this document imageElement (l0 :: rest) r)
      as (iq & fq & _ & _ & Hr); [discriminate | exact H |].
    cbv zeta in Hr. subst r. cbn [issues createResult]. split.
    + rewrite length_app.
      pose proof (validateImageQuality_length this iq).
      pose proof (validateFaceQuality_length this fq). lia.
    + intros i Hi. left. split; [discriminate|].
      apply in_app_or in Hi. destruct Hi as [Hi | Hi].
      * apply (validateImageQuality_issues this iq i Hi).
      * apply (validateFaceQuality_issues this fq i Hi).
Qed.

(** X11.  A result of [validateImage] is valid exactly when it has no
    issue of type blur, partial_face or no_face_detected: these are the
    issues of severity high, and issues about lighting, angle, size and
    position never invalidate an image. *)
Theorem validateImage_validity {M : MathLib} (this : QualityValidator)
    (document : Document) (imageElement : ImageElement)
    (landmarks : list NormalizedLandmark) (r : QualityCheckResult) :
  validateImage this document imageElement landmarks = Ok r ->
  (forall i, In i r.(issues) ->
     (i.(severity) = high <-> invalidating i.(type) = true))
  /\ (r.(isValid) = true
      <-> forall i, In i r.(issues) -> invalidating i.(type) = false).
Proof.
  intros H.
  assert (Hsev : forall i, In i r.(issues) ->
                   (i.(severity) = high <-> invalidating i.(type) = true)).
  { destruct landmarks as [|l0 rest].
    - unfold validateImage in H. cbn [List.length Nat.eqb rethrow app] in H.
      injection H as <-. cbn [issues createResult].
      intros i [<- | []]. cbn. split; reflexivity.
    - destruct (validateImage_Ok_inv this document imageElement (l0 :: rest) r)
        as (iq & fq & _ & _ & Hr); [discriminate | exact H |].
      cbv zeta in Hr. subst r. cbn [issues createResult].
      intros i Hi. apply in_app_or in Hi. destruct Hi as [Hi | Hi].
      + apply (validateImageQuality_issues this iq i Hi).
      + apply (validateFaceQuality_issues this fq i Hi). }
  split; [exact Hsev|].
  assert (Hvalid : r.(isValid) = true
                   <-> forall i, In i r.(issues) -> i.(severity) <> high).
  { destruct landmarks as [|l0 rest].
    - unfold validateImage in H. cbn [List.length Nat.eqb rethrow app] in H.
      injection H as <-. cbn [isValid issues createResult]. split; [discriminate|].
      intros N. exfalso. apply (N NO_FACE_ISSUE); [left; reflexivity | reflexivity].
    - destruct (validateImage_Ok_inv this document imageElement (l0 :: rest) r)
        as (iq & fq & _ & _ & Hr); [discriminate | exact H |].
      cbv zeta in Hr. subst r. cbn [isValid issues createResult].
      apply no_high_iff. }
  rewrite Hvalid. split; intros N i Hi; specialize (N i Hi); specialize (Hsev i Hi).
  - destruct (invalidating (type i)); [|reflexivity].
    exfalso. apply N. apply Hsev. reflexivity.
  - intros E. apply Hsev in E. congruence.
Qed.

(** A uniform gray image has no edges: the centred face in front of it is
    reported as blurred, and is not valid. *)
Lemma validateImage_validity_witness :
  exists r,
    @validateImage default_validator coarse_math browser (uniform_image 3 3 128)
      centered_landmarks = Ok r
    /\ has_type r.(issues) blur = true
    /\ (r.(isValid) = true
        <-> forall i, In i r.(issues) -> invalidating i.(type) = false).
Proof.
  destruct (result_case
              (@validateImage default_validator coarse_math browser
                 (uniform_image 3 3 128) centered_landmarks)
              (fun r => has_type r.(issues) blur))
    as (r & Hr & Hb); [vm_compute; reflexivity|].
  exists r. split; [exact Hr|]. split; [exact Hb|].
  destruct (@validateImage_validity coarse_math default_validator browser
              (uniform_image 3 3 128) centered_landmarks r Hr) as (_ & Hv).
  exact Hv.
Defined.

Lemma validateImage_issue_types_witness :
  exists r,
    @validateImage default_validator coarse_math browser (uniform_image 3 3 128)
      centered_landmarks = Ok r
    /\ (0 < List.length r.(issues) <= 9)%nat.
Proof.
  destruct (result_case
              (@validateImage default_validator coarse_math browser
                 (uniform_image 3 3 128) centered_landmarks)
              (fun r => (0 <? List.length r.(issues))%nat))
    as (r & Hr & Hb); [vm_compute; reflexivity|].
  exists r. split; [exact Hr|]. apply Nat.ltb_lt in Hb. split; [exact Hb|].
  destruct (@validateImage_issue_types coarse_math default_validator browser
              (uniform_image 3 3 128) centered_landmarks r Hr) as (Hl & _).
  exact Hl.
Defined.

(** X12.  A result of [validateImage] without issues is the valid result
    with confidence 100 and the positive message as its only
    recommendation. *)
Theorem validateImage_no_issues {M : MathLib} (this : QualityValidator)
    (document : Document) (imageElement : ImageElement)
    (landmarks : list NormalizedLandmark) (r : QualityCheckResult) :
  validateImage this document imageElement landmarks = Ok r ->
  r.(issues) = [] ->
  r = {| isValid := true; issues := []; confidence := 100;
         recommendations := [REC_OK] |}.
Proof.
  intros H Hi. destruct landmarks as [|l0 rest].
  - unfold validateImage in H. cbn [List.length Nat.eqb rethrow app] in H.
    injection H as <-. discriminate Hi.
  - destruct (validateImage_Ok_inv this document imageElement (l0 :: rest) r)
      as (iq & fq & _ & _ & Hr); [discriminate | exact H |].
    cbv zeta in Hr. subst r. cbn [issues createResult] in Hi. rewrite Hi.
    rewrite calculateConfidence_formula.
    unfold createResult, confidence_formula, confidence_bonus.
    cbn [has_type existsb orb List.length Nat.eqb andb app filter count_severity].
    f_equal.
    repeat match goal with |- context [if ?b then _ else _] => destruct b end;
      reflexivity.
Qed.

Lemma validateImage_no_issues_witness :
  exists r,
    @validateImage default_validator coarse_math browser checkerboard
      centered_landmarks = Ok r
    /\ r = {| isValid := true; issues := []; confidence := 100;
              recommendations := [REC_OK] |}.
Proof.
  destruct (result_case
              (@validateImage default_validator coarse_math browser checkerboard
                 centered_landmarks)
              (fun r => (List.length r.(issues) =? 0)%nat))
    as (r & Hr & Hb); [vm_compute; reflexivity|].
  exists r. split; [exact Hr|].
  apply (@validateImage_no_issues coarse_math default_validator browser checkerboard
           centered_landmarks r Hr).
  apply Nat.eqb_eq in Hb. destruct (issues r); [reflexivity | discriminate Hb].
Defined.

(** X13.  The limits on the face height are never read: two validators
    whose thresholds differ only in [minHeight] and [maxHeight] do the
    same on every input. *)
Theorem validateImage_ignores_heights {M : MathLib} (this other : QualityValidator)
    (document : Document) (imageElement : ImageElement)
    (landmarks : list NormalizedLandmark) :
  same_but_heights this.(thresholds) other.(thresholds) ->
  validateImage this document imageElement landmarks
  = validateImage other document imageElement landmarks.
Proof.
  destruct this as [[a1 a2 a3 a4 a5 a6 a7 a8 a9 a10 a11 a12]],
           other as [[b1 b2 b3 b4 b5 b6 b7 b8 b9 b10 b11 b12]].
  unfold same_but_heights. cbn [thresholds maxYaw maxPitch maxRoll brightness_min
    brightness_max contrast_min blur_max minWidth maxWidth centerTolerance].
  intros (<- & <- & <- & <- & <- & <- & <- & <- & <- & <-).
  reflexivity.
Qed.

(** Limits on the height that no face meets change nothing. *)
Lemma validateImage_ignores_heights_witness :
  @validateImage default_validator coarse_math browser checkerboard centered_landmarks
  = @validateImage strict_height_validator coarse_math browser checkerboard
      centered_landmarks.
Proof.
  apply (@validateImage_ignores_heights coarse_math default_validator
           strict_height_validator browser checkerboard centered_landmarks).
  repeat split.
Defined.

Lemma count_severity_app (s : Severity) (a b : list QualityIssue) :
  count_severity s (a ++ b) = (count_severity s a + count_severity s b)%Z.
Proof.
  unfold count_severity. rewrite filter_app, length_app. lia.
Qed.

Lemma count_severity_nonneg (s : Severity) (l : list QualityIssue) :
  (0 <= count_severity s l)%Z.
Proof. unfold count_severity. lia. Qed.

(** X14.  More issues never raise the confidence: with the same image
    and face metrics, the confidence of a list of issues extended by
    further issues is at most the confidence of the list, and a list
    with an issue of severity high has a confidence of at most 95. *)
Theorem calculateConfidence_antitone (this : QualityValidator)
    (issues more : list QualityIssue)
    (imageQuality : ImageQualityMetrics) (faceQuality : FaceQualityMetrics) :
  (calculateConfidence this (issues ++ more) imageQuality faceQuality
   <= calculateConfidence this issues imageQuality faceQuality)%Z
  /\ ((exists i, In i issues /\ i.(severity) = high) ->
      (calculateConfidence this issues imageQuality faceQuality <= 95)%Z).
Proof.
  rewrite !calculateConfidence_formula. unfold confidence_formula. split.
  - rewrite !count_severity_app.
    pose proof (count_severity_nonneg high more).
    pose proof (count_severity_nonneg medium more).
    pose proof (count_severity_nonneg low more). lia.
  - intros (i & Hi & Hs).
    assert (Hh : (1 <= count_severity high issues)%Z).
    { apply in_split in Hi. destruct Hi as (l1 & l2 & ->).
      rewrite count_severity_app, count_severity_cons.
      unfold has_severity at 1. rewrite Hs.
      pose proof (count_severity_nonneg high l1).
      pose proof (count_severity_nonneg high l2). lia. }
    pose proof (count_severity_nonneg medium issues).
    pose proof (count_severity_nonneg low issues).
    unfold confidence_bonus.
    repeat match goal with |- context [if ?b then _ else _] => destruct b end; lia.
Qed.

(** X15.  An image whose pixels all have the same colour, with at least
    three columns and three rows, is never valid: whatever the face, a
    validator whose blur limit is below 1 reports it as blurred. *)
Theorem validateImage_uniform {M : MathLib} (this : QualityValidator)
    (document : Document) (width height : nat) (r g b : Z)
    (landmarks : list NormalizedLandmark) (result : QualityCheckResult) :
  (3 <= width)%nat -> (3 <= height)%nat ->
  this.(thresholds).(blur_max) < 1 ->
  landmarks <> [] ->
  validateImage this document
    {| el_width := width; el_height := height;
       el_imageData := Ok (uniform_pixels width height r g b) |} landmarks = Ok result ->
  result.(isValid) = false /\ has_type result.(issues) blur = true.
Proof.
  intros Hw Hh Hb Hne H.
  destruct (validateImage_Ok_inv this document _ landmarks result Hne H)
    as (iq & fq & Hiq & _ & Hr).
  cbv zeta in Hr.
  unfold analyzeImageQuality in Hiq. cbn [el_imageData el_width el_height bind] in Hiq.
  destruct (negb (context2d document)); [discriminate|]. injection Hiq as <-.
  destruct (uniform_image_metrics width height r g b Hw Hh) as (_ & Hblur).
  cbv zeta in Hblur.
  set (iq := imageMetrics (uniform_pixels width height r g b) width height) in *.
  assert (Hin : exists i, In i (validateImageQuality this iq)
                          /\ i.(type) = blur /\ i.(severity) = high).
  { unfold validateImageQuality. cbv zeta. rewrite Hblur.
    assert (E : (Fin 1 >? Fin (blur_max (thresholds this)))%num = true).
    { unfold gtb, ltb. apply negb_true_iff, not_true_iff_false.
      intros E. apply Qle_bool_iff in E. lra. }
    rewrite E. eexists. split.
    - apply in_or_app. right. apply in_or_app. right. left. reflexivity.
    - split; reflexivity. }
  destruct Hin as (i & Hi & Ht & Hs).
  subst result. cbn [isValid issues createResult]. split.
  - apply not_true_iff_false. intros E.
    apply (proj1 (no_high_iff _) E i); [apply in_or_app; left; exact Hi | exact Hs].
  - apply not_false_iff_true. intros E.
    apply (proj1 (has_type_false_iff _ _) E i); [apply in_or_app; left; exact Hi | exact Ht].
Qed.

(** The centred face in front of a gray image of 3 x 3 pixels. *)
Lemma validateImage_uniform_witness :
  exists result,
    @validateImage default_validator coarse_math browser (uniform_image 3 3 128)
      centered_landmarks = Ok result
    /\ result.(isValid) = false /\ has_type result.(issues) blur = true.
Proof.
  destruct (result_case
              (@validateImage default_validator coarse_math browser
                 (uniform_image 3 3 128) centered_landmarks)
              (fun _ => true))
    as (result & Hr & _); [vm_compute; reflexivity|].
  exists result. split; [exact Hr|].
  apply (@validateImage_uniform coarse_math default_validator browser 3 3 128 128 128
           centered_landmarks result); try lia.
  - reflexivity.
  - vm_compute; discriminate.
  - exact Hr.
Defined.

(* ------------------------------------------------------------------ *)
(** *** Distances and angles                                           *)

Section Geometry.
Context {M : MathLib}.

(** X16.  The distance between two landmarks does not depend on their
    order, and it is 0 from a landmark to itself. *)
Theorem calculateDistance_symmetric (p q : NormalizedLandmark) :
  calculateDistance (xy p) (xy q) = calculateDistance (xy q) (xy p)
  /\ calculateDistance (xy p) (xy p) = Fin 0.
Proof.
  split.
  - unfold calculateDistance, xy; cbn [px py].
    destruct (squares_Fin (x p) (x q) (y p) (y q)) as (s & Es & Hs).
    destruct (squares_Fin (x q) (x p) (y q) (y p)) as (t & Et & Ht).
    assert (E : ((Fin (x p) - Fin (x q)) * (Fin (x p) - Fin (x q))
                 + (Fin (y p) - Fin (y q)) * (Fin (y p) - Fin (y q)))%num
                = ((Fin (x q) - Fin (x p)) * (Fin (x q) - Fin (x p))
                   + (Fin (y q) - Fin (y p)) * (Fin (y q) - Fin (y p)))%num).
    { unfold sub, neg, add, mul. apply fin_eq. qred. ring. }
    rewrite E. reflexivity.
  - apply calculateDistance_self.
Qed.

Lemma magnitude_zero (a b : Q) :
  sqrt ((Fin a - Fin a) * (Fin a - Fin a) + (Fin b - Fin b) * (Fin b - Fin b))%num
  = Fin 0.
Proof.
  destruct (squares_Fin a a b b) as (s & -> & Hs).
  apply sqrt_zero. rewrite Hs. ring.
Qed.

(** X17.  The angle at a centre that coincides with one of the two other
    points is reported as 0: the guard on a zero magnitude returns before
    the division. *)
Theorem calculateAngle_degenerate (p c : NormalizedLandmark) :
  calculateAngle (xy c) (xy c) (xy p) = Fin 0
  /\ calculateAngle (xy p) (xy c) (xy c) = Fin 0.
Proof.
  split; unfold calculateAngle, xy; cbn [px py]; cbv zeta;
    rewrite magnitude_zero; change (eqb (Fin 0) (Fin 0)) with true;
    rewrite ?orb_true_r; reflexivity.
Qed.

End Geometry.

(* ------------------------------------------------------------------ *)
(** *** The face in the frame                                          *)

(** The counting loop of [calculateFaceCompleteness] adds at most one per
    index. *)
Lemma count_visible_bound (landmarks : list NormalizedLandmark) (indices : list nat)
    (c : Q) :
  exists c' (k : nat),
    fold_left
      (fun visibleCount index =>
         match nth_error landmarks index with
         | Some landmark =>
             if landmarkVisible landmark then (visibleCount + Fin 1)%num
             else visibleCount
         | None => visibleCount
         end)
      indices (Fin c) = Fin c'
    /\ (k <= List.length indices)%nat
    /\ c' == c + inject_Z (Z.of_nat k).
Proof.
  revert c. induction indices as [|i rest IH]; intros c.
  - exists c, 0%nat. split; [reflexivity|]. split; [cbn; lia|].
    change (inject_Z (Z.of_nat 0)) with 0. lra.
  - cbn [fold_left List.length].
    destruct (nth_error landmarks i) as [l|]; [destruct (landmarkVisible l)|].
    + change (Fin c + Fin 1)%num with (Fin (Qred (c + 1))).
      destruct (IH (Qred (c + 1))) as (c' & k & Hf & Hk & Hc).
      exists c', (S k). split; [exact Hf|]. split; [lia|].
      rewrite Hc, Qred_correct, Nat2Z.inj_succ, <- Z.add_1_r, inject_Z_plus.
      change (inject_Z 1) with 1. lra.
    + destruct (IH c) as (c' & k & Hf & Hk & Hc).
      exists c', k. split; [exact Hf|]. split; [lia | exact Hc].
    + destruct (IH c) as (c' & k & Hf & Hk & Hc).
      exists c', k. split; [exact Hf|]. split; [lia | exact Hc].
Qed.

(** X18.  Completeness is a number of sixteenths between 0 and 1 for
    every landmark list, and 0 for the empty one: a key index that
    resolves to no landmark counts as not visible. *)
Theorem calculateFaceCompleteness_range (landmarks : list NormalizedLandmark) :
  (exists (c : Q) (k : nat),
     calculateFaceCompleteness landmarks = Fin c
     /\ (k <= 16)%nat /\ c == inject_Z (Z.of_nat k) / 16 /\ 0 <= c <= 1)
  /\ calculateFaceCompleteness [] = Fin 0.
Proof.
  split; [|reflexivity].
  unfold calculateFaceCompleteness.
  destruct (count_visible_bound landmarks keyLandmarkIndices 0) as (c & k & -> & Hk & Hc).
  change (of_nat (List.length keyLandmarkIndices)) with (Fin 16).
  change (List.length keyLandmarkIndices) with 16%nat in Hk.
  change (Fin c / Fin 16)%num with (fin (c / 16)).
  exists (Qred (c / 16)), k. split; [reflexivity|]. split; [exact Hk|].
  assert (H0 : 0 <= inject_Z (Z.of_nat k)).
  { change 0 with (inject_Z 0). rewrite <- Zle_Qle. lia. }
  assert (H16 : inject_Z (Z.of_nat k) <= 16).
  { change 16 with (inject_Z 16). rewrite <- Zle_Qle. lia. }
  rewrite Qred_correct, Hc.
  split; [field|].
  split.
  - apply Qdiv_nonneg; lra.
  - apply Qle_shift_div_r; lra.
Qed.

(** The running minimum and maximum of the bounding box. *)
Lemma min_fold (f : NormalizedLandmark -> Q) (l : list NormalizedLandmark) (a : Q) :
  exists m,
    fold_left (fun acc p => JsNum.min acc (Fin (f p))) l (Fin a) = Fin m
    /\ m <= a /\ (forall p, In p l -> m <= f p)
    /\ (m = a \/ exists p, In p l /\ m = f p).
Proof.
  revert a. induction l as [|p rest IH]; intros a.
  - exists a. split; [reflexivity|]. split; [lra|]. split; [intros p []|]. left; reflexivity.
  - cbn [fold_left]. unfold JsNum.min at 2, leb.
    destruct (Qle_bool a (f p)) eqn:E.
    + apply Qle_bool_iff in E.
      destruct (IH a) as (m & Hf & Ha & Hall & Hatt).
      exists m. split; [exact Hf|]. split; [exact Ha|]. split.
      * intros q [<- | Hq]; [lra | apply Hall; exact Hq].
      * destruct Hatt as [-> | (q & Hq & ->)]; [left; reflexivity|].
        right. exists q. split; [right; exact Hq | reflexivity].
    + apply not_true_iff_false in E. rewrite Qle_bool_iff in E.
      destruct (IH (f p)) as (m & Hf & Ha & Hall & Hatt).
      exists m. split; [exact Hf|]. split; [lra|]. split.
      * intros q [<- | Hq]; [exact Ha | apply Hall; exact Hq].
      * right. destruct Hatt as [-> | (q & Hq & ->)].
        -- exists p. split; [left; reflexivity | reflexivity].
        -- exists q. split; [right; exact Hq | reflexivity].
Qed.

Lemma max_fold (f : NormalizedLandmark -> Q) (l : list NormalizedLandmark) (a : Q) :
  exists m,
    fold_left (fun acc p => JsNum.max acc (Fin (f p))) l (Fin a) = Fin m
    /\ a <= m /\ (forall p, In p l -> f p <= m)
    /\ (m = a \/ exists p, In p l /\ m = f p).
Proof.
  revert a. induction l as [|p rest IH]; intros a.
  - exists a. split; [reflexivity|]. split; [lra|]. split; [intros p []|]. left; reflexivity.
  - cbn [fold_left]. unfold JsNum.max at 2, leb.
    destruct (Qle_bool a (f p)) eqn:E.
    + apply Qle_bool_iff in E.
      destruct (IH (f p)) as (m & Hf & Ha & Hall & Hatt).
      exists m. split; [exact Hf|]. split; [lra|]. split.
      * intros q [<- | Hq]; [exact Ha | apply Hall; exact Hq].
      * right. destruct Hatt as [-> | (q & Hq & ->)].
        -- exists p. split; [left; reflexivity | reflexivity].
        -- exists q. split; [right; exact Hq | reflexivity].
    + apply not_true_iff_false in E. rewrite Qle_bool_iff in E.
      destruct (IH a) as (m & Hf & Ha & Hall & Hatt).
      exists m. split; [exact Hf|]. split; [exact Ha|]. split.
      * intros q [<- | Hq]; [lra | apply Hall; exact Hq].
      * destruct Hatt as [-> | (q & Hq & ->)]; [left; reflexivity|].
        right. exists q. split; [right; exact Hq | reflexivity].
Qed.

(** The loop of [calculateFaceBoundingBox] keeps four independent
    running extrema. *)
Lemma box_fold (l : list NormalizedLandmark) (a b c d : num) :
  fold_left
    (fun acc landmark =>
       let '(minX, maxX, minY, maxY) := acc in
       (JsNum.min minX (Fin landmark.(x)), JsNum.max maxX (Fin landmark.(x)),
        JsNum.min minY (Fin landmark.(y)), JsNum.max maxY (Fin landmark.(y))))
    l (a, b, c, d)
  = (fold_left (fun acc p => JsNum.min acc (Fin (x p))) l a,
     fold_left (fun acc p => JsNum.max acc (Fin (x p))) l b,
     fold_left (fun acc p => JsNum.min acc (Fin (y p))) l c,
     fold_left (fun acc p => JsNum.max acc (Fin (y p))) l d).
Proof.
  revert a b c d. induction l as [|p rest IH]; intros a b c d; [reflexivity|].
  cbn [fold_left]. apply IH.
Qed.

(** X19.  The bounding box of a non-empty landmark list has its corner at
    the smallest x and the smallest y of the landmarks, so no landmark
    lies left of it or above it and one lies on each of the two edges; its
    width and height are not negative, and the width (height) is zero only
    if all landmarks have the same x (y).  For the empty list the extrema
    are never updated: the corner is at +Infinity and the sides are
    -Infinity. *)
Theorem calculateFaceBoundingBox_spec (landmarks : list NormalizedLandmark) :
  (landmarks <> [] ->
   exists l t,
     let box := calculateFaceBoundingBox landmarks in
     box.(left) = Fin l /\ box.(top) = Fin t
     /\ (forall p, In p landmarks -> l <= p.(x) /\ t <= p.(y))
     /\ (exists p, In p landmarks /\ p.(x) == l)
     /\ (exists p, In p landmarks /\ p.(y) == t)
     /\ (Fin 0 <=? box.(box_width))%num = true
     /\ (Fin 0 <=? box.(box_height))%num = true
     /\ (eqb box.(box_width) (Fin 0) = true -> forall p, In p landmarks -> p.(x) == l)
     /\ (eqb box.(box_height) (Fin 0) = true -> forall p, In p landmarks -> p.(y) == t))
  /\ calculateFaceBoundingBox []
     = {| left := PInf; top := PInf; box_width := NInf; box_height := NInf |}.
Proof.
  split; [|reflexivity].
  intros Hne. destruct landmarks as [|p0 rest]; [contradiction|].
  unfold calculateFaceBoundingBox. rewrite box_fold. cbn [fold_left].
  change (JsNum.min PInf (Fin (x p0))) with (Fin (x p0)).
  change (JsNum.max NInf (Fin (x p0))) with (Fin (x p0)).
  change (JsNum.min PInf (Fin (y p0))) with (Fin (y p0)).
  change (JsNum.max NInf (Fin (y p0))) with (Fin (y p0)).
  destruct (min_fold x rest (x p0)) as (l & -> & Hl0 & Hl & Hla).
  destruct (max_fold x rest (x p0)) as (r & -> & Hr0 & Hr & Hra).
  destruct (min_fold y rest (y p0)) as (t & -> & Ht0 & Ht & Hta).
  destruct (max_fold y rest (y p0)) as (b & -> & Hb0 & Hb & Hba).
  exists l, t. cbv zeta. cbn [left top box_width box_height].
  split; [reflexivity|]. split; [reflexivity|].
  split; [|split; [|split; [|split; [|split; [|split]]]]].
  - intros p [<- | Hp]; [split; lra|].
    split; [apply Hl | apply Ht]; exact Hp.
  - destruct Hla as [-> | (p & Hp & ->)].
    + exists p0. split; [left; reflexivity | reflexivity].
    + exists p. split; [right; exact Hp | reflexivity].
  - destruct Hta as [-> | (p & Hp & ->)].
    + exists p0. split; [left; reflexivity | reflexivity].
    + exists p. split; [right; exact Hp | reflexivity].
  - unfold sub, neg, add, fin, leb. apply Qle_bool_iff. rewrite Qred_correct. lra.
  - unfold sub, neg, add, fin, leb. apply Qle_bool_iff. rewrite Qred_correct. lra.
  - unfold sub, neg, add, fin, eqb. intros E. apply Qeq_bool_iff in E.
    rewrite Qred_correct in E.
    intros p [<- | Hp]; [lra|]. specialize (Hl p Hp). specialize (Hr p Hp). lra.
  - unfold sub, neg, add, fin, eqb. intros E. apply Qeq_bool_iff in E.
    rewrite Qred_correct in E.
    intros p [<- | Hp]; [lra|]. specialize (Ht p Hp). specialize (Hb p Hp). lra.
Qed.

(* ------------------------------------------------------------------ *)
(** *** The blur estimate                                              *)

Lemma byte_at_Fin (pixels : list Z) (i : nat) : exists v, byte_at pixels i = Fin v.
Proof.
  unfold byte_at. destruct (nth_error pixels i); eexists; reflexivity.
Qed.

(** The edge loop of [estimateBlur]: the sum of the edge strengths is not
    negative, and the count is the number of pixels visited. *)
Lemma blur_fold (pixels : list Z) (width : nat) (l : list (nat * nat)) (s c : Q) :
  0 <= s ->
  exists s' c',
    fold_left
      (fun acc yx =>
         let '(edgeSum, edgeCount) := acc in
         let '(y, x) := yx in
         let index := ((y * width + x) * 4)%nat in
         let current := byte_at pixels index in
         let right := byte_at pixels (index + 4) in
         let down := byte_at pixels ((y + 1) * width * 4 + x * 4) in
         let edgeStrength := (abs (current - right) + abs (current - down))%num in
         ((edgeSum + edgeStrength)%num, (edgeCount + Fin 1)%num))
      l (Fin s, Fin c)
    = (Fin s', Fin c')
    /\ 0 <= s' /\ c' == c + inject_Z (Z.of_nat (List.length l)).
Proof.
  revert s c. induction l as [|[y x] rest IH]; intros s c Hs.
  - exists s, c. split; [reflexivity|]. split; [exact Hs|].
    change (inject_Z (Z.of_nat (List.length (@nil (nat * nat))))) with 0. lra.
  - cbn [fold_left]. cbv zeta.
    destruct (byte_at_Fin pixels ((y * width + x) * 4)) as (a & ->).
    destruct (byte_at_Fin pixels ((y * width + x) * 4 + 4)) as (b & ->).
    destruct (byte_at_Fin pixels ((y + 1) * width * 4 + x * 4)) as (d & ->).
    change (Fin s + (abs (Fin a - Fin b) + abs (Fin a - Fin d)))%num
      with (Fin (Qred (s + Qred (Qabs (Qred (a + - b)) + Qabs (Qred (a + - d)))))).
    change (Fin c + Fin 1)%num with (Fin (Qred (c + 1))).
    destruct (IH (Qred (s + Qred (Qabs (Qred (a + - b)) + Qabs (Qred (a + - d)))))
                (Qred (c + 1))) as (s' & c' & Hf & Hs' & Hc').
    { rewrite !Qred_correct. abs_nonneg. lra. }
    exists s', c'. split; [exact Hf|]. split; [exact Hs'|].
    rewrite Hc', Qred_correct. cbn [List.length].
    rewrite Nat2Z.inj_succ, <- Z.add_1_r, inject_Z_plus.
    change (inject_Z 1) with 1. lra.
Qed.

(** X20.  For an image with at least three columns and three rows the
    blur estimate is a finite number between 0 and 1, whatever the bytes
    of the image are. *)
Theorem estimateBlur_range (pixels : list Z) (width height : nat) :
  (3 <= width)%nat -> (3 <= height)%nat ->
  exists b, estimateBlur pixels width height = Fin b /\ 0 <= b <= 1.
Proof.
  intros Hw Hh. unfold estimateBlur.
  destruct (blur_fold pixels width (list_prod (seq 1 (height - 2)) (seq 1 (width - 2)))
              0 0 ltac:(lra)) as (s & c & Hf & Hs & Hc).
  match goal with
  | |- context [fold_left ?f ?l ?a] =>
      replace (fold_left f l a) with (Fin s, Fin c) by (symmetry; exact Hf)
  end.
  clear Hf.
  rewrite length_prod, !length_seq in Hc.
  assert (Hpos : 1 <= c).
  { rewrite Hc. change 1 with (inject_Z 1) at 1.
    setoid_replace (0 + inject_Z (Z.of_nat ((height - 2) * (width - 2))))
      with (inject_Z (Z.of_nat ((height - 2) * (width - 2)))) by ring.
    rewrite <- Zle_Qle. nia. }
  assert (Havg : 0 <= s / c) by (apply Qdiv_nonneg; lra).
  num_unfold. qb; try lra.
  assert (Hq : 0 <= Qred (s / c) / 255) by (apply Qdiv_nonneg; [rewrite Qred_correct|]; lra).
  qb; qred; try lra.
  all: eexists; (split; [reflexivity|]); qred; lra.
Qed.

(** The checkerboard is as sharp as an image gets. *)
Lemma estimateBlur_range_witness :
  exists b,
    estimateBlur
      [0; 0; 0; 255; 255; 255; 255; 255; 0; 0; 0; 255;
       255; 255; 255; 255; 0; 0; 0; 255; 255; 255; 255; 255;
       0; 0; 0; 255; 255; 255; 255; 255; 0; 0; 0; 255]%Z 3 3 = Fin b
    /\ 0 <= b <= 1.
Proof.
  apply estimateBlur_range; lia.
Defined.

(* ------------------------------------------------------------------ *)
(** *** The face landmarker                                            *)

(** X21.  [initialize] loads the library at most once: whatever a call
    answers and leaves behind, the next call answers the same and changes
    nothing, without looking at what a new load would give.  A failed
    initialization is therefore never tried again. *)
Theorem initialize_settles_once (this : MediaPipeFaceLandmarker)
    (load again : result FaceLandmarker) :
  initialize again (fst (initialize load this)) = initialize load this.
Proof.
  unfold initialize.
  destruct (isInitialized this) eqn:Ei.
  - cbn [fst]. rewrite Ei. reflexivity.
  - destruct (initializationPromise this) as [promise|] eqn:Ep.
    + cbn [fst]. rewrite Ei, Ep. reflexivity.
    + destruct load as [created|e]; cbn [doInitialize fst isInitialized initializationPromise
                                          faceLandmarker].
      * reflexivity.
      * rewrite Ei. reflexivity.
Qed.

Lemma invoke_consistent (this : MediaPipeFaceLandmarker) (m : method) :
  consistent this -> consistent (invoke this m).
Proof.
  destruct this as [[fl|] [|] [[[]|[e|n msg code d]]|]]; cbn; try contradiction;
    intros H; destruct m as [[created|e']|]; cbn; try exact I; try exact H; reflexivity.
Qed.

Lemma run_consistent (calls : list method) (this : MediaPipeFaceLandmarker) :
  consistent this -> consistent (run calls this).
Proof.
  revert this. induction calls as [|m rest IH]; intros this H; [exact H|].
  cbn [run fold_left]. apply IH. apply invoke_consistent. exact H.
Qed.

(** X22.  After any sequence of calls to [initialize] and [dispose] on a
    new object, [isInitialized] is set exactly when the library object is
    there, so the second half of the guard of [detectLandmarks] never
    decides; [detectLandmarks] throws the "not initialized" [Error]
    exactly when [isInitialized] is false, and otherwise returns or throws
    the object with code DETECTION_FAILED. *)
Theorem detectLandmarks_guard (calls : list method) (imageElement : ImageElement) :
  let this := run calls new in
  (this.(isInitialized) = true <-> this.(faceLandmarker) <> None)
  /\ (this.(isInitialized) = false <->
      detectLandmarks this imageElement
      = Raise (Exception (Error "MediaPipe not initialized. Call initialize() first.")))
  /\ (this.(isInitialized) = true ->
      (exists landmarks, detectLandmarks this imageElement = Return landmarks)
      \/ (exists name message details,
            detectLandmarks this imageElement
            = Raise (MediaPipeError name message "DETECTION_FAILED" details))).
Proof.
  cbv zeta.
  pose proof (run_consistent calls new I) as H.
  destruct (run calls new) as [[fl|] [|] [[[]|[e|n msg code d]]|]];
    unfold consistent in H; cbn [isInitialized faceLandmarker initializationPromise] in H |- *;
    try contradiction.
  - split; [split; [discriminate | reflexivity]|].
    unfold detectLandmarks; cbn [isInitialized faceLandmarker].
    split; [split; [discriminate|]|].
    + destruct (detect fl imageElement) as [[[|l rest]]|e]; discriminate.
    + intros _. destruct (detect fl imageElement) as [[[|l rest]]|e].
      * left. eexists; reflexivity.
      * left. eexists; reflexivity.
      * right. eexists; eexists; eexists; reflexivity.
  - split; [split; [discriminate | intros N; contradiction N; reflexivity]|].
    split; [split; reflexivity | discriminate].
  - split; [split; [discriminate | intros N; contradiction N; reflexivity]|].
    split; [split; reflexivity | discriminate].
Qed.

(* ------------------------------------------------------------------ *)
(** *** The capture pipeline                                           *)

Section Pipeline.
Context {M : MathLib}.

Lemma calculateFacialFeatures_Throw_inv (landmarks : list NormalizedLandmark) (e : exn) :
  calculateFacialFeatures landmarks = Throw e ->
  exists msg code feature details, e = MetricsCalculationError msg code feature details.
Proof.
  unfold calculateFacialFeatures.
  destruct (List.length landmarks <? 468)%nat.
  - intros H. injection H as <-. repeat eexists.
  - match goal with |- rethrow ?c ?h = _ -> _ => destruct c as [f|e0] end;
      cbn [rethrow]; intros H; [discriminate|].
    injection H as <-. repeat eexists.
Qed.

Lemma detectLandmarks_Return_inv (this : MediaPipeFaceLandmarker)
    (imageElement : ImageElement) (landmarks : list NormalizedLandmark) :
  detectLandmarks this imageElement = Return landmarks ->
  landmarks <> [] ->
  exists library detected others,
    this.(isInitialized) = true
    /\ this.(faceLandmarker) = Some library
    /\ library.(detect) imageElement = Ok detected
    /\ detected.(faceLandmarks) = landmarks :: others.
Proof.
  unfold detectLandmarks. intros H Hne.
  destruct (isInitialized this); [|discriminate].
  destruct (faceLandmarker this) as [library|]; [|discriminate].
  destruct (detect library imageElement) as [[[|l others]]|e] eqn:E;
    cbn [faceLandmarks] in H; try discriminate.
  - injection H as <-. contradiction.
  - injection H as <-. exists library, {| faceLandmarks := l :: others |}, others.
    repeat split. exact E.
Qed.

Lemma detectLandmarks_Raise_inv (this : MediaPipeFaceLandmarker)
    (imageElement : ImageElement) (t : thrown) :
  detectLandmarks this imageElement = Raise t ->
  t = Exception (Error "MediaPipe not initialized. Call initialize() first.")
  \/ exists name message code details, t = MediaPipeError name message code details.
Proof.
  unfold detectLandmarks. intros H.
  destruct (isInitialized this); [|injection H as <-; left; reflexivity].
  destruct (faceLandmarker this) as [library|]; [|injection H as <-; left; reflexivity].
  destruct (detect library imageElement) as [[[|l others]]|e];
    cbn [faceLandmarks] in H; try discriminate.
  injection H as <-. right. repeat eexists.
Qed.

(** The steps of [processImage] up to the result that [onCapture] is
    called with. *)
Lemma processImage_steps (refs : Refs) (document : Document) (canvas : Canvas)
    (imageElement : ImageElement) :
  (exists landmarker validator calculator landmarks qualityCheck features pixels,
     refs = {| landmarkerRef := Some landmarker;
               qualityValidatorRef := Some validator;
               metricsCalculatorRef := Some calculator |}
     /\ detectLandmarks landmarker imageElement = Return landmarks
     /\ landmarks <> []
     /\ validateImage validator document imageElement landmarks = Ok qualityCheck
     /\ calculateFacialFeatures landmarks = Ok features
     /\ canvas.(canvas_context2d) = true
     /\ canvas.(canvas_imageData) = Ok pixels
     /\ let result := {| cap_imageData := pixels;
                         cap_landmarks := landmarks;
                         cap_qualityCheck := qualityCheck;
                         cap_features := features;
                         cap_scores := calculateQualityScores calculator features |} in
        forall onCapture,
          processImage refs document canvas onCapture imageElement
          = match notify onCapture result with
            | Return _ => status_complete result
            | Raise error => status_error (errorMessage error)
            end)
  \/ (exists message,
        (forall onCapture,
           processImage refs document canvas onCapture imageElement = status_error message)
        /\ (message = NOT_INITIALIZED
            \/ message = "MediaPipe not initialized. Call initialize() first."%string
            \/ message = NO_FACE
            \/ message = PROCESSING_FAILED
            \/ (canvas.(canvas_context2d) = false /\ message = NO_CONTEXT)
            \/ exists e, canvas.(canvas_imageData) = Throw e
                         /\ message = errorMessage (Exception e))).
Proof.
  unfold processImage.
  destruct refs as [[landmarker|] [validator|] [calculator|]];
    cbn [landmarkerRef qualityValidatorRef metricsCalculatorRef];
    try (right; exists NOT_INITIALIZED; split; [reflexivity | left; reflexivity]).
  destruct (detectLandmarks landmarker imageElement) as [landmarks|t] eqn:Ed;
    cbn [complete_bind].
  - destruct landmarks as [|l0 rest].
    { right. exists NO_FACE. split; [reflexivity|]. right; right; left; reflexivity. }
    cbn [List.length Nat.eqb].
    destruct (validateImage validator document imageElement (l0 :: rest)) as [qc|e] eqn:Ev;
      cbn [call complete_bind].
    + destruct (calculateFacialFeatures (l0 :: rest)) as [features|e] eqn:Ef;
        cbn [call complete_bind].
      * destruct (canvas_context2d canvas) eqn:Ec; cbn [negb].
        -- destruct (canvas_imageData canvas) as [pixels|e] eqn:Ep;
             cbn [call complete_bind].
           ++ left. exists landmarker, validator, calculator, (l0 :: rest), qc, features, pixels.
              repeat (split; [first [reflexivity | assumption | discriminate]|]).
              cbv zeta. intros onCapture. destruct (notify onCapture _); reflexivity.
           ++ right. exists (errorMessage (Exception e)). split; [reflexivity|].
              do 5 right. exists e. split; reflexivity.
        -- right. exists NO_CONTEXT. split; [reflexivity|].
           do 4 right. left. split; reflexivity.
      * destruct (calculateFacialFeatures_Throw_inv _ _ Ef) as (m & c & f & d & ->).
        right. exists PROCESSING_FAILED. split; [reflexivity|].
        right; right; right; left; reflexivity.
    + destruct (validateImage_Throw_inv validator document imageElement _ e Ev)
        as (m & cause & ->).
      right. exists PROCESSING_FAILED. split; [reflexivity|].
      right; right; right; left; reflexivity.
  - destruct (detectLandmarks_Raise_inv landmarker imageElement t Ed)
      as [-> | (n & m & c & d & ->)].
    + right. eexists. split; [reflexivity|]. right; left; reflexivity.
    + right. exists PROCESSING_FAILED. split; [reflexivity|].
      right; right; right; left; reflexivity.
Qed.

(** X23.  Without a callback, [processImage] ends with the status
    'complete' exactly when the three objects are set, the landmarker is
    initialized, the library finds a first face of at least 468 landmarks,
    and the canvas of the validator and the canvas of [processImage] each
    give a context and the pixels.  The verdict of the quality check plays
    no part: an image that is not valid completes as well.  With a
    callback [onCapture] it completes exactly when it would without and the
    callback returns; a callback that throws turns the status into
    'error'. *)
Theorem processImage_completes (refs : Refs) (document : Document) (canvas : Canvas)
    (onCapture : OnCapture) (imageElement : ImageElement) :
  ((exists result,
      processImage refs document canvas None imageElement = status_complete result)
   <-> exists landmarker validator calculator library detected landmarks others pixels
              imageData,
         refs = {| landmarkerRef := Some landmarker;
                   qualityValidatorRef := Some validator;
                   metricsCalculatorRef := Some calculator |}
         /\ landmarker.(isInitialized) = true
         /\ landmarker.(faceLandmarker) = Some library
         /\ library.(detect) imageElement = Ok detected
         /\ detected.(faceLandmarks) = landmarks :: others
         /\ (468 <= List.length landmarks)%nat
         /\ document.(context2d) = true
         /\ imageElement.(el_imageData) = Ok pixels
         /\ canvas.(canvas_context2d) = true
         /\ canvas.(canvas_imageData) = Ok imageData)
  /\ (forall result,
        processImage refs document canvas onCapture imageElement = status_complete result
        <-> processImage refs document canvas None imageElement = status_complete result
            /\ notify onCapture result = Return tt)
  /\ (forall result error,
        processImage refs document canvas None imageElement = status_complete result ->
        notify onCapture result = Raise error ->
        processImage refs document canvas onCapture imageElement
        = status_error (errorMessage error)).
Proof.
  split.
  { split.
    - intros (result & H).
      destruct (processImage_steps refs document canvas imageElement)
        as [(landmarker & validator & calculator & landmarks & qc & features & imageData
             & Hrefs & Hd & Hne & Hv & Hf & Hc & Hp & _)
           | (message & Hall & _)]; [|rewrite Hall in H; discriminate H].
      destruct (detectLandmarks_Return_inv landmarker imageElement landmarks Hd Hne)
        as (library & detected & others & Hi & Hl & Hdet & Hfaces).
      pose proof (calculateFacialFeatures_Ok_length _ _ Hf) as Hlen.
      destruct (validateImage_Ok_iff validator document imageElement landmarks)
        as (Hvi & _).
      destruct (Hvi (ex_intro _ qc Hv)) as [N | (Hdc & (pixels & Hvp) & _)];
        [destruct landmarks; [contradiction | discriminate N]|].
      exists landmarker, validator, calculator, library, detected, landmarks, others,
        pixels, imageData.
      repeat (split; [assumption|]). exact Hp.
    - intros (landmarker & validator & calculator & library & detected & landmarks & others
              & pixels & imageData & -> & Hi & Hl & Hd & Hf & Hlen & Hc & Hp & Hcc & Hcp).
      unfold processImage, detectLandmarks.
      cbn [landmarkerRef qualityValidatorRef metricsCalculatorRef].
      rewrite Hi, Hl, Hd, Hf. cbn [complete_bind].
      destruct landmarks as [|l0 rest]; [cbn in Hlen; lia|].
      cbn [List.length Nat.eqb].
      destruct (validateImage_Ok_iff validator document imageElement (l0 :: rest))
        as (_ & Hv).
      destruct Hv as (qc & ->).
      { right. split; [exact Hc|]. split; [exists pixels; exact Hp|]. lia. }
      destruct (calculateFacialFeatures_succeeds (l0 :: rest) Hlen) as (features & ->).
      cbn [call complete_bind]. rewrite Hcc, Hcp. cbn [negb call complete_bind notify].
      eexists; reflexivity. }
  destruct (processImage_steps refs document canvas imageElement)
    as [(landmarker & validator & calculator & landmarks & qc & features & imageData
         & _ & _ & _ & _ & _ & _ & _ & Hrun)
       | (message & Hall & _)].
  - cbv zeta in Hrun.
    pose proof (Hrun None) as Hnone. cbn [notify] in Hnone.
    specialize (Hrun onCapture). split.
    + intros result. split.
      * intros H. rewrite Hrun in H.
        match type of H with
        | match notify onCapture ?b with _ => _ end = _ =>
            destruct (notify onCapture b) as [[]|error] eqn:En; [|discriminate H]
        end.
        injection H as <-. split; [exact Hnone | exact En].
      * intros [Hr Hn]. rewrite Hnone in Hr. injection Hr as <-.
        rewrite Hrun, Hn. reflexivity.
    + intros result error Hr Hn. rewrite Hnone in Hr. injection Hr as <-.
      rewrite Hrun, Hn. reflexivity.
  - split.
    + intros result. split.
      * intros H. rewrite Hall in H. discriminate H.
      * intros [H _]. rewrite Hall in H. discriminate H.
    + intros result error H. rewrite Hall in H. discriminate H.
Qed.

(** X24.  The message that [processImage] reports on failure is one of
    four fixed texts, or it comes from the canvas that [processImage]
    creates or from [onCapture].  The errors of the quality validator and of
    the feature extractor and a failed detection are object literals, not
    [Error] instances, and are replaced by the general text. *)
Theorem processImage_messages (refs : Refs) (document : Document) (canvas : Canvas)
    (onCapture : OnCapture) (imageElement : ImageElement) (message : string) :
  processImage refs document canvas onCapture imageElement = status_error message ->
  message = NOT_INITIALIZED
  \/ message = "MediaPipe not initialized. Call initialize() first."%string
  \/ message = NO_FACE
  \/ message = PROCESSING_FAILED
  \/ (canvas.(canvas_context2d) = false /\ message = NO_CONTEXT)
  \/ (exists e, canvas.(canvas_imageData) = Throw e /\ message = errorMessage (Exception e))
  \/ (exists callback result error,
        onCapture = Some callback /\ callback result = Raise error
        /\ message = errorMessage error).
Proof.
  intros H.
  destruct (processImage_steps refs document canvas imageElement)
    as [(landmarker & validator & calculator & landmarks & qc & features & pixels
         & _ & _ & _ & _ & _ & _ & _ & Hrun)
       | (m & Hall & Hm)].
  - cbv zeta in Hrun. rewrite Hrun in H.
    destruct onCapture as [callback|]; cbn [notify] in H; [|discriminate H].
    match type of H with
    | match callback ?r with _ => _ end = _ => destruct (callback r) as [u|error] eqn:Ec
    end; [discriminate H|].
    injection H as <-. do 6 right. eexists callback, _, error.
    split; [reflexivity|]. split; [exact Ec | reflexivity].
  - rewrite Hall in H. injection H as <-.
    destruct Hm as [-> | [-> | [-> | [-> | [Hc | He]]]]]; auto 10.
Qed.

End Pipeline.

(** The centred face in front of a uniform gray image: the quality check
    says that the image is not valid, and [processImage] completes. *)
Lemma processImage_not_valid :
  exists result,
    @processImage coarse_math (ready_refs [centered_landmarks]) browser
      (working_canvas (uniform_pixels 3 3 128 128 128)) None
      (uniform_image 3 3 128) = status_complete result
    /\ result.(cap_qualityCheck).(isValid) = false.
Proof.
  assert (E : match @processImage coarse_math (ready_refs [centered_landmarks]) browser
                      (working_canvas (uniform_pixels 3 3 128 128 128)) None
                      (uniform_image 3 3 128) with
              | status_complete r => negb r.(cap_qualityCheck).(isValid)
              | status_error _ => false
              end = true) by (vm_compute; reflexivity).
  destruct (@processImage coarse_math (ready_refs [centered_landmarks]) browser
              (working_canvas (uniform_pixels 3 3 128 128 128)) None
              (uniform_image 3 3 128)) as [result|message]; [|discriminate E].
  exists result. split; [reflexivity|]. apply negb_true_iff. exact E.
Qed.

(** The same image with a callback that throws, and with a canvas of
    [processImage] that gives no context. *)
Lemma processImage_late_errors :
  @processImage coarse_math (ready_refs [centered_landmarks]) browser
    (working_canvas (uniform_pixels 3 3 128 128 128))
    (Some (fun _ => Raise (Exception (Error "onCapture failed"))))
    (uniform_image 3 3 128) = status_error "onCapture failed"
  /\ @processImage coarse_math (ready_refs [centered_landmarks]) browser
       {| canvas_context2d := false; canvas_imageData := Ok [] |} None
       (uniform_image 3 3 128) = status_error NO_CONTEXT.
Proof.
  split; vm_compute; reflexivity.
Qed.

(** A face of 467 landmarks passes the validator and fails in the
    extractor: the user reads the general text. *)
Lemma processImage_messages_witness :
  @processImage coarse_math (ready_refs [firstn 467 centered_landmarks]) browser
    (working_canvas []) None checkerboard = status_error PROCESSING_FAILED
  /\ (PROCESSING_FAILED = NOT_INITIALIZED
      \/ PROCESSING_FAILED = "MediaPipe not initialized. Call initialize() first."%string
      \/ PROCESSING_FAILED = NO_FACE
      \/ PROCESSING_FAILED = PROCESSING_FAILED
      \/ (canvas_context2d (working_canvas []) = false /\ PROCESSING_FAILED = NO_CONTEXT)
      \/ (exists e, canvas_imageData (working_canvas []) = Throw e
                    /\ PROCESSING_FAILED = errorMessage (Exception e))
      \/ (exists callback result error,
            @None (CaptureResult -> completion unit) = Some callback
            /\ callback result = Raise error
            /\ PROCESSING_FAILED = errorMessage error)).
Proof.
  assert (E : @processImage coarse_math (ready_refs [firstn 467 centered_landmarks])
                browser (working_canvas []) None checkerboard
              = status_error PROCESSING_FAILED)
    by (vm_compute; reflexivity).
  split; [exact E|].
  exact (@processImage_messages coarse_math _ _ _ _ _ _ E).
Defined.

(* ------------------------------------------------------------------ *)
(** *** The size of the processed image                                *)











(* ------------------------------------------------------------------ *)
(** *** The EXIF orientation                                           *)

Lemma findOrientation_range (view : DataView) (ifdOffset : N) (littleEndian : bool)
    (i : N) (remaining : nat) (orientation : N) :
  findOrientation view ifdOffset littleEndian i remaining = Some orientation ->
  (1 <= orientation <= 8)%N.
Proof.
  revert i. induction remaining as [|remaining IH]; intros i H.
  - injection H as <-. lia.
  - cbn [findOrientation] in H. cbv zeta in H.
    destruct (getUint16 view (ifdOffset + 2 + i * 12) littleEndian) as [tag|];
      [|discriminate].
    destruct (tag =? 274)%N.
    + destruct (getUint16 view (ifdOffset + 2 + i * 12 + 8) littleEndian) as [value|];
        [|discriminate].
      injection H as <-.
      destruct (N.leb_spec 1 value); destruct (N.leb_spec value 8); cbn [andb]; lia.
    + apply (IH (i + 1)%N H).
Qed.

Lemma parseEXIFOrientation_range (view : DataView) (offset : N) :
  (1 <= parseEXIFOrientation view offset <= 8)%N.
Proof.
  unfold parseEXIFOrientation.
  destruct (getUint16 view offset false) as [byteOrder|]; [|lia].
  cbv zeta.
  destruct (getUint32 view (offset + 4) (byteOrder =? 18761)%N) as [relative|]; [|lia].
  destruct (getUint16 view (offset + relative) (byteOrder =? 18761)%N) as [entryCount|];
    [|lia].
  destruct (findOrientation view (offset + relative) (byteOrder =? 18761)%N 0
              (N.to_nat entryCount)) as [orientation|] eqn:E; [|lia].
  exact (findOrientation_range _ _ _ _ _ _ E).
Qed.

(** The marker loop advances by at least two bytes per round: fuel for
    the bytes that remain is enough. *)
Lemma scanMarkers_fuel (fuel : nat) (view : DataView) (offset : N) :
  (byteLength view <= offset + N.of_nat fuel)%N ->
  match scanMarkers fuel view offset with
  | Found orientation => (1 <= orientation <= 8)%N
  | RangeError => True
  | OutOfFuel => False
  end.
Proof.
  revert offset. induction fuel as [|fuel IH]; intros offset H.
  - cbn [scanMarkers]. destruct (N.ltb_spec offset (byteLength view)); lia.
  - cbn [scanMarkers]. destruct (N.ltb_spec offset (byteLength view)); [|lia].
    destruct (getUint16 view offset false) as [marker|]; [|exact I].
    cbv zeta.
    assert (Hnext :
      match (if (marker =? 65498)%N then Found 1%N
             else match getUint16 view (offset + 2) false with
                  | Some size => scanMarkers fuel view (offset + (2 + size))
                  | None => RangeError
                  end) with
      | Found orientation => (1 <= orientation <= 8)%N
      | RangeError => True
      | OutOfFuel => False
      end).
    { destruct (marker =? 65498)%N; [lia|].
      destruct (getUint16 view (offset + 2) false) as [size|]; [|exact I].
      apply IH. lia. }
    destruct (marker =? 65505)%N; [|exact Hnext].
    destruct (getUint32 view (offset + 4) false) as [header|]; [|exact I].
    destruct (header =? 1165519206)%N; [|exact Hnext].
    destruct (getUint16 view (offset + 4 + 4) false) as [rest|]; [|exact I].
    destruct (rest =? 0)%N; [|exact Hnext].
    apply parseEXIFOrientation_range.
Qed.

(** X27.  Reading the EXIF orientation of a file always ends, never
    throws, and gives a number between 1 and 8, whatever the bytes of the
    file are; for a file that does not start with the JPEG signature it
    gives 1. *)
Theorem extractEXIFOrientation_range (view : DataView) :
  (exists orientation,
     extractEXIFOrientation (List.length view) view = Some orientation
     /\ (1 <= orientation <= 8)%N)
  /\ (getUint16 view 0 false <> Some 0xFFD8%N ->
      extractEXIFOrientation (List.length view) view = Some 1%N).
Proof.
  unfold extractEXIFOrientation. split.
  - destruct (getUint16 view 0 false) as [signature|]; [|exists 1%N; split; [reflexivity | lia]].
    destruct (signature =? 65496)%N; cbn [negb]; [|exists 1%N; split; [reflexivity | lia]].
    pose proof (scanMarkers_fuel (List.length view) view 2) as H.
    destruct (scanMarkers (List.length view) view 2) as [orientation| |].
    + exists orientation. split; [reflexivity|]. apply H. unfold byteLength. lia.
    + exists 1%N. split; [reflexivity | lia].
    + exfalso. apply H. unfold byteLength. lia.
  - intros N. destruct (getUint16 view 0 false) as [signature|]; [|reflexivity].
    destruct (N.eqb_spec signature 65496) as [-> | Hne]; [contradiction N; reflexivity|].
    reflexivity.
Qed.

